(** * mygurukul scripts: text segmentation, chapter isolation, manifests

    A shallow embedding of the text-processing cores of the repository:
    - [VersePatternProcessor] of [scripts/generate_dictionary_from_metadata.py]
      (the verse/chapter segmenter),
    - [isolate_chapter] of [process_caraka_chapter.py] and
      [process_caraka_chapter_ocr.py],
    - [clean_response_text] of [scripts/create_ramayana_metadata.py],
    - the manifest builders of [scripts/generate_chapter_manifest*.py].

    Python strings are sequences of Unicode code points; they are modelled
    as lists of integers.  The regular expressions of the source are
    written in a small abstract syntax and run by a backtracking matcher
    that follows the search order of Python's [re] module. *)

From Stdlib Require Import ZArith Bool Lia String Ascii DecimalString List Permutation.
Import ListNotations.
Open Scope Z_scope.

(** ** Code points and strings *)

Definition codepoint := Z.
Definition text := list codepoint.

(** An ASCII literal of the development as a Python string. *)
Definition str (s : string) : text :=
  map (fun a => Z.of_nat (nat_of_ascii a)) (list_ascii_of_string s).

Definition in_ranges (rs : list (Z * Z)) (c : codepoint) : bool :=
  existsb (fun r => (fst r <=? c) && (c <=? snd r)) rs.

(** The characters Python's [str.isspace], [str.strip] and the regular
    expression class [\s] treat as whitespace. *)
Definition unicode_whitespace : list (Z * Z) :=
  [ (0x09, 0x0D); (0x1C, 0x20); (0x85, 0x85); (0xA0, 0xA0);
    (0x1680, 0x1680); (0x2000, 0x200A); (0x2028, 0x2029);
    (0x202F, 0x202F); (0x205F, 0x205F); (0x3000, 0x3000) ].

(** The decimal digits (general category Nd) that the class [\d] matches
    on a [str] pattern. *)
Definition unicode_Nd : list (Z * Z) :=
  [ (0x30,0x39); (0x660,0x669); (0x6F0,0x6F9); (0x7C0,0x7C9);
    (0x966,0x96F); (0x9E6,0x9EF); (0xA66,0xA6F); (0xAE6,0xAEF);
    (0xB66,0xB6F); (0xBE6,0xBEF); (0xC66,0xC6F); (0xCE6,0xCEF);
    (0xD66,0xD6F); (0xDE6,0xDEF); (0xE50,0xE59); (0xED0,0xED9);
    (0xF20,0xF29); (0x1040,0x1049); (0x1090,0x1099); (0x17E0,0x17E9);
    (0x1810,0x1819); (0x1946,0x194F); (0x19D0,0x19D9); (0x1A80,0x1A89);
    (0x1A90,0x1A99); (0x1B50,0x1B59); (0x1BB0,0x1BB9); (0x1C40,0x1C49);
    (0x1C50,0x1C59); (0xA620,0xA629); (0xA8D0,0xA8D9); (0xA900,0xA909);
    (0xA9D0,0xA9D9); (0xA9F0,0xA9F9); (0xAA50,0xAA59); (0xABF0,0xABF9);
    (0xFF10,0xFF19); (0x104A0,0x104A9); (0x10D30,0x10D39);
    (0x11066,0x1106F); (0x110F0,0x110F9); (0x11136,0x1113F);
    (0x111D0,0x111D9); (0x112F0,0x112F9); (0x11450,0x11459);
    (0x114D0,0x114D9); (0x11650,0x11659); (0x116C0,0x116C9);
    (0x11730,0x11739); (0x118E0,0x118E9); (0x11950,0x11959);
    (0x11C50,0x11C59); (0x11D50,0x11D59); (0x11DA0,0x11DA9);
    (0x16A60,0x16A69); (0x16AC0,0x16AC9); (0x16B50,0x16B59);
    (0x1D7CE,0x1D7FF); (0x1E140,0x1E149); (0x1E2F0,0x1E2F9);
    (0x1E950,0x1E959); (0x1FBF0,0x1FBF9) ].

Definition is_space (c : codepoint) : bool := in_ranges unicode_whitespace c.
Definition is_digit (c : codepoint) : bool := in_ranges unicode_Nd c.

(** [s.strip()] *)
Fixpoint lstrip (s : text) : text :=
  match s with
  | c :: s' => if is_space c then lstrip s' else s
  | [] => []
  end.

Definition rstrip (s : text) : text := rev (lstrip (rev s)).

Definition strip (s : text) : text := rstrip (lstrip s).

(** [s.split('\n')] *)
Fixpoint split_lines (s : text) : list text :=
  match s with
  | [] => [[]]
  | c :: s' =>
      if c =? 10 then [] :: split_lines s'
      else match split_lines s' with
           | l :: ls => (c :: l) :: ls
           | [] => [[c]]
           end
  end.

(** ** Regular expressions

    The fragment of Python's [re] syntax the scripts use.  A repetition
    applies to a character class, as it does everywhere in the source.
    The character before the current position is threaded through the
    matcher for [^] and [\b]; it is [None] at the start of the string. *)

Inductive regex : Type :=
| Eps                                   (* the empty pattern *)
| Chr (p : codepoint -> bool)           (* a literal or a class *)
| Plus (p : codepoint -> bool)          (* [p+], greedy *)
| Star (p : codepoint -> bool)          (* [p*], greedy *)
| Opt (r : regex)                       (* [(r)?], greedy *)
| Cat (r1 r2 : regex)
| Alt (r1 r2 : regex)                   (* [r1|r2], left first *)
| Bos                                   (* [^] without MULTILINE *)
| Bnd (w : codepoint -> bool)           (* [\b] for the word class [w] *)
| Eos.                                  (* [$] without MULTILINE *)

(** A continuation receives the character before the current position and
    the rest of the input, and returns the text it matched. *)
Definition cont := option codepoint -> text -> option text.

(** Greedy repetition with backtracking: the longest run first. *)
Fixpoint rep (p : codepoint -> bool) (k : cont)
         (prev : option codepoint) (s : text) : option text :=
  match s with
  | c :: s' =>
      if p c then
        match rep p k (Some c) s' with
        | Some m => Some (c :: m)
        | None => k prev s
        end
      else k prev s
  | [] => k prev s
  end.

Definition is_word_at (w : codepoint -> bool) (c : option codepoint) : bool :=
  match c with
  | Some x => w x
  | None => false
  end.

(** [run r k prev s]: match [r] at the head of [s], then [k]; the result is
    the text consumed by [r] followed by the text consumed by [k]. *)
Fixpoint run (r : regex) (k : cont) (prev : option codepoint) (s : text)
  : option text :=
  match r with
  | Eps => k prev s
  | Chr p =>
      match s with
      | c :: s' => if p c then option_map (cons c) (k (Some c) s') else None
      | [] => None
      end
  | Plus p =>
      match s with
      | c :: s' => if p c then option_map (cons c) (rep p k (Some c) s') else None
      | [] => None
      end
  | Star p => rep p k prev s
  | Opt r' =>
      match run r' k prev s with
      | Some m => Some m
      | None => k prev s
      end
  | Cat r1 r2 => run r1 (run r2 k) prev s
  | Alt r1 r2 =>
      match run r1 k prev s with
      | Some m => Some m
      | None => run r2 k prev s
      end
  | Bos =>
      match prev with
      | None => k prev s
      | Some _ => None
      end
  | Bnd w =>
      if xorb (is_word_at w prev) (is_word_at w (hd_error s))
      then k prev s else None
  | Eos =>
      match s with
      | [] => k prev s
      | [c] => if c =? 10 then k prev s else None
      | _ => None
      end
  end.

Definition accept : cont := fun _ _ => Some [].

(** [re.match(r, s)]: the matched text ([group(0)]), if any. *)
Definition re_match (r : regex) (s : text) : option text :=
  run r accept None s.

(** A sequence of pattern items. *)
Fixpoint seq (rs : list regex) : regex :=
  match rs with
  | [] => Eps
  | [r] => r
  | r :: rs' => Cat r (seq rs')
  end.

Definition lit (c : codepoint) : codepoint -> bool := fun x => x =? c.
Definition range (lo hi : codepoint) : codepoint -> bool :=
  fun x => (lo <=? x) && (x <=? hi).

(** ** VersePatternProcessor *)

Inductive verse_type := verse | irregular.

Record verse_record := {
  marker : text;
  content : text;
  line_number : Z;
  type : verse_type
}.

Definition dot : codepoint := 46.
Definition colon : codepoint := 58.
Definition hyphen : codepoint := 45.
Definition danda2 : codepoint := 0x965.        (* the double danda *)
Definition deva_1_9 : codepoint -> bool := range 0x967 0x96F.

(** The pattern list of [_extract_standard_verses].  Every pattern is
    [^(...)]: group 1 is the whole match. *)
Definition standard_patterns : list regex :=
  [ seq [Bos; Plus is_digit; Chr (lit dot); Plus is_digit; Chr (lit dot); Plus is_digit];
    seq [Bos; Plus is_digit; Chr (lit dot); Plus is_digit];
    seq [Bos; Plus is_digit; Chr (lit dot)];
    seq [Bos; Plus is_digit];
    seq [Bos; Plus is_digit; Chr (lit colon); Plus is_digit];
    seq [Bos; Plus is_digit; Chr (lit colon); Plus is_digit; Chr (lit colon); Plus is_digit] ].

(** The pattern list of [_extract_complex_verses]. *)
Definition complex_patterns : list regex :=
  [ seq [Bos; Plus is_digit; Chr (lit dot); Plus is_digit; Chr (lit dot); Plus is_digit];
    seq [Bos; Plus is_digit; Chr (lit dot); Plus is_digit];
    seq [Bos; Plus is_digit; Chr (lit dot)];
    seq [Bos; Plus is_digit];
    seq [Bos; Plus deva_1_9; Chr (lit dot)];
    seq [Bos; Plus deva_1_9; Chr (lit colon); Plus deva_1_9];
    seq [Bos; Chr (lit danda2); Star is_space; Plus is_digit; Star is_space; Chr (lit danda2)];
    seq [Bos; Chr (lit danda2); Plus deva_1_9; Chr (lit danda2)] ].

(** The class [[\d\s\.:-ऀ-ॿ]] as [re] reads it: [\d], [\s], the
    dot, the range from the colon to U+0900, the hyphen, and U+097F. *)
Definition irregular_class (c : codepoint) : bool :=
  is_digit c || is_space c || lit dot c || range colon 0x900 c
  || lit hyphen c || lit 0x97F c.

Definition irregular_pattern : regex := seq [Bos; Plus irregular_class; Eos].

(** The [for pattern in [...]] loop with its [break]: the first pattern of
    the list that matches decides. *)
Fixpoint first_match (ps : list regex) (line : text) : option text :=
  match ps with
  | [] => None
  | p :: ps' =>
      match re_match p line with
      | Some m => Some m
      | None => first_match ps' line
      end
  end.

Definition is_some {A} (o : option A) : bool :=
  match o with Some _ => true | None => false end.

(** The body of the loop of [_extract_standard_verses] for a non-blank,
    stripped line. *)
Definition standard_body (line_num : Z) (line : text) : option verse_record :=
  match first_match standard_patterns line with
  | Some m => Some {| marker := m; content := line;
                      line_number := line_num; type := verse |}
  | None => None
  end.

(** The body of the loop of [_extract_complex_verses], with the [else]
    branch of the [for]. *)
Definition complex_body (line_num : Z) (line : text) : option verse_record :=
  match first_match complex_patterns line with
  | Some m => Some {| marker := m; content := line;
                      line_number := line_num; type := verse |}
  | None =>
      if (Z.of_nat (length line) <? 20)
         && is_some (re_match irregular_pattern line)
      then Some {| marker := line; content := line;
                   line_number := line_num; type := irregular |}
      else None
  end.

(** [for line_num, line in enumerate(lines, 1)], with the strip and the
    blank-line [continue] both methods start with. *)
Fixpoint for_lines (body : Z -> text -> option verse_record)
         (line_num : Z) (lines : list text) : list verse_record :=
  match lines with
  | [] => []
  | raw :: rest =>
      let line := strip raw in
      match line with
      | [] => for_lines body (line_num + 1) rest
      | _ =>
          match body line_num line with
          | Some v => v :: for_lines body (line_num + 1) rest
          | None => for_lines body (line_num + 1) rest
          end
      end
  end.

Definition _extract_standard_verses (txt : text) : list verse_record :=
  for_lines standard_body 1 (split_lines txt).

Definition _extract_complex_verses (txt : text) : list verse_record :=
  for_lines complex_body 1 (split_lines txt).

(** The lookup table: scripture name to recommended strategy. *)
Definition lookup_table := list (text * text).

Fixpoint table_get (t : lookup_table) (name : text) : option text :=
  match t with
  | [] => None
  | (k, v) :: t' =>
      if list_eq_dec Z.eq_dec k name then Some v else table_get t' name
  end.

Definition get_parsing_strategy (t : lookup_table) (scripture_name : text) : text :=
  match table_get t scripture_name with
  | Some s => s
  | None => str "standard"
  end.

Definition extract_verses (t : lookup_table) (txt scripture_name : text)
  : list verse_record :=
  if list_eq_dec Z.eq_dec (get_parsing_strategy t scripture_name) (str "complex")
  then _extract_complex_verses txt
  else _extract_standard_verses txt.

(** ** [re.search] and [re.sub] *)

(** [re.search(r, s)]: the leftmost position at which [r] matches, with
    the matched text.  [pos] counts the characters already passed. *)
Fixpoint search_from (r : regex) (prev : option codepoint) (pos : nat)
         (s : text) : option (nat * text) :=
  match run r accept prev s with
  | Some m => Some (pos, m)
  | None =>
      match s with
      | [] => None
      | c :: s' => search_from r (Some c) (S pos) s'
      end
  end.

Definition re_search (r : regex) (s : text) : option (nat * text) :=
  search_from r None 0 s.

(** [re.sub(r, repl, s)] for a pattern that matches no empty string:
    leftmost matches, one after the other, are replaced by [repl].
    [skip] counts the characters of the current match still to drop. *)
Fixpoint sub_from (r : regex) (repl : text) (prev : option codepoint)
         (skip : nat) (s : text) : text :=
  match s with
  | [] => []
  | c :: s' =>
      match skip with
      | S n => sub_from r repl (Some c) n s'
      | O =>
          match run r accept prev s with
          | Some (_ :: m') => repl ++ sub_from r repl (Some c) (length m') s'
          | _ => c :: sub_from r repl (Some c) 0 s'
          end
      end
  end.

Definition re_sub (r : regex) (repl : text) (s : text) : text :=
  sub_from r repl None 0 s.

(** [s[a:b]] for [0 <= a <= b]. *)
Definition slice (a b : nat) (s : text) : text := firstn (b - a) (skipn a s).

(** [str(n)] for an [int]. *)
Definition decimal (n : Z) : text := str (NilEmpty.string_of_int (Z.to_int n)).

(** Matching a literal under [re.IGNORECASE].  The letters of the literals
    below (C, H, A, P, T, E, R) have no case variants outside ASCII, so
    folding ASCII capitals is what the flag does to them; digits, signs
    and punctuation are unchanged. *)
Definition fold_case (c : codepoint) : codepoint :=
  if (65 <=? c) && (c <=? 90) then c + 32 else c.

Definition lit_i (c : codepoint) : codepoint -> bool :=
  fun x => fold_case x =? fold_case c.

Definition word (s : text) : regex := seq (map (fun c => Chr (lit c)) s).
Definition word_i (s : text) : regex := seq (map (fun c => Chr (lit_i c)) s).

(** ** isolate_chapter (process_caraka_chapter.py) *)

Section Isolator.

(** The class [\w] of the interpreter: alphanumeric characters of its
    Unicode database and the underscore. *)
Variable is_word : codepoint -> bool.

(** [rf"CHAPTER\s+{n}\b"] *)
Definition chapter_pattern (n : Z) : regex :=
  seq [word_i (str "CHAPTER"); Plus is_space; word_i (decimal n); Bnd is_word].

Definition isolate_chapter (full_text : text) (chapter_number : Z)
  : option text :=
  match full_text with
  | [] => None
  | _ =>
      let chapter_start_pattern := chapter_pattern chapter_number in
      let chapter_end_pattern := chapter_pattern (chapter_number + 1) in
      match re_search chapter_start_pattern full_text with
      | None => None
      | Some (start, _) =>
          match re_search chapter_end_pattern (skipn start full_text) with
          | Some (e, _) => Some (slice start (start + e) full_text)
          | None => Some (skipn start full_text)
          end
      end
  end.

(** *** The OCR edition (process_caraka_chapter_ocr.py) *)

(** The class [[:\.\s]]. *)
Definition label_end (c : codepoint) : bool :=
  lit colon c || lit dot c || is_space c.

Definition ocr_patterns (n : Z) : list (regex * regex) :=
  [ (seq [word_i (str "CHAPTER"); Plus is_space; word_i (decimal n); Bnd is_word],
     seq [word_i (str "CHAPTER"); Plus is_space; word_i (decimal (n + 1)); Bnd is_word]);
    (seq [word_i (str "Chapter"); Plus is_space; word_i (decimal n); Bnd is_word],
     seq [word_i (str "Chapter"); Plus is_space; word_i (decimal (n + 1)); Bnd is_word]);
    (seq [word_i (str "CHAPTER"); Plus is_space; word_i (decimal n); Chr label_end],
     seq [word_i (str "CHAPTER"); Plus is_space; word_i (decimal (n + 1)); Chr label_end]);
    (seq [word_i (str "Ch"); Opt (Chr (lit dot)); Star is_space; word_i (decimal n); Bnd is_word],
     seq [word_i (str "Ch"); Opt (Chr (lit dot)); Star is_space; word_i (decimal (n + 1)); Bnd is_word]) ].

(** The [for ... in patterns] loop: the first pair whose start pattern
    is found returns. *)
Fixpoint try_patterns (ps : list (regex * regex)) (full_text : text)
  : option text :=
  match ps with
  | [] => None
  | (chapter_start_pattern, chapter_end_pattern) :: ps' =>
      match re_search chapter_start_pattern full_text with
      | Some (start, _) =>
          match re_search chapter_end_pattern (skipn start full_text) with
          | Some (e, _) => Some (slice start (start + e) full_text)
          | None => Some (skipn start full_text)
          end
      | None => try_patterns ps' full_text
      end
  end.

Definition isolate_chapter_ocr (full_text : text) (chapter_number : Z)
  : option text :=
  match full_text with
  | [] => None
  | _ => try_patterns (ocr_patterns chapter_number) full_text
  end.

End Isolator.

(** ** clean_response_text (scripts/create_ramayana_metadata.py) *)

Definition backtick : codepoint := 96.
Definition lbrace : codepoint := 123.
Definition rbrace : codepoint := 125.

(** The class [[\x00-\x1F\x7F]]. *)
Definition is_control (c : codepoint) : bool := range 0 0x1F c || lit 0x7F c.

(** [^```(json)?\s*] *)
Definition fence_open : regex :=
  seq [Bos; Chr (lit backtick); Chr (lit backtick); Chr (lit backtick);
       Opt (word (str "json")); Star is_space].

(** [\s*```$] *)
Definition fence_close : regex :=
  seq [Star is_space; Chr (lit backtick); Chr (lit backtick);
       Chr (lit backtick); Eos].

(** [s.find(c)] and [s.rfind(c)] for a one-character [c]; -1 when absent. *)
Fixpoint find_from (c : codepoint) (i : Z) (s : text) : Z :=
  match s with
  | [] => -1
  | x :: s' => if x =? c then i else find_from c (i + 1) s'
  end.

Definition find (c : codepoint) (s : text) : Z := find_from c 0 s.

Fixpoint rfind_from (c : codepoint) (i : Z) (s : text) : Z :=
  match s with
  | [] => -1
  | x :: s' =>
      let j := rfind_from c (i + 1) s' in
      if j =? -1 then (if x =? c then i else -1) else j
  end.

Definition rfind (c : codepoint) (s : text) : Z := rfind_from c 0 s.

Definition clean_response_text (txt : text) : text :=
  let txt := re_sub (Chr is_control) [] txt in
  let txt := re_sub fence_open [] (strip txt) in
  let txt := re_sub fence_close [] txt in
  let first_brace := find lbrace txt in
  let last_brace := rfind rbrace txt in
  if negb (first_brace =? -1) && negb (last_brace =? -1)
     && (last_brace >? first_brace)
  then slice (Z.to_nat first_brace) (Z.to_nat (last_brace + 1)) txt
  else [].

(** ** Strings, integers and sorting for the manifest builders *)

Definition text_eqb (a b : text) : bool :=
  if list_eq_dec Z.eq_dec a b then true else false.

Fixpoint starts_with (p s : text) : bool :=
  match p, s with
  | [], _ => true
  | a :: p', b :: s' => (a =? b) && starts_with p' s'
  | _ :: _, [] => false
  end.

(** [s.endswith(p)] *)
Definition ends_with (p s : text) : bool := starts_with (rev p) (rev s).

(** [p in s] *)
Fixpoint contains (p s : text) : bool :=
  starts_with p s
  || match s with
     | [] => false
     | _ :: s' => contains p s'
     end.

(** [s.split(sep)] for a non-empty [sep]; [skip] counts the characters
    of the separator still to drop. *)
Fixpoint split_from (sep : text) (skip : nat) (s : text) : list text :=
  match s with
  | [] => [[]]
  | c :: s' =>
      match skip with
      | S n => split_from sep n s'
      | O =>
          if starts_with sep s
          then [] :: split_from sep (length sep - 1) s'
          else match split_from sep 0 s' with
               | l :: ls => (c :: l) :: ls
               | [] => [[c]]
               end
      end
  end.

Definition split (sep s : text) : list text := split_from sep 0 s.

(** [sep.join(parts)] *)
Fixpoint join (sep : text) (parts : list text) : text :=
  match parts with
  | [] => []
  | [x] => x
  | x :: rest => x ++ sep ++ join sep rest
  end.

(** [s.replace(old, new)] for a non-empty [old]. *)
Definition replace (old new s : text) : text := re_sub (word old) new s.

(** The value of a decimal digit of any script. *)
Definition digit_value (c : codepoint) : option Z :=
  match List.find (fun r => (fst r <=? c) && (c <=? snd r)) unicode_Nd with
  | Some (lo, _) => Some ((c - lo) mod 10)
  | None => None
  end.

(** The digits of an [int] literal: single underscores are allowed
    between digits. *)
Fixpoint int_digits (acc : Z) (after_digit : bool) (s : text) : option Z :=
  match s with
  | [] => if after_digit then Some acc else None
  | c :: s' =>
      if c =? 95 then (if after_digit then int_digits acc false s' else None)
      else match digit_value c with
           | Some d => int_digits (acc * 10 + d) true s'
           | None => None
           end
  end.

(** The whitespace [int] skips around the literal. *)
Definition int_space (c : codepoint) : bool :=
  is_space c && negb (range 0x1C 0x1F c).

Fixpoint skip_int_space (s : text) : text :=
  match s with
  | c :: s' => if int_space c then skip_int_space s' else s
  | [] => []
  end.

(** [int(s)]: [None] stands for ValueError.  (File names are far shorter
    than the interpreter's limit on the number of digits.) *)
Definition py_int (s : text) : option Z :=
  match rev (skip_int_space (rev (skip_int_space s))) with
  | 43 :: r => int_digits 0 false r
  | 45 :: r => option_map Z.opp (int_digits 0 false r)
  | r => int_digits 0 false r
  end.

(** Python's sort is stable: an element is placed after the elements
    already there that are not greater. *)
Fixpoint insert_by {A} (lt : A -> A -> bool) (x : A) (l : list A) : list A :=
  match l with
  | [] => [x]
  | y :: l' => if lt x y then x :: l else y :: insert_by lt x l'
  end.

Definition sort_by {A} (lt : A -> A -> bool) (l : list A) : list A :=
  fold_left (fun acc x => insert_by lt x acc) l [].

(** The order of [str]: by code points. *)
Fixpoint text_ltb (a b : text) : bool :=
  match a, b with
  | _, [] => false
  | [], _ :: _ => true
  | x :: a', y :: b' => (x <? y) || ((x =? y) && text_ltb a' b')
  end.

(** [all or nothing]: the values of [f] on [l], or [None] if one fails. *)
Fixpoint map_all {A B} (f : A -> option B) (l : list A) : option (list B) :=
  match l with
  | [] => Some []
  | x :: l' =>
      match f x, map_all f l' with
      | Some y, Some ys => Some (y :: ys)
      | _, _ => None
      end
  end.

(** ** The file system the manifest builders read *)

#[local] Unset Elimination Schemes.
Inductive json : Type :=
| JNull
| JBool (b : bool)
| JNum (literal : text)
| JStr (s : text)
| JArr (items : list json)
| JObj (fields : list (text * json)).
#[local] Set Elimination Schemes.

(** *** [json.loads]

    The decoder of the standard library on a [str]: the grammar of JSON,
    with the constants [NaN], [Infinity] and [-Infinity] it accepts beside
    it.  A number is kept as its literal.  [None] stands for
    JSONDecodeError. *)

Definition json_space (c : codepoint) : bool :=
  (c =? 32) || (c =? 9) || (c =? 10) || (c =? 13).

Fixpoint skip_json_space (s : text) : text :=
  match s with
  | c :: s' => if json_space c then skip_json_space s' else s
  | [] => []
  end.

Definition hex_value (c : codepoint) : option Z :=
  if range 48 57 c then Some (c - 48)
  else if range 97 102 c then Some (c - 87)
  else if range 65 70 c then Some (c - 55)
  else None.

(** The four hexadecimal digits of a [\u] escape. *)
Definition hex4 (s : text) : option (Z * text) :=
  match s with
  | a :: b :: c :: d :: rest =>
      match hex_value a, hex_value b, hex_value c, hex_value d with
      | Some x, Some y, Some z, Some w =>
          Some (((x * 16 + y) * 16 + z) * 16 + w, rest)
      | _, _, _, _ => None
      end
  | _ => None
  end.

(** The low half of a surrogate pair, when one follows. *)
Definition low_surrogate (s : text) : option (Z * text) :=
  match s with
  | 92 :: 117 :: rest =>
      match hex4 rest with
      | Some (lo, rest') =>
          if range 0xDC00 0xDFFF lo then Some (lo, rest') else None
      | None => None
      end
  | _ => None
  end.

(** The characters of a string after its opening quote, up to the closing
    one; [n] bounds the characters still to read. *)
Fixpoint scan_string (n : nat) (acc : text) (s : text) : option (text * text) :=
  match n with
  | O => None
  | S n' =>
      match s with
      | [] => None
      | c :: rest =>
          if c =? 34 then Some (rev acc, rest)
          else if c =? 92 then
            match rest with
            | [] => None
            | e :: rest' =>
                if e =? 34 then scan_string n' (34 :: acc) rest'
                else if e =? 92 then scan_string n' (92 :: acc) rest'
                else if e =? 47 then scan_string n' (47 :: acc) rest'
                else if e =? 98 then scan_string n' (8 :: acc) rest'
                else if e =? 102 then scan_string n' (12 :: acc) rest'
                else if e =? 110 then scan_string n' (10 :: acc) rest'
                else if e =? 114 then scan_string n' (13 :: acc) rest'
                else if e =? 116 then scan_string n' (9 :: acc) rest'
                else if e =? 117 then
                  match hex4 rest' with
                  | Some (u, rest'') =>
                      if range 0xD800 0xDBFF u then
                        match low_surrogate rest'' with
                        | Some (lo, rest3) =>
                            scan_string n'
                              (0x10000 + (u - 0xD800) * 1024 + (lo - 0xDC00) :: acc)
                              rest3
                        | None => scan_string n' (u :: acc) rest''
                        end
                      else scan_string n' (u :: acc) rest''
                  | None => None
                  end
                else None
            end
          else if c <? 32 then None
          else scan_string n' (c :: acc) rest
      end
  end.

Definition ascii_digit (c : codepoint) : bool := range 48 57 c.

Fixpoint span_digits (s : text) : text * text :=
  match s with
  | c :: s' =>
      if ascii_digit c then let (d, r) := span_digits s' in (c :: d, r)
      else ([], s)
  | [] => ([], [])
  end.

(** A number at the head of [s]: its literal and the rest. *)
Definition scan_number (s : text) : option (text * text) :=
  let (sign, s1) :=
    match s with
    | 45 :: r => ([45], r)
    | _ => ([], s)
    end in
  let int_part :=
    match s1 with
    | 48 :: r => Some ([48], r)
    | c :: _ => if ascii_digit c then Some (span_digits s1) else None
    | [] => None
    end in
  match int_part with
  | None => None
  | Some (ds, s2) =>
      let (frac, s3) :=
        match s2 with
        | 46 :: r =>
            match span_digits r with
            | ([], _) => ([], s2)
            | (fd, r') => (46 :: fd, r')
            end
        | _ => ([], s2)
        end in
      let (expo, s4) :=
        match s3 with
        | e :: r =>
            if (e =? 101) || (e =? 69) then
              let (esign, r1) :=
                match r with
                | 43 :: r' => ([43], r')
                | 45 :: r' => ([45], r')
                | _ => ([], r)
                end in
              match span_digits r1 with
              | ([], _) => ([], s3)
              | (ed, r') => (e :: esign ++ ed, r')
              end
            else ([], s3)
        | [] => ([], s3)
        end in
      Some (sign ++ ds ++ frac ++ expo, s4)
  end.

(** [s] starts with the word [w]: the rest. *)
Fixpoint after_word (w s : text) : option text :=
  match w, s with
  | [], _ => Some s
  | a :: w', b :: s' => if a =? b then after_word w' s' else None
  | _ :: _, [] => None
  end.

Definition scan_constant (s : text) : option (json * text) :=
  match after_word [110; 117; 108; 108] s with
  | Some r => Some (JNull, r)
  | None =>
  match after_word [116; 114; 117; 101] s with
  | Some r => Some (JBool true, r)
  | None =>
  match after_word [102; 97; 108; 115; 101] s with
  | Some r => Some (JBool false, r)
  | None =>
  match scan_number s with
  | Some (lit, r) => Some (JNum lit, r)
  | None =>
  match after_word [78; 97; 78] s with
  | Some r => Some (JNum [78; 97; 78], r)
  | None =>
  match after_word [73; 110; 102; 105; 110; 105; 116; 121] s with
  | Some r => Some (JNum [73; 110; 102; 105; 110; 105; 116; 121], r)
  | None =>
  match after_word [45; 73; 110; 102; 105; 110; 105; 116; 121] s with
  | Some r => Some (JNum [45; 73; 110; 102; 105; 110; 105; 116; 121], r)
  | None => None
  end end end end end end end.

(** A value at the head of [s]; then the elements of an array after its
    first, and the members of an object after its first.  [fuel] bounds
    the depth and the length of what is read. *)
Fixpoint scan_value (fuel : nat) (s : text) : option (json * text) :=
  match fuel with
  | O => None
  | S fuel' =>
      match s with
      | [] => None
      | c :: rest =>
          if c =? 34 then
            match scan_string (length rest) [] rest with
            | Some (str, r) => Some (JStr str, r)
            | None => None
            end
          else if c =? 123 then
            match skip_json_space rest with
            | 125 :: r => Some (JObj [], r)
            | r =>
                match scan_member fuel' r with
                | Some (kv, r') =>
                    match scan_members fuel' [kv] r' with
                    | Some (kvs, r'') => Some (JObj kvs, r'')
                    | None => None
                    end
                | None => None
                end
            end
          else if c =? 91 then
            match skip_json_space rest with
            | 93 :: r => Some (JArr [], r)
            | r =>
                match scan_value fuel' r with
                | Some (v, r') =>
                    match scan_elements fuel' [v] r' with
                    | Some (vs, r'') => Some (JArr vs, r'')
                    | None => None
                    end
                | None => None
                end
            end
          else scan_constant s
      end
  end

with scan_elements (fuel : nat) (acc : list json) (s : text)
  : option (list json * text) :=
  match fuel with
  | O => None
  | S fuel' =>
      match skip_json_space s with
      | 93 :: r => Some (rev acc, r)
      | 44 :: r =>
          match scan_value fuel' (skip_json_space r) with
          | Some (v, r') => scan_elements fuel' (v :: acc) r'
          | None => None
          end
      | _ => None
      end
  end

with scan_member (fuel : nat) (s : text) : option ((text * json) * text) :=
  match fuel with
  | O => None
  | S fuel' =>
      match s with
      | 34 :: rest =>
          match scan_string (length rest) [] rest with
          | Some (key, r) =>
              match skip_json_space r with
              | 58 :: r' =>
                  match scan_value fuel' (skip_json_space r') with
                  | Some (v, r'') => Some ((key, v), r'')
                  | None => None
                  end
              | _ => None
              end
          | None => None
          end
      | _ => None
      end
  end

with scan_members (fuel : nat) (acc : list (text * json)) (s : text)
  : option (list (text * json) * text) :=
  match fuel with
  | O => None
  | S fuel' =>
      match skip_json_space s with
      | 125 :: r => Some (rev acc, r)
      | 44 :: r =>
          match scan_member fuel' (skip_json_space r) with
          | Some (kv, r') => scan_members fuel' (kv :: acc) r'
          | None => None
          end
      | _ => None
      end
  end.

(** [json.loads(s)]: one value, with nothing but whitespace around it.
    Every step of the scan reads a character, so the length of [s] is
    fuel enough. *)
Definition json_loads (s : text) : option json :=
  match scan_value (S (length s)) (skip_json_space s) with
  | Some (v, rest) =>
      match skip_json_space rest with
      | [] => Some v
      | _ => None
      end
  | None => None
  end.

(** A directory entry: its name, and what [json.load] returns on it
    ([None] when it raises). *)
Record file := {
  file_name : text;
  json_load : option json
}.

(** A sub-directory of the scripture root. *)
Record folder := {
  folder_name : text;
  entries : list file
}.

(** [Path.stem] and [Path.with_suffix('.json')] on a file name. *)
Definition suffix_index (name : text) : option nat :=
  let i := rfind dot name in
  if (0 <? i) && (i <? Z.of_nat (length name) - 1) then Some (Z.to_nat i) else None.

Definition stem (name : text) : text :=
  match suffix_index name with
  | Some i => firstn i name
  | None => name
  end.

Definition with_suffix_json (name : text) : text := stem name ++ str ".json".

(** [sorted(folder.glob("*.pdf"))] *)
Definition glob_pdf (f : folder) : list file :=
  sort_by (fun a b => text_ltb (file_name a) (file_name b))
          (filter (fun e => ends_with (str ".pdf") (file_name e)) (entries f)).

(** [path.exists()] for a path inside [f]. *)
Definition exists_in (f : folder) (name : text) : bool :=
  existsb (fun e => text_eqb (file_name e) name) (entries f).

Definition lookup_in (f : folder) (name : text) : option file :=
  List.find (fun e => text_eqb (file_name e) name) (entries f).

(** ** The manifest *)

Record chapter_entry := {
  chapterId : text;
  chapterNumber : Z;
  title : text;
  titleEnglish : text;
  metadataUrl : text;
  pdfUrl : text;
  hasMetadata : bool
}.

Record section_entry := {
  sectionId : text;
  sectionName : text;
  sectionNameEnglish : text;
  chapterCount : Z;
  chapters : list chapter_entry
}.

Record manifest := {
  scriptureId : text;
  scriptureName : text;
  totalChapters : Z;
  lastUpdated : text;
  sections : list section_entry
}.

Definition slash : text := str "/".

(** [dict.get(key, "")] on a translation table. *)
Fixpoint translation (t : list (text * text)) (key : text) : text :=
  match t with
  | [] => []
  | (k, v) :: t' => if text_eqb k key then v else translation t' key
  end.

(** The chapter number in a file stem:
    [stem.split("Chapter_")[1]], cut at the next underscore, through
    [int]; [None] when the [try] block raises. *)
Definition chapter_number_of (pdf_filename : text) : option Z :=
  match nth_error (split (str "Chapter_") pdf_filename) 1 with
  | Some chapter_part =>
      let chapter_num :=
        if contains (str "_") chapter_part
        then nth 0 (split (str "_") chapter_part) []
        else chapter_part in
      py_int chapter_num
  | None => None
  end.

(** [sections.sort(key=lambda x: int(x["sectionId"]))] inside
    [try: ... except: pass]: the keys are computed first, and a key that
    raises leaves the list as it was. *)
Definition sort_sections (l : list section_entry) : list section_entry :=
  match map_all (fun x => py_int (sectionId x)) l with
  | Some _ =>
      sort_by (fun a b =>
                 match py_int (sectionId a), py_int (sectionId b) with
                 | Some ka, Some kb => ka <? kb
                 | _, _ => false
                 end) l
  | None => l
  end.

Definition sort_chapters (l : list chapter_entry) : list chapter_entry :=
  sort_by (fun a b => chapterNumber a <? chapterNumber b) l.

(** ** generate_chapter_manifest.py *)

Module Caraka.

Definition GCS_BUCKET : text := str "gs://mygurukul-library".

Definition SECTION_TRANSLATIONS : list (text * text) :=
  [ (str "Sutrasthanam", str "Foundational Principles");
    (str "Nidanasthanam", str "Diagnostics");
    (str "Vim" ++ [0x101] ++ str "nasthanam", str "Specific Determinations");
    ([0x15A; 0x101] ++ str "r" ++ [0x12B] ++ str "rasthanam", str "Anatomy & Physiology");
    (str "Indriyasthanam", str "Prognosis");
    (str "Cikits" ++ [0x101] ++ str "sthanam", str "Therapeutics");
    (str "Kalpasthanam", str "Pharmaceutics");
    (str "Siddhisthanam", str "Success in Treatment") ].

(** Section id and display name from the folder name. *)
Definition section_info (section_name : text) : text * text :=
  let parts := split (str "_") section_name in
  if (3 <=? length parts)%nat && text_eqb (nth 0 parts []) (str "Section")
  then (nth 1 parts [], join (str "_") (skipn 2 parts))
  else (str "unknown", section_name).

(** One round of [for pdf_path in pdf_files]; the state is the list
    [chapters] and the counter [manifest["totalChapters"]]. *)
Definition chapter_step (scripture_id : text) (section_folder : folder)
           (st : list chapter_entry * Z) (pdf : file)
  : list chapter_entry * Z :=
  let section_name := folder_name section_folder in
  let pdf_filename := stem (file_name pdf) in
  if contains (str "Chapter_") pdf_filename then
    match chapter_number_of pdf_filename with
    | None => st
    | Some chapter_num =>
        let json_name := with_suffix_json (file_name pdf) in
        let has_metadata := exists_in section_folder json_name in
        let metadata_url :=
          GCS_BUCKET ++ str "/metadata/chapters/" ++ scripture_id ++ slash
          ++ section_name ++ slash ++ json_name in
        let pdf_url :=
          GCS_BUCKET ++ str "/pdfs/" ++ scripture_id ++ slash
          ++ section_name ++ slash ++ file_name pdf in
        let chapter_entry :=
          {| chapterId := decimal chapter_num;
             chapterNumber := chapter_num;
             title := str "Chapter " ++ decimal chapter_num;
             titleEnglish := [];
             metadataUrl := metadata_url;
             pdfUrl := pdf_url;
             hasMetadata := has_metadata |} in
        (fst st ++ [chapter_entry], snd st + 1)
    end
  else st.

(** One round of [for section_folder in section_folders]. *)
Definition section_step (scripture_id : text) (m : manifest)
           (section_folder : folder) : manifest :=
  let section_name := folder_name section_folder in
  let (section_id, section_display_name) := section_info section_name in
  let section_english := translation SECTION_TRANSLATIONS section_display_name in
  let pdf_files := glob_pdf section_folder in
  match pdf_files with
  | [] => m
  | _ =>
      let st := fold_left (chapter_step scripture_id section_folder)
                          pdf_files ([], totalChapters m) in
      let chapters := sort_chapters (fst st) in
      let section_entry :=
        {| sectionId := section_id;
           sectionName := section_display_name;
           sectionNameEnglish := section_english;
           chapterCount := Z.of_nat (length chapters);
           chapters := chapters |} in
      {| scriptureId := scriptureId m;
         scriptureName := scriptureName m;
         totalChapters := snd st;
         lastUpdated := lastUpdated m;
         sections := sections m ++ [section_entry] |}
  end.

(** [scripture_root] is [None] when the directory does not exist, else
    its sub-directories; [now] is the formatted clock reading. *)
Definition generate_chapter_manifest (scripture_root : option (list folder))
           (scripture_id scripture_name now : text) : option manifest :=
  let manifest0 :=
    {| scriptureId := scripture_id;
       scriptureName := scripture_name;
       totalChapters := 0;
       lastUpdated := now ++ str "Z";
       sections := [] |} in
  match scripture_root with
  | None => None
  | Some dirs =>
      let section_folders :=
        sort_by (fun a b => text_ltb (folder_name a) (folder_name b)) dirs in
      match section_folders with
      | [] => None
      | _ =>
          let m := fold_left (section_step scripture_id) section_folders manifest0 in
          Some {| scriptureId := scriptureId m;
                  scriptureName := scriptureName m;
                  totalChapters := totalChapters m;
                  lastUpdated := lastUpdated m;
                  sections := sort_sections (sections m) |}
      end
  end.

End Caraka.

(** ** generate_chapter_manifest_sushruta_samhita_copy.py *)

Module Sushruta.

Definition SCRIPTURE_ID : text := str "sushruta_samhita".
Definition SCRIPTURE_NAME : text :=
  str "Sushruta Sa" ++ [0x1E43] ++ str "hit" ++ [0x101].
Definition GCS_BUCKET : text := str "gs://mygurukul-sacred-texts-corpus".
Definition GCS_BASE_PATH : text :=
  str "Gurukul_Library/Primary_Texts/Ayurveda/Sushruta_Samhita".

Definition SECTION_TRANSLATIONS : list (text * text) :=
  [ (str "Sutrasthanam", str "Foundational Principles");
    (str "Nidanasthanam", str "Diagnostics");
    (str "Sarirasthanam", str "Anatomy");
    (str "Chikitsasthanam", str "Therapeutics");
    (str "Kalpasthanam", str "Pharmaceutics");
    (str "Uttaratantram", str "Supplementary Treatise") ].

Definition extract_section_info (folder_name : text) : text * text * text :=
  let clean_name :=
    replace (str "sushruta_samhita_") []
            (replace (str "Sushruta_Samhita_") [] folder_name) in
  let (section_id, section_name) :=
    if contains (str "Section_") clean_name then
      let parts := split (str "_") clean_name in
      if (3 <=? length parts)%nat
      then (nth 1 parts [], join (str "_") (skipn 2 parts))
      else (str "unknown", clean_name)
    else (str "unknown", folder_name) in
  (section_id, section_name, translation SECTION_TRANSLATIONS section_name).

Definition chapter_step (section_folder : folder)
           (st : list chapter_entry * Z) (pdf : file)
  : list chapter_entry * Z :=
  let folder_name := folder_name section_folder in
  let pdf_filename := stem (file_name pdf) in
  if negb (contains (str "Chapter_") pdf_filename) then st
  else
    match chapter_number_of pdf_filename with
    | None => st
    | Some chapter_num =>
        let json_name := with_suffix_json (file_name pdf) in
        let has_metadata := exists_in section_folder json_name in
        (fst st ++
           [ {| chapterId := decimal chapter_num;
                chapterNumber := chapter_num;
                title := str "Chapter " ++ decimal chapter_num;
                titleEnglish := [];
                metadataUrl := GCS_BUCKET ++ slash ++ GCS_BASE_PATH ++ slash
                               ++ folder_name ++ slash ++ json_name;
                pdfUrl := GCS_BUCKET ++ slash ++ GCS_BASE_PATH ++ slash
                          ++ folder_name ++ slash ++ file_name pdf;
                hasMetadata := has_metadata |} ],
         snd st + 1)
    end.

Definition section_step (m : manifest) (section_folder : folder) : manifest :=
  let '(section_id, section_name, section_english) :=
    extract_section_info (folder_name section_folder) in
  let st := fold_left (chapter_step section_folder)
                      (glob_pdf section_folder) ([], totalChapters m) in
  let chapters := sort_chapters (fst st) in
  {| scriptureId := scriptureId m;
     scriptureName := scriptureName m;
     totalChapters := snd st;
     lastUpdated := lastUpdated m;
     sections := sections m ++
                 [ {| sectionId := section_id;
                      sectionName := section_name;
                      sectionNameEnglish := section_english;
                      chapterCount := Z.of_nat (length chapters);
                      chapters := chapters |} ] |}.

(** The manifest [main] dumps to the output file; [None] when the root
    directory is missing and nothing is written. *)
Definition main (scripture_root : option (list folder)) (now : text)
  : option manifest :=
  match scripture_root with
  | None => None
  | Some dirs =>
      let manifest0 :=
        {| scriptureId := SCRIPTURE_ID;
           scriptureName := SCRIPTURE_NAME;
           totalChapters := 0;
           lastUpdated := now ++ str "Z";
           sections := [] |} in
      let section_folders :=
        sort_by (fun a b => text_ltb (folder_name a) (folder_name b)) dirs in
      let m := fold_left section_step section_folders manifest0 in
      Some {| scriptureId := scriptureId m;
              scriptureName := scriptureName m;
              totalChapters := totalChapters m;
              lastUpdated := lastUpdated m;
              sections := sort_sections (sections m) |}
  end.

End Sushruta.

(** ** generate_chapter_manifest_ramayana.py: the title of a chapter *)

Module Ramayana.

(** [(?:CHAPTER|Chapter)] under IGNORECASE. *)
Definition chapter_word : regex :=
  Alt (word_i (str "CHAPTER")) (word_i (str "Chapter")).

(** The class [[IVX]] under IGNORECASE: the letters, their lower case,
    and the dotted capital and dotless small i the flag adds. *)
Definition roman_class (c : codepoint) : bool :=
  existsb (fun x => x =? c) [0x49; 0x56; 0x58; 0x69; 0x76; 0x78; 0x130; 0x131].

Definition derive_fallback_title (filename : text) : text :=
  let cleaned := stem filename in
  let cleaned :=
    re_sub (seq [Bos; chapter_word; Plus is_space; Plus is_digit; Plus is_space])
           [] cleaned in
  let cleaned :=
    re_sub (seq [Bos; chapter_word; Plus is_space; Plus roman_class; Plus is_space])
           [] cleaned in
  let cleaned := replace (str "-") (str " ") (replace (str "_") (str " ") cleaned) in
  let cleaned := strip (re_sub (Plus is_space) (str " ") cleaned) in
  match cleaned with
  | [] => str "Ramayana Chapter"
  | _ => cleaned
  end.

(** [data.get(key, default)] on the dictionary of a JSON object, in
    which the last of several equal keys stands. *)
Fixpoint dict_get (key : text) (default : json) (fields : list (text * json))
  : json :=
  match fields with
  | [] => default
  | (k, v) :: rest =>
      if text_eqb k key then dict_get key v rest else dict_get key default rest
  end.

(** The title and the [hasMetadata] flag the loop of
    [generate_chapter_manifest] computes for the file [pdf_filename]
    of [kanda_folder]. *)
Definition chapter_title (kanda_folder : folder) (pdf_filename : text)
  : json * bool :=
  let json_name := with_suffix_json pdf_filename in
  let has_metadata := exists_in kanda_folder json_name in
  let title := JStr (derive_fallback_title pdf_filename) in
  if has_metadata then
    match lookup_in kanda_folder json_name with
    | Some f =>
        match json_load f with
        | Some (JObj fields) =>
            (dict_get (str "chapterTitle") title fields, true)
        | _ => (title, false)
        end
    | None => (title, false)
    end
  else (title, has_metadata).

End Ramayana.

(** * Vocabulary of the statements *)

(** The classes of [r] lie inside [q]. *)
Fixpoint classes_in (q : codepoint -> bool) (r : regex) : Prop :=
  match r with
  | Chr p | Plus p | Star p => forall c, p c = true -> q c = true
  | Opt r' => classes_in q r'
  | Cat r1 r2 | Alt r1 r2 => classes_in q r1 /\ classes_in q r2
  | Eps | Bnd _ | Eos | Bos => True
  end.

Definition all_in (q : codepoint -> bool) (m : text) : Prop :=
  Forall (fun c => q c = true) m.

(** What a successful run tells: the input splits into the part [r]
    consumed and the part handed to the continuation. *)
Definition splits (q : codepoint -> bool) (k : cont) (s m : text) : Prop :=
  exists m1 m2 s' prev',
    m = m1 ++ m2 /\ s = m1 ++ s' /\ all_in q m1 /\ k prev' s' = Some m2.


(** A line that survives the strip. *)
Definition non_blank (raw : text) : bool :=
  match strip raw with
  | [] => false
  | _ :: _ => true
  end.

(** The line coverage of a list of records against the text it was
    extracted from. *)
Definition line_coverage (txt : text) (recs : list verse_record) : Prop :=
  let lines := split_lines txt in
  NoDup (map line_number recs)
  /\ (forall r, In r recs ->
        1 <= line_number r <= Z.of_nat (length lines)
        /\ non_blank (nth (Z.to_nat (line_number r - 1)) lines []) = true
        /\ content r = strip (nth (Z.to_nat (line_number r - 1)) lines []))
  /\ (length recs <= length (filter non_blank lines))%nat.

(** The record both strategies emit on a pattern match. *)
Definition verse_of (line_num : Z) (line m : text) : verse_record :=
  {| marker := m; content := line; line_number := line_num; type := verse |}.

Definition irregular_of (line_num : Z) (line : text) : verse_record :=
  {| marker := line; content := line; line_number := line_num; type := irregular |}.

Definition digit_or_dot (c : codepoint) : bool := is_digit c || lit dot c.

(** A loop body that records the line it was given. *)
Definition body_ok (body : Z -> text -> option verse_record) : Prop :=
  forall n l v, body n l = Some v -> line_number v = n /\ content v = l.

(** The character before offset [k] of [s], when [prev] stands before
    [s]. *)
Definition prev_at (prev : option codepoint) (s : text) (k : nat)
  : option codepoint :=
  match k with
  | O => prev
  | S j => nth_error s j
  end.

Definition char_before (s : text) (i : nat) : option codepoint :=
  prev_at None s i.

(** The result of matching [r] at position [i] of [s], read in place. *)
Definition match_at (r : regex) (s : text) (i : nat) : option text :=
  run r accept (char_before s i) (skipn i s).

(** [r] matches at position [i] of [s]. *)
Definition matches_at (r : regex) (s : text) (i : nat) : Prop :=
  (i <= length s)%nat /\ match_at r s i <> None.

(** [i] is the leftmost position of [s] at which [r] matches. *)
Definition first_match_at (r : regex) (s : text) (i : nat) : Prop :=
  matches_at r s i /\ forall j, (j < i)%nat -> ~ matches_at r s j.

(** A pattern that does not look at the character before its match. *)
Definition prev_free (r : regex) : Prop :=
  forall (k : cont) prev prev' s, run r k prev s = run r k prev' s.

(** A pattern that matches no empty input. *)
Definition needs_char (r : regex) : Prop :=
  forall (k : cont) prev, run r k prev [] = None.

(** The pair of patterns the loop of the OCR edition settles on, and the
    position of the start it found: the first pair of the list whose
    start pattern matches somewhere. *)
Definition ocr_selects (ps : list (regex * regex)) (s : text)
           (pr : regex * regex) (i : nat) : Prop :=
  exists l1 l2,
    ps = l1 ++ pr :: l2
    /\ (forall q, In q l1 -> forall j, ~ matches_at (fst q) s j)
    /\ first_match_at (fst pr) s i.

(** The cut made once the start is found: up to the first match of the
    end pattern in the tail, or the whole tail. *)
Definition cut_tail (chapter_end_pattern : regex) (tail : text) : text :=
  match re_search chapter_end_pattern tail with
  | Some (e, _) => firstn e tail
  | None => tail
  end.

(** The ASCII part of the class [\w], for the examples. *)
Definition ascii_word (c : codepoint) : bool :=
  range 48 57 c || range 65 90 c || range 97 122 c || lit 95 c.

(** [a] is [b] with some characters left out. *)
Inductive subseq : text -> text -> Prop :=
| subseq_nil : subseq [] []
| subseq_skip a b c : subseq a b -> subseq a (c :: b)
| subseq_keep a b c : subseq a b -> subseq (c :: a) (c :: b).

(** An opening brace followed, later, by a closing brace. *)
Definition brace_pair (s : text) : Prop :=
  exists x y z, s = x ++ lbrace :: y ++ rbrace :: z.

Fixpoint brace_pairb (s : text) : bool :=
  match s with
  | [] => false
  | c :: s' =>
      if c =? lbrace then existsb (fun x => x =? rbrace) s' else brace_pairb s'
  end.

(** What [clean_response_text] searches for braces: the response without
    control characters and without the fences at its ends. *)
Definition remainder (txt : text) : text :=
  re_sub fence_close []
         (re_sub fence_open [] (strip (re_sub (Chr is_control) [] txt))).

Definition not_control (c : codepoint) : bool := negb (is_control c).

(** The response of the example: a fenced object with a comment on either
    side. *)
Definition fenced_response : text :=
  str "Here you go:" ++ [10] ++ str "```json" ++ [10]
  ++ [lbrace; 34; 97; 34; 58; 49; rbrace] ++ [10] ++ str "```" ++ [10]
  ++ str "Thanks".

(** The counts of a manifest. *)
Definition sum_counts (l : list section_entry) : Z :=
  fold_right (fun s acc => chapterCount s + acc) 0 l.

Definition section_count_ok (s : section_entry) : Prop :=
  chapterCount s = Z.of_nat (length (chapters s)).

Definition manifest_counts (m : manifest) : Prop :=
  totalChapters m = sum_counts (sections m)
  /\ Forall section_count_ok (sections m).

(** The title by convention: "Chapter n". *)
Definition conventional_title (c : chapter_entry) : Prop :=
  title c = str "Chapter " ++ decimal (chapterNumber c).

Definition titles_conventional (m : manifest) : Prop :=
  Forall (fun s => Forall conventional_title (chapters s)) (sections m).

(** What the two loops keep true. *)
Definition chapters_ok (total0 : Z) (st : list chapter_entry * Z) : Prop :=
  snd st = total0 + Z.of_nat (length (fst st))
  /\ Forall conventional_title (fst st).

Definition manifest_ok (m : manifest) : Prop :=
  manifest_counts m /\ titles_conventional m.

(** The title read from the sibling: the string under "chapterTitle" of
    the JSON object of the file beside [pdf_name] in [fld]. *)
Definition sibling_title (fld : folder) (pdf_name : text) : option text :=
  match lookup_in fld (with_suffix_json pdf_name) with
  | Some f =>
      match json_load f with
      | Some (JObj fields) =>
          match Ramayana.dict_get (str "chapterTitle") JNull fields with
          | JStr t => Some t
          | _ => None
          end
      | _ => None
      end
  | None => None
  end.

(** A section folder with one chapter and its metadata beside it. *)
Definition titled_section : folder :=
  {| folder_name := str "Section_1_Sutrasthanam";
     entries :=
       [ {| file_name := str "Charaka_Chapter_4.pdf"; json_load := None |};
         {| file_name := str "Charaka_Chapter_4.json";
            json_load :=
              Some (JObj [ (str "chapterTitle", JStr (str "On Longevity"));
                           (str "aiSummary", JStr (str "...")) ]) |} ] |}.

(** A tree of two sections, one file of which is no chapter. *)
Definition sample_tree : list folder :=
  [ {| folder_name := str "Section_2_Nidanasthanam";
       entries :=
         [ {| file_name := str "Charaka_Chapter_10.pdf"; json_load := None |};
           {| file_name := str "Charaka_Chapter_2.pdf"; json_load := None |};
           {| file_name := str "Charaka_Chapter_2.json"; json_load := Some (JObj []) |};
           {| file_name := str "notes.pdf"; json_load := None |} ] |};
    titled_section ].

(** * Further vocabulary *)

From Stdlib Require Import Sorted DecimalPos.

(** The first character of a line is a decimal digit. *)
Definition starts_with_digit (line : text) : bool :=
  match line with
  | c :: _ => is_digit c
  | [] => false
  end.

(** A pattern whose match is never empty. *)
Definition consumes (r : regex) : Prop :=
  forall (k : cont) prev s m, run r k prev s = Some m -> m <> [].

(** ** validate_manifest (generate_chapter_manifest.py)

    The argument is what [generate_chapter_manifest] returned.  The four
    required keys are fields of the record; the loop over the sections
    only counts what it prints. *)
Definition validate_manifest (m : option manifest) : bool :=
  match m with
  | None => false
  | Some m =>
      if (length (sections m) =? 0)%nat then false else true
  end.

(** A file the inner loop of the two builders turns into a chapter. *)
Definition is_chapter_file (pdf : file) : bool :=
  ends_with (str ".pdf") (file_name pdf)
  && contains (str "Chapter_") (stem (file_name pdf))
  && is_some (chapter_number_of (stem (file_name pdf))).

Definition chapter_files (fld : folder) : list file :=
  filter is_chapter_file (entries fld).

(** The folder holds an entry named [*.pdf]. *)
Definition has_pdf (fld : folder) : bool :=
  existsb (fun e => ends_with (str ".pdf") (file_name e)) (entries fld).

(** The entry [c] of the manifest describes the file [pdf] of [fld]. *)
Definition chapter_of_file (fld : folder) (pdf : file) (c : chapter_entry) : Prop :=
  In pdf (entries fld)
  /\ is_chapter_file pdf = true
  /\ chapter_number_of (stem (file_name pdf)) = Some (chapterNumber c)
  /\ chapterId c = decimal (chapterNumber c)
  /\ hasMetadata c = exists_in fld (with_suffix_json (file_name pdf)).

Definition section_of_folder (fld : folder) (s : section_entry) : Prop :=
  Forall (fun c => exists pdf, chapter_of_file fld pdf c) (chapters s).

Definition sections_of_tree (dirs : list folder) (m : manifest) : Prop :=
  Forall (fun s => exists fld, In fld dirs /\ section_of_folder fld s) (sections m).

(** The order the two sorts leave. *)
Definition chapters_in_order (s : section_entry) : Prop :=
  StronglySorted (fun a b => chapterNumber a <= chapterNumber b) (chapters s).

Definition total_chapter_files (dirs : list folder) : Z :=
  fold_right (fun fld acc => Z.of_nat (length (chapter_files fld)) + acc) 0 dirs.

(** The digits of a decimal numeral as code points. *)
Definition uint_codes (d : Decimal.uint) : text := str (NilEmpty.string_of_uint d).

(** The second condition of the inner loop: the stem names a chapter
    number. *)
Definition names_chapter (pdf : file) : bool :=
  contains (str "Chapter_") (stem (file_name pdf))
  && is_some (chapter_number_of (stem (file_name pdf))).

(** What the inner loop keeps true of its state after the files [done],
    having started with the counter at [total0]. *)
Definition chapters_trace (fld : folder) (total0 : Z) (done : list file)
           (st : list chapter_entry * Z) : Prop :=
  snd st = total0 + Z.of_nat (length (filter names_chapter done))
  /\ Forall (fun c => exists pdf,
                 In pdf done
                 /\ names_chapter pdf = true
                 /\ chapter_number_of (stem (file_name pdf)) = Some (chapterNumber c)
                 /\ chapterId c = decimal (chapterNumber c)
                 /\ hasMetadata c = exists_in fld (with_suffix_json (file_name pdf)))
            (fst st).

(** What the outer loop keeps true of the manifest after the folders
    [done]; [kept] tells which folders give a section. *)
Definition manifest_trace (kept : folder -> bool) (done : list folder)
           (m : manifest) : Prop :=
  totalChapters m = total_chapter_files done
  /\ sections_of_tree done m
  /\ Forall chapters_in_order (sections m)
  /\ length (sections m) = length (filter kept done).

(** The integer an id stands for, when it stands for one. *)
Definition section_key (s : section_entry) : option Z := py_int (sectionId s).

(** Every chapter entry of the manifest describes a chapter file of the
    tree, the entries of one section files of one folder. *)
Definition from_tree (dirs : list folder) (m : manifest) : Prop :=
  forall s, In s (sections m) ->
  exists fld,
    In fld dirs
    /\ forall c, In c (chapters s) ->
       exists pdf,
         In pdf (entries fld)
         /\ ends_with (str ".pdf") (file_name pdf) = true
         /\ contains (str "Chapter_") (stem (file_name pdf)) = true
         /\ chapter_number_of (stem (file_name pdf)) = Some (chapterNumber c)
         /\ py_int (chapterId c) = Some (chapterNumber c)
         /\ hasMetadata c = exists_in fld (with_suffix_json (file_name pdf)).

(** The order of a manifest: the chapters of a section by number, the
    sections by the integer of their id where every id is one. *)
Definition manifest_in_order (m : manifest) : Prop :=
  Forall chapters_in_order (sections m)
  /\ forall keys, map_all section_key (sections m) = Some keys ->
                  StronglySorted Z.le keys.

(** The chapter entries of a manifest, section after section. *)
Definition all_chapters (m : manifest) : list chapter_entry :=
  concat (map chapters (sections m)).

(** A folder with one file that is no chapter. *)
Definition notes_only : list folder :=
  [ {| folder_name := str "Section_1_Sutrasthanam";
       entries := [ {| file_name := str "notes.pdf"; json_load := None |} ] |} ].

(** A text in which every whitespace character is a space and no two
    whitespace characters stand side by side. *)
Fixpoint single_spaced (s : text) : bool :=
  match s with
  | [] => true
  | a :: s' =>
      implb (is_space a) (a =? 32)
      && match s' with
         | b :: _ => negb (is_space a && is_space b)
         | [] => true
         end
      && single_spaced s'
  end.

(** Neither an underscore nor a hyphen. *)
Definition no_separator (c : codepoint) : bool :=
  negb (c =? 95) && negb (c =? hyphen).
(** * Properties *)

(** ** The matcher *)

Lemma splits_here q (k : cont) prev s m :
  k prev s = Some m -> splits q k s m.
Proof.
  intros H. exists [], m, s, prev. repeat split; auto. constructor.
Qed.

Lemma splits_cons q (k : cont) c s m :
  q c = true -> splits q k s m -> splits q k (c :: s) (c :: m).
Proof.
  intros Hc (m1 & m2 & s' & prev' & -> & -> & Hall & Hk).
  exists (c :: m1), m2, s', prev'. repeat split; auto.
  constructor; assumption.
Qed.

Lemma rep_splits q p (k : cont) :
  (forall c, p c = true -> q c = true) ->
  forall s prev m, rep p k prev s = Some m -> splits q k s m.
Proof.
  intros Hpq. induction s as [|c s IH]; intros prev m H; simpl in H.
  - eapply splits_here; eassumption.
  - destruct (p c) eqn:Hc.
    + destruct (rep p k (Some c) s) as [m'|] eqn:Hr.
      * inversion H; subst. apply splits_cons; eauto.
      * eapply splits_here; eassumption.
    + eapply splits_here; eassumption.
Qed.

Lemma splits_trans q (k : cont) r2run s m :
  splits q r2run s m ->
  (forall prev s' m', r2run prev s' = Some m' -> splits q k s' m') ->
  splits q k s m.
Proof.
  intros (m1 & m2 & s1 & prev1 & -> & -> & Hall1 & Hk1) Hnext.
  destruct (Hnext _ _ _ Hk1) as (m3 & m4 & s2 & prev2 & -> & -> & Hall2 & Hk2).
  exists (m1 ++ m3), m4, s2, prev2.
  rewrite <- !app_assoc. repeat split; auto.
  apply Forall_app; split; assumption.
Qed.

Lemma run_splits q r :
  classes_in q r ->
  forall (k : cont) prev s m, run r k prev s = Some m -> splits q k s m.
Proof.
  induction r; simpl; intros Hq k prev s m H.
  - eapply splits_here; eassumption.
  - destruct s as [|c s]; [discriminate|].
    destruct (p c) eqn:Hc; [|discriminate].
    destruct (k (Some c) s) as [m'|] eqn:Hk; [|discriminate].
    inversion H; subst. apply splits_cons; auto.
    eapply splits_here; eassumption.
  - destruct s as [|c s]; [discriminate|].
    destruct (p c) eqn:Hc; [|discriminate].
    destruct (rep p k (Some c) s) as [m'|] eqn:Hk; [|discriminate].
    inversion H; subst. apply splits_cons; auto.
    eapply rep_splits; eauto.
  - eapply rep_splits; eauto.
  - destruct (run r k prev s) as [m'|] eqn:Hr.
    + inversion H; subst. eapply IHr; eauto.
    + eapply splits_here; eassumption.
  - destruct Hq as [Hq1 Hq2].
    eapply splits_trans.
    + eapply IHr1; eauto.
    + intros. eapply IHr2; eauto.
  - destruct Hq as [Hq1 Hq2].
    destruct (run r1 k prev s) as [m'|] eqn:Hr.
    + inversion H; subst. eapply IHr1; eauto.
    + eapply IHr2; eauto.
  - destruct prev; [discriminate|]. eapply splits_here; eassumption.
  - destruct (xorb _ _); [|discriminate]. eapply splits_here; eassumption.
  - destruct s as [|c [|c' s]]; try discriminate.
    + eapply splits_here; eassumption.
    + destruct (c =? 10); [|discriminate]. eapply splits_here; eassumption.
Qed.

(** A match is a prefix of the input, made of characters of the classes
    of the pattern. *)
Lemma re_match_prefix q r s m :
  classes_in q r -> re_match r s = Some m ->
  all_in q m /\ exists s', s = m ++ s'.
Proof.
  intros Hq H. unfold re_match in H.
  destruct (run_splits q r Hq _ _ _ _ H) as (m1 & m2 & s' & prev' & -> & -> & Hall & Hk).
  unfold accept in Hk. inversion Hk; subst. rewrite app_nil_r.
  split; [assumption | exists s'; reflexivity].
Qed.

Lemma rep_accept_total p prev s : exists m, rep p accept prev s = Some m.
Proof.
  revert prev. induction s as [|c s IH]; intros prev; simpl.
  - eexists; reflexivity.
  - destruct (p c).
    + destruct (IH (Some c)) as [m ->]. eexists; reflexivity.
    + eexists; reflexivity.
Qed.

(** ** The segmenter *)

Lemma first_match_inv ps line m :
  first_match ps line = Some m ->
  exists l1 p l2,
    ps = l1 ++ p :: l2
    /\ (forall q, In q l1 -> re_match q line = None)
    /\ re_match p line = Some m.
Proof.
  induction ps as [|p ps IH]; simpl; [discriminate|].
  destruct (re_match p line) as [m'|] eqn:Hp; intros H.
  - inversion H; subst. exists [], p, ps. simpl. repeat split; auto.
    intros q [].
  - destruct (IH H) as (l1 & p' & l2 & -> & Hnone & Hm).
    exists (p :: l1), p', l2. repeat split; auto.
    intros q [<-|Hq]; auto.
Qed.

Lemma first_match_earliest l1 p l2 line g :
  (forall q, In q l1 -> re_match q line = None) ->
  re_match p line = Some g ->
  first_match (l1 ++ p :: l2) line = Some g.
Proof.
  induction l1 as [|q l1 IH]; simpl; intros Hnone Hp.
  - rewrite Hp. reflexivity.
  - rewrite (Hnone q (or_introl eq_refl)). apply IH; auto.
Qed.


Lemma standard_body_ok : body_ok standard_body.
Proof.
  intros n l v. unfold standard_body.
  destruct (first_match standard_patterns l); [|discriminate].
  intros H; inversion H; subst; simpl; auto.
Qed.

Lemma complex_body_ok : body_ok complex_body.
Proof.
  intros n l v. unfold complex_body.
  destruct (first_match complex_patterns l).
  - intros H; inversion H; subst; simpl; auto.
  - destruct (_ && _); [|discriminate].
    intros H; inversion H; subst; simpl; auto.
Qed.

Lemma for_lines_in body start lines r :
  body_ok body ->
  In r (for_lines body start lines) ->
  exists i, (i < length lines)%nat
            /\ line_number r = start + Z.of_nat i
            /\ non_blank (nth i lines []) = true
            /\ content r = strip (nth i lines [])
            /\ body (line_number r) (content r) = Some r.
Proof.
  intros Hb. revert start.
  induction lines as [|raw rest IH]; intros start Hin; simpl in Hin; [contradiction|].
  assert (Hrest : In r (for_lines body (start + 1) rest) ->
                  exists i, (i < length (raw :: rest))%nat
                            /\ line_number r = start + Z.of_nat i
                            /\ non_blank (nth i (raw :: rest) []) = true
                            /\ content r = strip (nth i (raw :: rest) [])
                            /\ body (line_number r) (content r) = Some r).
  { intros H. destruct (IH _ H) as (i & Hi & Hn & Hnb & Hc & Hbody).
    exists (S i). simpl. repeat split; auto; lia. }
  destruct (strip raw) as [|c l] eqn:Hs; [auto|].
  destruct (body start (c :: l)) as [v|] eqn:Hv; [|auto].
  destruct Hin as [<-|Hin]; [|auto].
  destruct (Hb _ _ _ Hv) as [Hn Hc].
  exists 0%nat. simpl. unfold non_blank. rewrite Hs, Hn, Hc.
  repeat split; auto; lia.
Qed.

Lemma for_lines_nodup body start lines :
  body_ok body -> NoDup (map line_number (for_lines body start lines)).
Proof.
  intros Hb. revert start.
  induction lines as [|raw rest IH]; intros start; simpl; [constructor|].
  destruct (strip raw) as [|c l]; [apply IH|].
  destruct (body start (c :: l)) as [v|] eqn:Hv; [|apply IH].
  simpl. constructor; [|apply IH].
  intros Hin. apply in_map_iff in Hin. destruct Hin as (r & Heq & Hin).
  destruct (for_lines_in _ _ _ _ Hb Hin) as (i & _ & Hn & _).
  destruct (Hb _ _ _ Hv) as [Hv' _]. lia.
Qed.

Lemma for_lines_count body start lines :
  (length (for_lines body start lines) <= length (filter non_blank lines))%nat.
Proof.
  revert start. induction lines as [|raw rest IH]; intros start; simpl; [lia|].
  unfold non_blank at 1.
  destruct (strip raw) as [|c l]; [apply IH|].
  destruct (body start (c :: l)); simpl; [apply le_n_S|apply Nat.le_le_succ_r]; apply IH.
Qed.

Lemma for_lines_coverage body txt :
  body_ok body -> line_coverage txt (for_lines body 1 (split_lines txt)).
Proof.
  intros Hb. unfold line_coverage. split; [|split].
  - apply for_lines_nodup; assumption.
  - intros r Hin.
    destruct (for_lines_in _ _ _ _ Hb Hin) as (i & Hi & Hn & Hnb & Hc & _).
    replace (Z.to_nat (line_number r - 1)) with i by lia.
    repeat split; auto; lia.
  - apply for_lines_count.
Qed.

(** C7.  Line coverage: whichever strategy the lookup table selects, and
    for each of the two extraction methods, the line numbers of the
    records are pairwise distinct, each is the 1-based index of a
    non-blank line of the text split at newlines, the content of the
    record is that line stripped, and there are at most as many records
    as non-blank lines. *)
Theorem segmenter_line_coverage :
  forall (t : lookup_table) (txt scripture_name : text),
    line_coverage txt (_extract_standard_verses txt)
    /\ line_coverage txt (_extract_complex_verses txt)
    /\ line_coverage txt (extract_verses t txt scripture_name).
Proof.
  intros t txt name.
  assert (Hs : line_coverage txt (_extract_standard_verses txt))
    by (apply for_lines_coverage, standard_body_ok).
  assert (Hc : line_coverage txt (_extract_complex_verses txt))
    by (apply for_lines_coverage, complex_body_ok).
  split; [exact Hs | split; [exact Hc |]].
  unfold extract_verses.
  destruct (list_eq_dec Z.eq_dec _ _); assumption.
Qed.

(** C8.  Pattern priority: under either strategy, when the earliest
    pattern of the ordered list that matches a line is [p], with match
    [g], the record emitted for the line is a verse with marker [g],
    whatever later patterns of the list would match; under the complex
    strategy the line "1.2.3 text" is matched by the three-component
    pattern and by the two-component one, which would give "1.2", and
    the marker is "1.2.3". *)
Theorem pattern_priority :
  (forall (complex : bool) (line_num : Z) (line : text) l1 p l2 g,
      (if complex then complex_patterns else standard_patterns) = l1 ++ p :: l2 ->
      (forall q, In q l1 -> re_match q line = None) ->
      re_match p line = Some g ->
      (if complex then complex_body else standard_body) line_num line
      = Some (verse_of line_num line g))
  /\ re_match (nth 0 complex_patterns Eps) (str "1.2.3 text") = Some (str "1.2.3")
  /\ re_match (nth 1 complex_patterns Eps) (str "1.2.3 text") = Some (str "1.2")
  /\ _extract_complex_verses (str "1.2.3 text")
     = [verse_of 1 (str "1.2.3 text") (str "1.2.3")].
Proof.
  split; [|repeat split; vm_compute; reflexivity].
  intros complex n line l1 p l2 g Hps Hnone Hp.
  pose proof (first_match_earliest l1 p l2 line g Hnone Hp) as Hfm.
  rewrite <- Hps in Hfm.
  destruct complex; [unfold complex_body | unfold standard_body];
    rewrite Hfm; reflexivity.
Qed.

(** At the line "1.2 text" the first pattern fails and the second, third
    and fourth match: the second decides. *)
Lemma pattern_priority_witness :
  re_match (nth 2 complex_patterns Eps) (str "1.2 text") = Some (str "1.")
  /\ complex_body 7 (str "1.2 text") = Some (verse_of 7 (str "1.2 text") (str "1.2")).
Proof.
  split; [vm_compute; reflexivity|].
  apply (proj1 pattern_priority true 7 (str "1.2 text")
               [nth 0 complex_patterns Eps] (nth 1 complex_patterns Eps)
               (skipn 2 complex_patterns) (str "1.2")).
  - reflexivity.
  - intros q [<-|[]]. vm_compute. reflexivity.
  - vm_compute. reflexivity.
Defined.

(** *** The colon patterns of the standard list *)

Lemma digit_run_matches r line m :
  re_match (Cat Bos (Cat (Plus is_digit) r)) line = Some m ->
  re_match (Cat Bos (Plus is_digit)) line <> None.
Proof.
  unfold re_match. simpl.
  destruct line as [|c s]; [discriminate|].
  destruct (is_digit c); [|discriminate].
  intros _. destruct (rep_accept_total is_digit (Some c) s) as [m' ->].
  discriminate.
Qed.

Lemma digit_or_dot_digit c : is_digit c = true -> digit_or_dot c = true.
Proof. unfold digit_or_dot. intros ->. reflexivity. Qed.

Lemma digit_or_dot_dot c : lit dot c = true -> digit_or_dot c = true.
Proof. unfold digit_or_dot. intros ->. apply orb_true_r. Qed.

Create HintDb classes.
#[local] Hint Resolve digit_or_dot_digit digit_or_dot_dot : classes.

Ltac classes := simpl; repeat split; auto with classes.

Lemma first_match_standard_chars line m :
  first_match standard_patterns line = Some m -> all_in digit_or_dot m.
Proof.
  unfold standard_patterns. cbn [first_match seq].
  repeat match goal with
         | |- context [match re_match ?p line with _ => _ end] =>
             let E := fresh "E" in destruct (re_match p line) eqn:E
         end; intros H; try discriminate; inversion H; subst;
    try solve [ match goal with
                | E : re_match _ line = Some m |- _ =>
                    apply (re_match_prefix digit_or_dot) in E; [apply E | classes]
                end ].
  - exfalso. eapply digit_run_matches; [exact E3 | exact E2].
  - exfalso. eapply digit_run_matches; [exact E4 | exact E2].
Qed.

Lemma for_lines_standard txt r :
  In r (_extract_standard_verses txt) ->
  exists m, first_match standard_patterns (content r) = Some m
            /\ r = verse_of (line_number r) (content r) m.
Proof.
  intros Hin. unfold _extract_standard_verses in Hin.
  destruct (for_lines_in _ _ _ _ standard_body_ok Hin) as (i & _ & _ & _ & _ & Hb).
  unfold standard_body in Hb.
  destruct (first_match standard_patterns (content r)) as [m|]; [|discriminate].
  exists m. split; [reflexivity|]. inversion Hb as [Hr]. rewrite Hr. rewrite <- Hr at 1.
  reflexivity.
Qed.

(** C10.  In the ordered list of the standard strategy the colon
    patterns stand after the bare-number pattern and are never reached: a
    line either of them matches is matched by the bare-number pattern;
    no record of the standard segmenter has a colon in its marker, and
    every record is a verse; the line "1:2 text" gives the marker "1". *)
Theorem standard_colon_patterns_unreachable :
  (forall line,
      re_match (nth 4 standard_patterns Eps) line <> None
      \/ re_match (nth 5 standard_patterns Eps) line <> None ->
      re_match (nth 3 standard_patterns Eps) line <> None)
  /\ (forall txt r,
         In r (_extract_standard_verses txt) ->
         ~ In colon (marker r) /\ type r = verse)
  /\ _extract_standard_verses (str "1:2 text")
     = [verse_of 1 (str "1:2 text") (str "1")].
Proof.
  split; [|split; [|vm_compute; reflexivity]].
  - intros line [H|H]; cbn [nth standard_patterns seq] in *;
      destruct (re_match _ line) as [m|] eqn:E in H; try congruence;
      eapply digit_run_matches; exact E.
  - intros txt r Hin.
    destruct (for_lines_standard _ _ Hin) as (m & Hm & Hr).
    rewrite Hr. simpl. split; [|reflexivity].
    intros Hc. apply first_match_standard_chars in Hm.
    unfold all_in in Hm. rewrite Forall_forall in Hm.
    specialize (Hm _ Hc). vm_compute in Hm. discriminate.
Qed.

(** The text "1:2 text" followed by the line "3:4:5". *)
Lemma standard_colon_patterns_witness :
  Forall (fun r => ~ In colon (marker r) /\ type r = verse)
         (_extract_standard_verses (str "1:2 text" ++ [10] ++ str "3:4:5"))
  /\ map marker (_extract_standard_verses (str "1:2 text" ++ [10] ++ str "3:4:5"))
     = [str "1"; str "3"].
Proof.
  split; [|vm_compute; reflexivity].
  apply Forall_forall. intros r Hin.
  exact (proj1 (proj2 standard_colon_patterns_unreachable) _ r Hin).
Defined.

(** *** The fallback of the complex strategy *)

Lemma rep_all_to_end p prev s :
  all_in p s -> rep p (run Eos accept) prev s = Some s.
Proof.
  revert prev. induction s as [|c s IH]; intros prev H; simpl; [reflexivity|].
  inversion H; subst. rewrite H2, (IH _ H3). reflexivity.
Qed.

(** The fallback pattern matches the non-empty lines made of characters
    of its class. *)
Lemma irregular_pattern_matches line :
  is_some (re_match irregular_pattern line) = true
  <-> line <> [] /\ all_in irregular_class line.
Proof.
  change (re_match irregular_pattern line)
    with (run (Plus irregular_class) (run Eos accept) None line).
  split.
  - destruct (run (Plus irregular_class) (run Eos accept) None line) as [m|] eqn:E;
      [intros _|simpl; discriminate].
    split; [intros ->; simpl in E; discriminate|].
    apply (run_splits irregular_class) in E; [|simpl; auto].
    destruct E as (m1 & m2 & s' & prev' & -> & -> & Hall & Hk).
    apply Forall_app. split; [assumption|].
    simpl in Hk. destruct s' as [|c [|c' s']]; try discriminate; [constructor|].
    destruct (c =? 10) eqn:Hc; [|discriminate].
    apply Z.eqb_eq in Hc. subst. repeat constructor.
  - intros [Hne Hall]. destruct line as [|c s]; [congruence|].
    inversion Hall; subst. simpl. rewrite H1.
    rewrite rep_all_to_end by assumption. reflexivity.
Qed.

(** What the [else] branch does with a line no pattern matches. *)
Lemma complex_fallback line_num line :
  first_match complex_patterns line = None ->
  (((length line < 20)%nat /\ line <> [] /\ all_in irregular_class line) ->
   complex_body line_num line = Some (irregular_of line_num line))
  /\ (~ ((length line < 20)%nat /\ line <> [] /\ all_in irregular_class line) ->
      complex_body line_num line = None).
Proof.
  intros Hfm. unfold complex_body. rewrite Hfm.
  pose proof (irregular_pattern_matches line) as Hm.
  destruct (Z.ltb_spec (Z.of_nat (length line)) 20) as [Hlt|Hge];
    destruct (is_some (re_match irregular_pattern line)); simpl; split;
    try reflexivity; intros H.
  - exfalso. apply H. split; [lia|]. apply Hm. reflexivity.
  - destruct H as (_ & H). apply Hm in H. discriminate.
  - lia.
  - lia.
Qed.

(** C1.  The class of the fallback pattern is not the one the claim
    names: between the colon and the hyphen the source writes no escape,
    so the class holds every character from the colon to U+0900, the
    ASCII letters among them, and of the Devanagari block only U+0900,
    U+097F and the digits.  The short line "abc", which no pattern
    matches, is recorded as irregular; the short line of the two
    Devanagari letters U+0915 U+0916 is dropped. *)
Theorem irregular_fallback_on_letters :
  first_match complex_patterns (str "abc") = None
  /\ all_in irregular_class (str "abc")
  /\ _extract_complex_verses (str "abc") = [irregular_of 1 (str "abc")]
  /\ first_match complex_patterns [0x915; 0x916] = None
  /\ irregular_class 0x915 = false
  /\ _extract_complex_verses [0x915; 0x916] = [].
Proof.
  repeat split; try (vm_compute; reflexivity).
  repeat constructor.
Qed.

(** ** Searching *)

Lemma prev_at_cons prev c s k :
  prev_at (Some c) s k = prev_at prev (c :: s) (S k).
Proof. destruct k; reflexivity. Qed.

Lemma search_from_some r :
  forall s prev pos p m,
    search_from r prev pos s = Some (p, m) ->
    exists k, p = (pos + k)%nat /\ (k <= length s)%nat
              /\ run r accept (prev_at prev s k) (skipn k s) = Some m
              /\ forall j, (j < k)%nat ->
                           run r accept (prev_at prev s j) (skipn j s) = None.
Proof.
  induction s as [|c s IH]; intros prev pos p m H; simpl in H.
  - destruct (run r accept prev []) as [m'|] eqn:E; [|discriminate].
    inversion H; subst. exists 0%nat. simpl. repeat split; auto; lia.
  - destruct (run r accept prev (c :: s)) as [m'|] eqn:E.
    + inversion H; subst. exists 0%nat. simpl. repeat split; auto; lia.
    + destruct (IH _ _ _ _ H) as (k & -> & Hk & Hm & Hlt).
      exists (S k). rewrite <- prev_at_cons. simpl skipn.
      repeat split; auto; try (simpl; lia).
      intros [|j] Hj; [exact E|].
      rewrite <- prev_at_cons. simpl skipn. apply Hlt. lia.
Qed.

Lemma search_from_none r :
  forall s prev pos,
    search_from r prev pos s = None ->
    forall k, (k <= length s)%nat ->
              run r accept (prev_at prev s k) (skipn k s) = None.
Proof.
  induction s as [|c s IH]; intros prev pos H k Hk; simpl in H.
  - destruct (run r accept prev []) eqn:E; [discriminate|].
    simpl in Hk. replace k with 0%nat by lia. exact E.
  - destruct (run r accept prev (c :: s)) eqn:E; [discriminate|].
    destruct k as [|k]; [exact E|].
    rewrite <- prev_at_cons. simpl skipn. eapply IH; [eassumption|].
    simpl in Hk. lia.
Qed.

Lemma search_from_complete r :
  forall s prev pos k m,
    (k <= length s)%nat ->
    run r accept (prev_at prev s k) (skipn k s) = Some m ->
    (forall j, (j < k)%nat ->
               run r accept (prev_at prev s j) (skipn j s) = None) ->
    search_from r prev pos s = Some ((pos + k)%nat, m).
Proof.
  induction s as [|c s IH]; intros prev pos k m Hk Hm Hlt.
  - simpl in Hk. assert (k = 0%nat) by lia. subst. simpl in *.
    rewrite Hm. rewrite Nat.add_0_r. reflexivity.
  - destruct k as [|k].
    + simpl in *. rewrite Hm. rewrite Nat.add_0_r. reflexivity.
    + simpl. pose proof (Hlt 0%nat ltac:(lia)) as H0. simpl in H0. rewrite H0.
      rewrite <- prev_at_cons in Hm. simpl skipn in Hm.
      rewrite (IH (Some c) (S pos) k m); [f_equal; f_equal; lia | simpl in Hk; lia | exact Hm |].
      intros j Hj. specialize (Hlt (S j) ltac:(lia)).
      rewrite <- prev_at_cons in Hlt. exact Hlt.
Qed.

(** [re.search] finds the leftmost position at which the pattern
    matches. *)
Lemma re_search_some r s i m :
  re_search r s = Some (i, m) -> first_match_at r s i /\ match_at r s i = Some m.
Proof.
  intros H. apply search_from_some in H.
  destruct H as (k & -> & Hk & Hm & Hlt). simpl.
  unfold first_match_at, matches_at, match_at, char_before.
  repeat split; auto.
  - rewrite Hm. discriminate.
  - intros j Hj [_ Hn]. apply Hn, Hlt, Hj.
Qed.

Lemma re_search_first r s i :
  first_match_at r s i -> exists m, re_search r s = Some (i, m).
Proof.
  intros [[Hi Hm] Hlt]. unfold match_at, char_before in Hm.
  destruct (run r accept (prev_at None s i) (skipn i s)) as [m|] eqn:E; [|congruence].
  exists m. unfold re_search.
  rewrite (search_from_complete r s None 0 i m); auto.
  intros j Hj.
  destruct (run r accept (prev_at None s j) (skipn j s)) eqn:Ej; [|reflexivity].
  exfalso. apply (Hlt j Hj). split; [lia|].
  unfold match_at, char_before. rewrite Ej. discriminate.
Qed.

Lemma re_search_none r s :
  re_search r s = None <-> forall j, ~ matches_at r s j.
Proof.
  split.
  - intros H j [Hj Hm]. apply Hm.
    apply (search_from_none r s None 0 H j Hj).
  - intros H. destruct (re_search r s) as [[i m]|] eqn:E; [|reflexivity].
    apply re_search_some in E. destruct E as [[Hm _] _].
    exfalso. exact (H i Hm).
Qed.

(** Matching in the tail [s[start:]] is matching in [s] from [start] on,
    for a pattern that does not look back. *)
Lemma match_at_skipn r s start j :
  prev_free r ->
  match_at r (skipn start s) j = match_at r s (start + j).
Proof.
  intros Hfree. unfold match_at, char_before.
  rewrite skipn_skipn, (Nat.add_comm j start).
  destruct j as [|j].
  - rewrite Nat.add_0_r. simpl. apply Hfree.
  - rewrite Nat.add_succ_r. simpl. rewrite nth_error_skipn. reflexivity.
Qed.

Lemma matches_at_skipn r s start j :
  prev_free r -> (start <= length s)%nat ->
  matches_at r (skipn start s) j <-> matches_at r s (start + j).
Proof.
  intros Hfree Hs. unfold matches_at.
  rewrite match_at_skipn by assumption. rewrite length_skipn.
  split; intros [H1 H2]; split; auto; lia.
Qed.

(** The cut both editions make once the start is found. *)
Lemma slice_tail start e (s : text) :
  slice start (start + e) s = firstn e (skipn start s).
Proof.
  unfold slice. f_equal. lia.
Qed.

Lemma cut_at_next r s start e :
  prev_free r -> (start <= e)%nat -> (start <= length s)%nat ->
  matches_at r s e ->
  (forall j, (start <= j < e)%nat -> ~ matches_at r s j) ->
  exists m, re_search r (skipn start s) = Some ((e - start)%nat, m).
Proof.
  intros Hfree Hse Hs Hm Hlt. apply re_search_first. split.
  - apply matches_at_skipn; auto. replace (start + (e - start))%nat with e by lia.
    assumption.
  - intros j Hj Hmj. apply matches_at_skipn in Hmj; auto.
    apply (Hlt (start + j)%nat); [lia | assumption].
Qed.

Lemma cut_at_end r s start :
  prev_free r -> (start <= length s)%nat ->
  (forall e, (start <= e)%nat -> ~ matches_at r s e) ->
  re_search r (skipn start s) = None.
Proof.
  intros Hfree Hs Hnone. apply re_search_none. intros j Hj.
  apply matches_at_skipn in Hj; auto. apply (Hnone (start + j)%nat); [lia | assumption].
Qed.

(** ** The patterns of the isolator *)

Lemma cat_chr_prev_free p r : prev_free (Cat (Chr p) r).
Proof. intros k prev prev' s. simpl. reflexivity. Qed.

Lemma cat_chr_needs_char p r : needs_char (Cat (Chr p) r).
Proof. intros k prev. reflexivity. Qed.

Lemma cat_prev_free r1 r2 : prev_free r1 -> prev_free (Cat r1 r2).
Proof. intros H k prev prev' s. simpl. apply H. Qed.

Lemma cat_needs_char r1 r2 : needs_char r1 -> needs_char (Cat r1 r2).
Proof. intros H k prev. simpl. apply H. Qed.

Lemma chapter_pattern_prev_free w n : prev_free (chapter_pattern w n).
Proof. apply cat_prev_free, cat_chr_prev_free. Qed.

Lemma chapter_pattern_needs_char w n : needs_char (chapter_pattern w n).
Proof. apply cat_needs_char, cat_chr_needs_char. Qed.

Lemma matches_at_nonempty r s i :
  needs_char r -> matches_at r s i -> s <> [].
Proof.
  intros Hn [Hi Hm] ->. apply Hm. simpl in Hi.
  assert (i = 0%nat) by lia. subst. unfold match_at. simpl. apply Hn.
Qed.

(** ** isolate_chapter *)

Lemma isolation_step a b s start m :
  re_search a s = Some (start, m) ->
  match re_search b (skipn start s) with
  | Some (e, _) => Some (slice start (start + e) s)
  | None => Some (skipn start s)
  end = Some (cut_tail b (skipn start s)).
Proof.
  intros _. unfold cut_tail.
  destruct (re_search b (skipn start s)) as [[e m']|]; [|reflexivity].
  rewrite slice_tail. reflexivity.
Qed.

Lemma isolate_from_start w s N start :
  first_match_at (chapter_pattern w N) s start ->
  isolate_chapter w s N = Some (cut_tail (chapter_pattern w (N + 1)) (skipn start s)).
Proof.
  intros Hfirst.
  pose proof (matches_at_nonempty _ _ _ (chapter_pattern_needs_char w N) (proj1 Hfirst)) as Hne.
  destruct (re_search_first _ _ _ Hfirst) as [m Hm].
  unfold isolate_chapter. destruct s as [|c s]; [congruence|].
  rewrite Hm. eapply isolation_step; eassumption.
Qed.

Lemma try_patterns_selects ps s pr start :
  ocr_selects ps s pr start ->
  try_patterns ps s = Some (cut_tail (snd pr) (skipn start s)).
Proof.
  intros (l1 & l2 & -> & Hnone & Hfirst).
  induction l1 as [|[a b] l1 IH]; simpl.
  - destruct pr as [a b]. simpl in *.
    destruct (re_search_first _ _ _ Hfirst) as [m Hm]. rewrite Hm.
    eapply isolation_step; eassumption.
  - assert (Ha : re_search a s = None).
    { apply re_search_none. apply (Hnone (a, b)). left; reflexivity. }
    rewrite Ha. apply IH. intros q Hq. apply Hnone. right; assumption.
Qed.

Lemma cut_tail_prefix b tail : exists rest, tail = cut_tail b tail ++ rest.
Proof.
  unfold cut_tail. destruct (re_search b tail) as [[e m]|].
  - exists (skipn e tail). symmetry. apply firstn_skipn.
  - exists []. symmetry. apply app_nil_r.
Qed.

Lemma skipn_app_exact (pre body : text) : skipn (length pre) (pre ++ body) = body.
Proof.
  rewrite skipn_app, skipn_all, Nat.sub_diag. reflexivity.
Qed.

Lemma matches_at_app r pre body j :
  prev_free r ->
  matches_at r body j <-> matches_at r (pre ++ body) (length pre + j).
Proof.
  intros Hfree.
  rewrite <- (matches_at_skipn r (pre ++ body) (length pre) j Hfree).
  - rewrite skipn_app_exact. reflexivity.
  - rewrite length_app. lia.
Qed.

Lemma first_match_at_app r pre body :
  prev_free r ->
  first_match_at r (pre ++ body) (length pre) -> first_match_at r body 0.
Proof.
  intros Hfree [Hm _]. split; [|intros j Hj; lia].
  apply (matches_at_app r pre body 0 Hfree). rewrite Nat.add_0_r. assumption.
Qed.

Lemma ocr_patterns_look w N q :
  In q (ocr_patterns w N) -> prev_free (fst q) /\ needs_char (fst q).
Proof.
  unfold ocr_patterns. intros H. simpl in H.
  repeat (destruct H as [<-|H]; [split; [apply cat_prev_free, cat_chr_prev_free
                                        | apply cat_needs_char, cat_chr_needs_char]|]).
  contradiction.
Qed.

Lemma ocr_selects_app w N pre body pr :
  ocr_selects (ocr_patterns w N) (pre ++ body) pr (length pre) ->
  ocr_selects (ocr_patterns w N) body pr 0.
Proof.
  intros (l1 & l2 & Hps & Hnone & Hfirst).
  exists l1, l2. split; [assumption|]. split.
  - intros q Hq j Hj.
    assert (Hin : In q (ocr_patterns w N)) by (rewrite Hps; apply in_or_app; auto).
    apply (matches_at_app (fst q) pre body j) in Hj;
      [| apply (ocr_patterns_look w N q Hin)].
    exact (Hnone q Hq _ Hj).
  - apply (first_match_at_app (fst pr) pre body); [|assumption].
    apply (ocr_patterns_look w N pr). rewrite Hps. apply in_or_app. right. left. reflexivity.
Qed.

Lemma ocr_from_start w s N pr start :
  ocr_selects (ocr_patterns w N) s pr start ->
  isolate_chapter_ocr w s N = Some (cut_tail (snd pr) (skipn start s)).
Proof.
  intros Hsel.
  assert (Hne : s <> []).
  { destruct Hsel as (l1 & l2 & Hps & _ & Hfirst).
    apply (matches_at_nonempty (fst pr) s start); [|apply Hfirst].
    apply (ocr_patterns_look w N pr). rewrite Hps. apply in_or_app. right. left. reflexivity. }
  unfold isolate_chapter_ocr. destruct s as [|c s]; [congruence|].
  apply try_patterns_selects. assumption.
Qed.

(** C3.  When the leftmost marker of chapter N stands at [start], the
    isolator returns the text from [start] to the first marker of
    chapter N+1 at or after [start], that marker excluded; when no marker
    of chapter N+1 stands at or after [start], it returns the text from
    [start] to the end.  (The positions are those of the document, each
    marker read in place.) *)
Theorem isolate_chapter_span :
  forall (is_word : codepoint -> bool) (full_text : text) (N : Z) (start : nat),
    0 < N ->
    first_match_at (chapter_pattern is_word N) full_text start ->
    (forall e,
        (start <= e)%nat ->
        matches_at (chapter_pattern is_word (N + 1)) full_text e ->
        (forall j, (start <= j < e)%nat ->
                   ~ matches_at (chapter_pattern is_word (N + 1)) full_text j) ->
        isolate_chapter is_word full_text N = Some (slice start e full_text))
    /\ ((forall e, (start <= e)%nat ->
                   ~ matches_at (chapter_pattern is_word (N + 1)) full_text e) ->
        isolate_chapter is_word full_text N = Some (skipn start full_text)).
Proof.
  intros w s N start _ Hfirst.
  rewrite (isolate_from_start w s N start Hfirst).
  assert (Hs : (start <= length s)%nat) by apply Hfirst.
  split.
  - intros e Hse He Hlt.
    destruct (cut_at_next _ s start e (chapter_pattern_prev_free w (N + 1)) Hse Hs He Hlt)
      as [m Hm].
    unfold cut_tail. rewrite Hm. reflexivity.
  - intros Hnone. unfold cut_tail.
    rewrite (cut_at_end _ s start (chapter_pattern_prev_free w (N + 1)) Hs Hnone).
    reflexivity.
Qed.

(** C4.  The text before the start of chapter N has no part in the
    result: with the start found at the end of [pre], isolating in
    [pre ++ body] gives what isolating in [body] alone gives, a prefix of
    [body], whatever [pre] holds, references to chapter N+1 included.
    This holds for the plain edition and for the OCR edition, where the
    start is the one of the pair of patterns the loop settles on. *)
Theorem isolation_ignores_text_before_start :
  forall (is_word : codepoint -> bool) (pre body : text) (N : Z),
    (first_match_at (chapter_pattern is_word N) (pre ++ body) (length pre) ->
     isolate_chapter is_word (pre ++ body) N = isolate_chapter is_word body N
     /\ exists r rest,
         isolate_chapter is_word (pre ++ body) N = Some r /\ body = r ++ rest)
    /\ (forall pr,
           ocr_selects (ocr_patterns is_word N) (pre ++ body) pr (length pre) ->
           isolate_chapter_ocr is_word (pre ++ body) N
           = isolate_chapter_ocr is_word body N
           /\ exists r rest,
               isolate_chapter_ocr is_word (pre ++ body) N = Some r
               /\ body = r ++ rest).
Proof.
  intros w pre body N. split.
  - intros Hfirst.
    rewrite (isolate_from_start w _ N _ Hfirst).
    rewrite (isolate_from_start w body N 0
               (first_match_at_app _ pre body (chapter_pattern_prev_free w N) Hfirst)).
    rewrite skipn_app_exact. simpl skipn. split; [reflexivity|].
    destruct (cut_tail_prefix (chapter_pattern w (N + 1)) body) as [rest Hrest].
    eauto.
  - intros pr Hsel.
    rewrite (ocr_from_start w _ N pr _ Hsel).
    rewrite (ocr_from_start w body N pr 0 (ocr_selects_app w N pre body pr Hsel)).
    rewrite skipn_app_exact. simpl skipn. split; [reflexivity|].
    destruct (cut_tail_prefix (snd pr) body) as [rest Hrest].
    eauto.
Qed.

(** C9.  When the start pattern of chapter N matches nowhere in the
    document, the plain isolator returns [None]; when none of the start
    patterns of the OCR edition matches anywhere, so does the OCR
    isolator.  Both are total: there is no input on which they raise. *)
Theorem isolate_chapter_not_found :
  forall (is_word : codepoint -> bool) (full_text : text) (N : Z),
    ((forall i, ~ matches_at (chapter_pattern is_word N) full_text i) ->
     isolate_chapter is_word full_text N = None)
    /\ ((forall pr, In pr (ocr_patterns is_word N) ->
                    forall i, ~ matches_at (fst pr) full_text i) ->
        isolate_chapter_ocr is_word full_text N = None).
Proof.
  intros w s N. split.
  - intros Hnone. unfold isolate_chapter. destruct s as [|c s]; [reflexivity|].
    apply re_search_none in Hnone. rewrite Hnone. reflexivity.
  - intros Hnone. unfold isolate_chapter_ocr. destruct s as [|c s]; [reflexivity|].
    revert Hnone. generalize (ocr_patterns w N) as ps.
    induction ps as [|[a b] ps IH]; intros Hnone; simpl; [reflexivity|].
    assert (Ha : re_search a (c :: s) = None).
    { apply re_search_none. apply (Hnone (a, b)). left; reflexivity. }
    rewrite Ha. apply IH. intros pr Hpr. apply Hnone. right; assumption.
Qed.

(** From the tail back to the document: what [re.search] finds in
    [s[start:]] is the first match of [s] at or after [start]. *)
Lemma tail_search_some r s start k m :
  prev_free r -> (start <= length s)%nat ->
  re_search r (skipn start s) = Some (k, m) ->
  matches_at r s (start + k)
  /\ forall j, (start <= j < start + k)%nat -> ~ matches_at r s j.
Proof.
  intros Hfree Hs H. apply re_search_some in H. destruct H as [[Hm Hlt] _].
  split.
  - apply matches_at_skipn; assumption.
  - intros j Hj Hmj. apply (Hlt (j - start)%nat); [lia|].
    apply matches_at_skipn; auto.
    replace (start + (j - start))%nat with j by lia. assumption.
Qed.

Lemma tail_search_none r s start :
  prev_free r -> (start <= length s)%nat ->
  re_search r (skipn start s) = None ->
  forall e, (start <= e)%nat -> ~ matches_at r s e.
Proof.
  intros Hfree Hs H e He Hm.
  apply (proj1 (re_search_none r (skipn start s)) H (e - start)%nat).
  apply matches_at_skipn; auto.
  replace (start + (e - start))%nat with e by lia. assumption.
Qed.

(** The document "intro CHAPTER 5 foo CHAPTER 6 bar": chapter 5 runs from
    position 6 to position 20, chapter 6 from position 20 to the end. *)
Lemma isolate_chapter_span_witness :
  isolate_chapter ascii_word (str "intro CHAPTER 5 foo CHAPTER 6 bar") 5
  = Some (str "CHAPTER 5 foo ")
  /\ isolate_chapter ascii_word (str "intro CHAPTER 5 foo CHAPTER 6 bar") 6
     = Some (str "CHAPTER 6 bar").
Proof.
  set (doc := str "intro CHAPTER 5 foo CHAPTER 6 bar").
  assert (H5 : first_match_at (chapter_pattern ascii_word 5) doc 6).
  { apply (proj1 (re_search_some (chapter_pattern ascii_word 5) doc 6 (str "CHAPTER 5") ltac:(vm_compute; reflexivity))). }
  assert (H6 : first_match_at (chapter_pattern ascii_word 6) doc 20).
  { apply (proj1 (re_search_some (chapter_pattern ascii_word 6) doc 20 (str "CHAPTER 6") ltac:(vm_compute; reflexivity))). }
  split.
  - destruct (tail_search_some (chapter_pattern ascii_word (5 + 1)) doc 6 14 (str "CHAPTER 6")
                (chapter_pattern_prev_free _ _) ltac:(vm_compute; lia)
                ltac:(vm_compute; reflexivity)) as [He Hlt].
    exact (proj1 (isolate_chapter_span ascii_word doc 5 6 ltac:(lia) H5) 20%nat
                 ltac:(lia) He Hlt).
  - exact (proj2 (isolate_chapter_span ascii_word doc 6 20 ltac:(lia) H6)
                 (tail_search_none (chapter_pattern ascii_word (6 + 1)) doc 20
                    (chapter_pattern_prev_free _ _) ltac:(vm_compute; lia)
                    ltac:(vm_compute; reflexivity))).
Defined.

(** A reference to chapter 6 stands before the start of chapter 5. *)
Lemma isolation_ignores_text_before_start_witness :
  isolate_chapter ascii_word (str "see CHAPTER 6. " ++ str "CHAPTER 5 foo CHAPTER 6 bar") 5
  = isolate_chapter ascii_word (str "CHAPTER 5 foo CHAPTER 6 bar") 5
  /\ isolate_chapter_ocr ascii_word (str "see Ch. 6; " ++ str "Ch.5 foo Ch 6 bar") 5
     = isolate_chapter_ocr ascii_word (str "Ch.5 foo Ch 6 bar") 5.
Proof.
  split.
  - apply (proj1 (isolation_ignores_text_before_start ascii_word
                    (str "see CHAPTER 6. ") (str "CHAPTER 5 foo CHAPTER 6 bar") 5)).
    apply (proj1 (re_search_some (chapter_pattern ascii_word 5)
                    (str "see CHAPTER 6. " ++ str "CHAPTER 5 foo CHAPTER 6 bar")
                    (length (str "see CHAPTER 6. ")) (str "CHAPTER 5")
                    ltac:(vm_compute; reflexivity))).
  - apply (proj2 (isolation_ignores_text_before_start ascii_word
                    (str "see Ch. 6; ") (str "Ch.5 foo Ch 6 bar") 5)
                 (nth 3 (ocr_patterns ascii_word 5) (Eps, Eps))).
    exists (firstn 3 (ocr_patterns ascii_word 5)), []. split; [reflexivity|]. split.
    + intros q Hq. apply re_search_none.
      destruct Hq as [<-|[<-|[<-|[]]]]; vm_compute; reflexivity.
    + apply (proj1 (re_search_some (fst (nth 3 (ocr_patterns ascii_word 5) (Eps, Eps)))
                      (str "see Ch. 6; " ++ str "Ch.5 foo Ch 6 bar")
                      (length (str "see Ch. 6; ")) (str "Ch.5")
                      ltac:(vm_compute; reflexivity))).
Defined.

(** A document without any chapter label. *)
Lemma isolate_chapter_not_found_witness :
  isolate_chapter ascii_word (str "no label in this text") 5 = None
  /\ isolate_chapter_ocr ascii_word (str "no label in this text") 5 = None.
Proof.
  split.
  - apply (proj1 (isolate_chapter_not_found ascii_word (str "no label in this text") 5)).
    apply re_search_none. vm_compute. reflexivity.
  - apply (proj2 (isolate_chapter_not_found ascii_word (str "no label in this text") 5)).
    intros pr Hpr. apply re_search_none.
    destruct Hpr as [<-|[<-|[<-|[<-|[]]]]]; vm_compute; reflexivity.
Defined.

(** ** clean_response_text *)

Lemma subseq_refl s : subseq s s.
Proof. induction s; [apply subseq_nil | apply subseq_keep; assumption]. Qed.

Lemma subseq_trans a b c : subseq a b -> subseq b c -> subseq a c.
Proof.
  intros Hab Hbc. revert a Hab.
  induction Hbc; intros a' Hab.
  - assumption.
  - apply subseq_skip. apply IHHbc. assumption.
  - inversion Hab; subst.
    + apply subseq_skip. apply IHHbc. assumption.
    + apply subseq_keep. apply IHHbc. assumption.
Qed.

Lemma subseq_app_r a b : subseq b (a ++ b).
Proof. induction a; simpl; [apply subseq_refl | apply subseq_skip; assumption]. Qed.

Lemma subseq_nil_l s : subseq [] s.
Proof. induction s; [apply subseq_nil | apply subseq_skip; assumption]. Qed.

Lemma subseq_app_l a b : subseq a (a ++ b).
Proof. induction a; simpl; [apply subseq_nil_l | apply subseq_keep; assumption]. Qed.

Lemma subseq_all_in q a b : subseq a b -> all_in q b -> all_in q a.
Proof.
  unfold all_in. induction 1; intros Hb.
  - constructor.
  - inversion Hb; subst. auto.
  - inversion Hb; subst. apply Forall_cons; auto.
Qed.

Lemma subseq_split a b :
  subseq a b ->
  forall x c y, a = x ++ c :: y ->
                exists x' y', b = x' ++ c :: y' /\ subseq x x' /\ subseq y y'.
Proof.
  induction 1 as [|a b c0 H IH|a b c0 H IH]; intros x c y Heq.
  - destruct x; discriminate.
  - destruct (IH _ _ _ Heq) as (x' & y' & -> & Hx & Hy).
    exists (c0 :: x'), y'. repeat split; auto. apply subseq_skip; assumption.
  - destruct x as [|c1 x]; simpl in Heq; inversion Heq; subst.
    + exists [], b. repeat split; auto. apply subseq_nil.
    + destruct (IH _ _ _ eq_refl) as (x' & y' & -> & Hx & Hy).
      exists (c1 :: x'), y'. repeat split; auto. apply subseq_keep; assumption.
Qed.

Lemma subseq_brace_pair a b : subseq a b -> brace_pair a -> brace_pair b.
Proof.
  intros Hab (x & y & z & Ha).
  destruct (subseq_split _ _ Hab _ _ _ Ha) as (x' & w & -> & _ & Hw).
  destruct (subseq_split _ _ Hw _ _ _ eq_refl) as (y' & z' & -> & _ & _).
  exists x', y', z'. reflexivity.
Qed.

Lemma brace_pairb_false s : brace_pairb s = false -> ~ brace_pair s.
Proof.
  intros Hb (x & y & z & ->). revert Hb.
  induction x as [|c x IH]; simpl.
  - rewrite existsb_app. simpl. rewrite orb_true_r. discriminate.
  - destruct (c =? lbrace); [|exact IH].
    rewrite existsb_app. simpl. rewrite existsb_app. simpl.
    rewrite !orb_true_r. discriminate.
Qed.

(** A substitution by the empty string leaves characters out. *)
Lemma sub_from_subseq r s : forall prev skip, subseq (sub_from r [] prev skip s) s.
Proof.
  induction s as [|c s IH]; intros prev skip; simpl; [apply subseq_nil|].
  destruct skip as [|n]; [|apply subseq_skip; apply IH].
  destruct (run r accept prev (c :: s)) as [[|c' m']|]; simpl;
    (apply subseq_keep; apply IH) || (apply subseq_skip; apply IH).
Qed.

Lemma re_sub_subseq r s : subseq (re_sub r [] s) s.
Proof. apply sub_from_subseq. Qed.

Lemma lstrip_suffix s : exists p, s = p ++ lstrip s.
Proof.
  induction s as [|c s [p IH]]; simpl; [exists []; reflexivity|].
  destruct (is_space c).
  - exists (c :: p). simpl. rewrite <- IH. reflexivity.
  - exists []. reflexivity.
Qed.

Lemma strip_subseq s : subseq (strip s) s.
Proof.
  unfold strip, rstrip.
  destruct (lstrip_suffix s) as [p Hp].
  destruct (lstrip_suffix (rev (lstrip s))) as [q Hq].
  apply subseq_trans with (lstrip s).
  - apply (f_equal (@rev _)) in Hq. rewrite rev_involutive, rev_app_distr in Hq.
    rewrite Hq at 2. apply subseq_app_l.
  - rewrite Hp at 2. apply subseq_app_r.
Qed.

Lemma remainder_subseq txt : subseq (remainder txt) txt.
Proof.
  unfold remainder.
  eapply subseq_trans; [apply re_sub_subseq|].
  eapply subseq_trans; [apply re_sub_subseq|].
  eapply subseq_trans; [apply strip_subseq|].
  apply re_sub_subseq.
Qed.

(** The first substitution removes the control characters, all of them
    and nothing else. *)
Lemma sub_control_filter s :
  forall prev, sub_from (Chr is_control) [] prev 0 s = filter not_control s.
Proof.
  induction s as [|c s IH]; intros prev; simpl; [reflexivity|].
  unfold not_control at 1. destruct (is_control c); simpl; rewrite IH; reflexivity.
Qed.

Lemma remainder_no_control txt : all_in not_control (remainder txt).
Proof.
  unfold remainder.
  eapply subseq_all_in; [apply re_sub_subseq|].
  eapply subseq_all_in; [apply re_sub_subseq|].
  eapply subseq_all_in; [apply strip_subseq|].
  unfold re_sub. rewrite sub_control_filter.
  unfold all_in. apply Forall_forall. intros c Hc.
  apply filter_In in Hc. apply Hc.
Qed.

(** [find] and [rfind] *)
Lemma find_from_spec c s :
  forall i j, find_from c i s = j -> 0 <= i -> j <> -1 ->
              exists x y, s = x ++ c :: y /\ ~ In c x /\ j = i + Z.of_nat (length x).
Proof.
  induction s as [|a s IH]; intros i j H Hi Hj; simpl in H; [congruence|].
  destruct (Z.eqb_spec a c) as [->|Hne].
  - exists [], s. simpl. repeat split; auto; lia.
  - destruct (IH _ _ H ltac:(lia) Hj) as (x & y & -> & Hx & ->).
    exists (a :: x), y. simpl. repeat split; auto; [|lia].
    intros [Ha|Hin]; auto.
Qed.

Lemma rfind_from_spec c s :
  forall i j, rfind_from c i s = j -> 0 <= i -> j <> -1 ->
              exists x y, s = x ++ c :: y /\ ~ In c y /\ j = i + Z.of_nat (length x).
Proof.
  induction s as [|a s IH]; intros i j H Hi Hj; simpl in H; [congruence|].
  destruct (Z.eqb_spec (rfind_from c (i + 1) s) (-1)) as [Hnone|Hsome].
  - destruct (Z.eqb_spec a c) as [->|Hne]; [|congruence].
    exists [], s. simpl. repeat split; [|lia].
    intros Hin. apply in_split in Hin. destruct Hin as (u & v & ->).
    clear IH H Hj. revert i Hi Hnone.
    induction u as [|b u IHu]; intros i Hi; simpl.
    + destruct (Z.eqb_spec (rfind_from c (i + 1 + 1) v) (-1)) as [E|E].
      * rewrite Z.eqb_refl. lia.
      * intros E'. congruence.
    + destruct (Z.eqb_spec (rfind_from c (i + 1 + 1) (u ++ c :: v)) (-1)) as [E|E].
      * exfalso. exact (IHu (i + 1) ltac:(lia) E).
      * intros E'. congruence.
  - destruct (IH _ _ H ltac:(lia) Hj) as (x & y & -> & Hy & ->).
    exists (a :: x), y. simpl. repeat split; auto. lia.
Qed.

Lemma firstn_app_exact (a b : text) : firstn (length a) (a ++ b) = a.
Proof. induction a; simpl; [reflexivity | f_equal; assumption]. Qed.

Lemma between_braces s x1 y1 x2 y2 :
  s = x1 ++ lbrace :: y1 -> s = x2 ++ rbrace :: y2 ->
  (length x1 < length x2)%nat ->
  exists w, s = x1 ++ (lbrace :: w ++ [rbrace]) ++ y2
            /\ slice (length x1) (length x2 + 1) s = lbrace :: w ++ [rbrace].
Proof.
  intros H1 H2 Hlt. rewrite H1 in H2.
  apply app_eq_app in H2. destruct H2 as [l [[Hx Hy]|[Hx Hy]]].
  - subst x1. rewrite length_app in Hlt. lia.
  - destruct l as [|c w].
    + rewrite app_nil_r in Hx. subst. lia.
    + simpl in Hy. inversion Hy; subst c y1.
      exists w. split.
      * rewrite H1. simpl. rewrite <- app_assoc. reflexivity.
      * rewrite H1. unfold slice. rewrite skipn_app, skipn_all, Nat.sub_diag.
        simpl skipn. rewrite Hx, length_app. simpl length.
        replace (length x1 + S (length w) + 1 - length x1)%nat
          with (length (lbrace :: w ++ [rbrace])) by (simpl; rewrite length_app; simpl; lia).
        change (lbrace :: w ++ rbrace :: y2) with ((lbrace :: w) ++ rbrace :: y2).
        replace ((lbrace :: w) ++ rbrace :: y2) with ((lbrace :: w ++ [rbrace]) ++ y2)
          by (simpl; rewrite <- app_assoc; reflexivity).
        rewrite app_nil_l. apply firstn_app_exact.
Qed.

(** What a non-empty result is. *)
Lemma clean_response_text_braces txt r :
  clean_response_text txt = r -> r <> [] ->
  exists pre w post,
    remainder txt = pre ++ r ++ post
    /\ r = lbrace :: w ++ [rbrace]
    /\ ~ In lbrace pre /\ ~ In rbrace post.
Proof.
  unfold clean_response_text. fold (remainder txt).
  set (s := remainder txt).
  destruct (Z.eqb_spec (find lbrace s) (-1)) as [|Hf]; simpl; [congruence|].
  destruct (Z.eqb_spec (rfind rbrace s) (-1)) as [|Hl]; simpl; [congruence|].
  destruct (Z.gtb_spec (rfind rbrace s) (find lbrace s)) as [Hgt|]; [|congruence].
  intros Hr _.
  destruct (find_from_spec lbrace s 0 _ eq_refl ltac:(lia) Hf) as (x1 & y1 & H1 & Hx1 & Hi).
  destruct (rfind_from_spec rbrace s 0 _ eq_refl ltac:(lia) Hl) as (x2 & y2 & H2 & Hy2 & Hj).
  fold (find lbrace s) in Hi. fold (rfind rbrace s) in Hj.
  destruct (between_braces s x1 y1 x2 y2 H1 H2 ltac:(lia)) as (w & Hs & Hslice).
  exists x1, w, y2.
  assert (Hr' : r = lbrace :: w ++ [rbrace]).
  { rewrite <- Hr, <- Hslice. f_equal; lia. }
  rewrite Hr'. repeat split; auto.
Qed.

(** [find] and [rfind] at the first and at the last occurrence. *)
Lemma find_from_first c x y :
  forall i, ~ In c x -> find_from c i (x ++ c :: y) = i + Z.of_nat (length x).
Proof.
  induction x as [|a x IH]; intros i Hx; simpl.
  - rewrite Z.eqb_refl. lia.
  - destruct (Z.eqb_spec a c) as [->|Hne]; [exfalso; apply Hx; left; reflexivity|].
    rewrite IH by (intros Hin; apply Hx; right; exact Hin). lia.
Qed.

Lemma rfind_from_absent c y : forall i, ~ In c y -> rfind_from c i y = -1.
Proof.
  induction y as [|a y IH]; intros i Hy; simpl; [reflexivity|].
  rewrite IH by (intros Hin; apply Hy; right; exact Hin). simpl.
  destruct (Z.eqb_spec a c) as [->|Hne]; [exfalso; apply Hy; left|]; reflexivity.
Qed.

Lemma rfind_from_final c x y :
  forall i, 0 <= i -> ~ In c y ->
            rfind_from c i (x ++ c :: y) = i + Z.of_nat (length x).
Proof.
  induction x as [|a x IH]; intros i Hi Hy; simpl.
  - rewrite rfind_from_absent by exact Hy. simpl. rewrite Z.eqb_refl. lia.
  - rewrite IH by (lia || exact Hy).
    destruct (Z.eqb_spec (i + 1 + Z.of_nat (length x)) (-1)) as [E|E]; lia.
Qed.

Lemma first_occurrence (c : codepoint) s :
  In c s -> exists x y, s = x ++ c :: y /\ ~ In c x.
Proof.
  induction s as [|a s IH]; intros Hin; [contradiction|].
  destruct (Z.eq_dec a c) as [->|Hne].
  - exists [], s. split; [reflexivity | intros []].
  - destruct Hin as [Ha|Hin]; [contradiction|].
    destruct (IH Hin) as (x & y & -> & Hx).
    exists (a :: x), y. split; [reflexivity|].
    intros [E|E]; [exact (Hne E) | exact (Hx E)].
Qed.

Lemma last_occurrence (c : codepoint) s :
  In c s -> exists x y, s = x ++ c :: y /\ ~ In c y.
Proof.
  induction s as [|a s IH]; intros Hin; [contradiction|].
  destruct (in_dec Z.eq_dec c s) as [Hs|Hs].
  - destruct (IH Hs) as (x & y & -> & Hy).
    exists (a :: x), y. split; [reflexivity | exact Hy].
  - destruct Hin as [->|Hin]; [|contradiction].
    exists [], s. split; [reflexivity | exact Hs].
Qed.

(** An opening brace with a closing one after it: the text from the first
    opening brace to the last closing brace is such a pair. *)
Lemma brace_pair_span s :
  brace_pair s ->
  exists pre w post,
    s = pre ++ lbrace :: w ++ rbrace :: post
    /\ ~ In lbrace pre /\ ~ In rbrace post.
Proof.
  intros (x & y & z & ->).
  destruct (first_occurrence lbrace (x ++ [lbrace])) as (pre & t & Ht & Hpre);
    [apply in_or_app; right; left; reflexivity|].
  destruct (last_occurrence rbrace (t ++ y ++ rbrace :: z)) as (w & post & Hw & Hpost);
    [apply in_or_app; right; apply in_or_app; right; left; reflexivity|].
  exists pre, w, post. split; [|split; assumption].
  rewrite <- Hw.
  change (x ++ lbrace :: y ++ rbrace :: z) with (x ++ [lbrace] ++ y ++ rbrace :: z).
  rewrite app_assoc, Ht, <- app_assoc. reflexivity.
Qed.

(** The result where the remainder holds such a pair. *)
Lemma clean_response_text_span txt pre w post :
  remainder txt = pre ++ lbrace :: w ++ rbrace :: post ->
  ~ In lbrace pre -> ~ In rbrace post ->
  clean_response_text txt = lbrace :: w ++ [rbrace].
Proof.
  intros Hrem Hpre Hpost.
  unfold clean_response_text. fold (remainder txt). rewrite Hrem.
  set (s := pre ++ lbrace :: w ++ rbrace :: post).
  assert (Hf : find lbrace s = Z.of_nat (length pre)).
  { unfold find, s. rewrite find_from_first by exact Hpre. lia. }
  assert (Hl : rfind rbrace s = Z.of_nat (length pre) + 1 + Z.of_nat (length w)).
  { unfold rfind, s.
    replace (pre ++ lbrace :: w ++ rbrace :: post)
      with ((pre ++ lbrace :: w) ++ rbrace :: post)
      by (rewrite <- app_assoc; reflexivity).
    rewrite rfind_from_final by (lia || exact Hpost).
    rewrite length_app. simpl length. lia. }
  cbv zeta. rewrite Hf, Hl.
  destruct (Z.eqb_spec (Z.of_nat (length pre)) (-1)) as [E|_]; [lia|].
  destruct (Z.eqb_spec (Z.of_nat (length pre) + 1 + Z.of_nat (length w)) (-1)) as [E|_]; [lia|].
  destruct (Z.gtb_spec (Z.of_nat (length pre) + 1 + Z.of_nat (length w))
                       (Z.of_nat (length pre))) as [_|E]; [|lia].
  simpl andb. cbv iota. unfold slice, s.
  rewrite Nat2Z.id.
  replace (Z.to_nat (Z.of_nat (length pre) + 1 + Z.of_nat (length w) + 1) - length pre)%nat
    with (length (lbrace :: w ++ [rbrace]))
    by (simpl length; rewrite length_app; simpl length; lia).
  rewrite skipn_app, skipn_all, Nat.sub_diag. simpl skipn. rewrite app_nil_l.
  replace (lbrace :: w ++ rbrace :: post) with ((lbrace :: w ++ [rbrace]) ++ post)
    by (simpl; rewrite <- app_assoc; reflexivity).
  apply firstn_app_exact.
Qed.



(** ** The manifest builders *)

Lemma insert_by_perm {A} (lt : A -> A -> bool) x l :
  Permutation (insert_by lt x l) (x :: l).
Proof.
  induction l as [|y l IH]; simpl; [reflexivity|].
  destruct (lt x y); [reflexivity|].
  eapply perm_trans; [apply perm_skip, IH | apply perm_swap].
Qed.

Lemma sort_by_perm {A} (lt : A -> A -> bool) l : Permutation (sort_by lt l) l.
Proof.
  unfold sort_by.
  assert (H : forall acc,
             Permutation (fold_left (fun acc x => insert_by lt x acc) l acc) (acc ++ l)).
  { induction l as [|x l IH]; intros acc; simpl.
    - rewrite app_nil_r. reflexivity.
    - rewrite IH. rewrite insert_by_perm. simpl. apply Permutation_middle. }
  apply (H []).
Qed.

Lemma sort_sections_perm l : Permutation (sort_sections l) l.
Proof.
  unfold sort_sections. destruct (map_all _ l); [apply sort_by_perm | reflexivity].
Qed.

Lemma sum_counts_perm l l' : Permutation l l' -> sum_counts l = sum_counts l'.
Proof.
  induction 1; simpl; lia.
Qed.

Lemma sum_counts_app l s : sum_counts (l ++ [s]) = sum_counts l + chapterCount s.
Proof.
  induction l as [|x l IH]; simpl; lia.
Qed.

Lemma fold_left_inv {A B} (I : A -> Prop) (f : A -> B -> A) l :
  (forall a x, I a -> I (f a x)) -> forall a, I a -> I (fold_left f l a).
Proof.
  intros Hstep. induction l as [|x l IH]; simpl; intros a Ha; auto.
Qed.

Lemma manifest_ok_sorted m :
  manifest_ok m ->
  manifest_ok {| scriptureId := scriptureId m;
                 scriptureName := scriptureName m;
                 totalChapters := totalChapters m;
                 lastUpdated := lastUpdated m;
                 sections := sort_sections (sections m) |}.
Proof.
  intros [[Htot Hcount] Htitles].
  pose proof (sort_sections_perm (sections m)) as Hperm.
  unfold manifest_ok, manifest_counts, titles_conventional. simpl.
  repeat split.
  - rewrite Htot. symmetry. apply sum_counts_perm. assumption.
  - eapply Permutation_Forall; [symmetry; eassumption | assumption].
  - eapply Permutation_Forall; [symmetry; eassumption | assumption].
Qed.

(** Closing a section: the chapters gathered, sorted, become one more
    section of the manifest. *)
Lemma manifest_ok_section m st sid sname senglish :
  manifest_ok m ->
  chapters_ok (totalChapters m) st ->
  manifest_ok
    {| scriptureId := scriptureId m;
       scriptureName := scriptureName m;
       totalChapters := snd st;
       lastUpdated := lastUpdated m;
       sections :=
         sections m ++
         [ {| sectionId := sid;
              sectionName := sname;
              sectionNameEnglish := senglish;
              chapterCount := Z.of_nat (length (sort_chapters (fst st)));
              chapters := sort_chapters (fst st) |} ] |}.
Proof.
  intros [[Htot Hcount] Htitles] [Hsnd Hconv].
  assert (Hperm : Permutation (sort_chapters (fst st)) (fst st)) by apply sort_by_perm.
  unfold manifest_ok, manifest_counts, titles_conventional. simpl.
  repeat split.
  - rewrite sum_counts_app. simpl. rewrite (Permutation_length Hperm). lia.
  - apply Forall_app. split; [assumption|]. repeat constructor.
  - apply Forall_app. split; [assumption|]. repeat constructor. simpl.
    eapply Permutation_Forall; [symmetry; eassumption | assumption].
Qed.

Lemma chapters_ok_start total0 : chapters_ok total0 ([], total0).
Proof. split; simpl; [lia | constructor]. Qed.

Lemma chapters_ok_append total0 st c :
  chapters_ok total0 st -> conventional_title c ->
  chapters_ok total0 (fst st ++ [c], snd st + 1).
Proof.
  intros [Hsnd Hconv] Hc. split; simpl.
  - rewrite length_app. simpl. lia.
  - apply Forall_app. split; [assumption | repeat constructor; assumption].
Qed.

Lemma caraka_chapter_step id fld total0 st pdf :
  chapters_ok total0 st -> chapters_ok total0 (Caraka.chapter_step id fld st pdf).
Proof.
  intros Hst. unfold Caraka.chapter_step.
  destruct (contains _ _); [|assumption].
  destruct (chapter_number_of _) as [n|]; [|assumption].
  apply chapters_ok_append; [assumption | reflexivity].
Qed.

Lemma caraka_section_step id m fld :
  manifest_ok m -> manifest_ok (Caraka.section_step id m fld).
Proof.
  intros Hm. unfold Caraka.section_step.
  destruct (Caraka.section_info (folder_name fld)) as [sid sname].
  destruct (glob_pdf fld) as [|pdf pdfs] eqn:Hglob; [assumption|].
  apply manifest_ok_section; [assumption|].
  apply (fold_left_inv (chapters_ok (totalChapters m))); [intros; apply caraka_chapter_step; assumption|].
  apply chapters_ok_start.
Qed.

Lemma caraka_manifest_ok root id name now m :
  Caraka.generate_chapter_manifest root id name now = Some m -> manifest_ok m.
Proof.
  unfold Caraka.generate_chapter_manifest.
  destruct root as [dirs|]; [|discriminate].
  destruct (sort_by _ dirs) as [|d ds]; [discriminate|].
  intros H. injection H as <-.
  lazymatch goal with
  | |- manifest_ok (Build_manifest _ _ _ _ (sort_sections (sections ?x))) =>
      apply (manifest_ok_sorted x)
  end.
  apply (fold_left_inv manifest_ok); [intros; apply caraka_section_step; assumption|].
  try apply caraka_section_step.
  repeat split; simpl; constructor.
Qed.

Lemma sushruta_chapter_step fld total0 st pdf :
  chapters_ok total0 st -> chapters_ok total0 (Sushruta.chapter_step fld st pdf).
Proof.
  intros Hst. unfold Sushruta.chapter_step.
  destruct (negb (contains _ _)); [assumption|].
  destruct (chapter_number_of _) as [n|]; [|assumption].
  apply chapters_ok_append; [assumption | reflexivity].
Qed.

Lemma sushruta_section_step m fld :
  manifest_ok m -> manifest_ok (Sushruta.section_step m fld).
Proof.
  intros Hm. unfold Sushruta.section_step.
  destruct (Sushruta.extract_section_info (folder_name fld)) as [[sid sname] senglish].
  apply manifest_ok_section; [assumption|].
  apply (fold_left_inv (chapters_ok (totalChapters m))); [intros; apply sushruta_chapter_step; assumption|].
  apply chapters_ok_start.
Qed.

Lemma sushruta_manifest_ok root now m :
  Sushruta.main root now = Some m -> manifest_ok m.
Proof.
  unfold Sushruta.main.
  destruct root as [dirs|]; [|discriminate].
  intros H. injection H as <-.
  lazymatch goal with
  | |- manifest_ok (Build_manifest _ _ _ _ (sort_sections (sections ?x))) =>
      apply (manifest_ok_sorted x)
  end.
  apply (fold_left_inv manifest_ok); [intros; apply sushruta_section_step; assumption|].
  try apply sushruta_section_step.
  repeat split; simpl; constructor.
Qed.

(** C5.  In the manifest either builder produces, for every directory
    tree, [totalChapters] is the sum of the [chapterCount] of the
    sections, and the [chapterCount] of each section is the length of its
    list of chapters. *)
Theorem manifest_counts_agree :
  (forall root scripture_id scripture_name now m,
      Caraka.generate_chapter_manifest root scripture_id scripture_name now = Some m ->
      manifest_counts m)
  /\ (forall root now m, Sushruta.main root now = Some m -> manifest_counts m).
Proof.
  split.
  - intros root id name now m H. apply (caraka_manifest_ok _ _ _ _ _ H).
  - intros root now m H. apply (sushruta_manifest_ok _ _ _ H).
Qed.

(** The tree of two sections: three chapters in all. *)
Lemma manifest_counts_agree_witness :
  exists m,
    Caraka.generate_chapter_manifest (Some sample_tree) (str "caraka_samhita")
      (str "Caraka") (str "2025-01-01T00:00:00") = Some m
    /\ totalChapters m = 3
    /\ map chapterCount (sections m) = [1; 2]
    /\ manifest_counts m.
Proof.
  eexists. split; [vm_compute; reflexivity|].
  split; [reflexivity|]. split; [reflexivity|].
  apply (proj1 manifest_counts_agree (Some sample_tree) (str "caraka_samhita")
           (str "Caraka") (str "2025-01-01T00:00:00")).
  vm_compute. reflexivity.
Defined.

(** *** The title of a chapter *)

Lemma text_eqb_eq a b : text_eqb a b = true <-> a = b.
Proof.
  unfold text_eqb. destruct (list_eq_dec Z.eq_dec a b); split; congruence.
Qed.

Lemma dict_get_cases key fields :
  forall default,
    ((forall v, ~ In (key, v) fields) ->
     Ramayana.dict_get key default fields = default)
    /\ ((exists v, In (key, v) fields) ->
        In (key, Ramayana.dict_get key default fields) fields).
Proof.
  induction fields as [|[k v] fields IH]; intros default; simpl.
  - split; [reflexivity | intros [v []]].
  - destruct (text_eqb k key) eqn:E.
    + apply text_eqb_eq in E. subst k. split.
      * intros Hno. exfalso. apply (Hno v). left; reflexivity.
      * intros _.
        destruct (in_dec (list_eq_dec Z.eq_dec) key (map fst fields)) as [Hin|Hout].
        -- right. apply (IH v). apply in_map_iff in Hin.
           destruct Hin as ([k' v'] & Hk & Hin). simpl in Hk. subst. eauto.
        -- left. f_equal. symmetry. apply (IH v).
           intros v' Hv'. apply Hout. apply in_map_iff. exists (key, v'). auto.
    + assert (Hne : k <> key).
      { intros ->. assert (text_eqb key key = true) by (apply text_eqb_eq; reflexivity).
        congruence. }
      split.
      * intros Hno. apply (IH default). intros v' Hv'. apply (Hno v'). right; assumption.
      * intros [v' [Hv'|Hv']]; [congruence|].
        right. apply (IH default). eauto.
Qed.

Lemma lookup_in_exists fld name f :
  lookup_in fld name = Some f -> exists_in fld name = true.
Proof.
  unfold lookup_in, exists_in. intros H.
  apply find_some in H. apply existsb_exists. exists f. assumption.
Qed.

Lemma exists_in_lookup fld name :
  exists_in fld name = false -> lookup_in fld name = None.
Proof.
  intros H. destruct (lookup_in fld name) as [f|] eqn:E; [|reflexivity].
  apply lookup_in_exists in E. congruence.
Qed.

(** C2, as the code has it.  The generic builder and the Sushruta builder
    give every chapter the title "Chapter n" of its number, whether or not
    the sibling metadata exists.  The Ramayana builder reads the title
    from the sibling: with no sibling, or a sibling that does not load as
    a JSON object, the title is the fallback derived from the file name;
    with a sibling that loads as an object, the title is the value under
    "chapterTitle" when the object has that key, and the fallback when it
    has not. *)
Theorem chapter_title_by_builder :
  (forall root scripture_id scripture_name now m,
      Caraka.generate_chapter_manifest root scripture_id scripture_name now = Some m ->
      titles_conventional m)
  /\ (forall root now m, Sushruta.main root now = Some m -> titles_conventional m)
  /\ (forall kanda_folder pdf_filename,
         let fallback := JStr (Ramayana.derive_fallback_title pdf_filename) in
         let json_name := with_suffix_json pdf_filename in
         (exists_in kanda_folder json_name = false ->
          Ramayana.chapter_title kanda_folder pdf_filename = (fallback, false))
         /\ (forall f,
                lookup_in kanda_folder json_name = Some f ->
                (forall fields, json_load f <> Some (JObj fields)) ->
                Ramayana.chapter_title kanda_folder pdf_filename = (fallback, false))
         /\ (forall f fields,
                lookup_in kanda_folder json_name = Some f ->
                json_load f = Some (JObj fields) ->
                exists t,
                  Ramayana.chapter_title kanda_folder pdf_filename = (t, true)
                  /\ ((exists v, In (str "chapterTitle", v) fields) ->
                      In (str "chapterTitle", t) fields)
                  /\ ((forall v, ~ In (str "chapterTitle", v) fields) ->
                      t = fallback))).
Proof.
  split; [|split].
  - intros root id name now m H. apply (caraka_manifest_ok _ _ _ _ _ H).
  - intros root now m H. apply (sushruta_manifest_ok _ _ _ H).
  - intros kanda pdf fallback json_name. unfold Ramayana.chapter_title.
    fold json_name. fold fallback. split; [|split].
    + intros H. rewrite H. reflexivity.
    + intros f Hf Hload. rewrite (lookup_in_exists _ _ _ Hf), Hf.
      destruct (json_load f) as [[| | | | |fields]|]; try reflexivity.
      exfalso. apply (Hload fields). reflexivity.
    + intros f fields Hf Hload. rewrite (lookup_in_exists _ _ _ Hf), Hf, Hload.
      eexists. split; [reflexivity|].
      destruct (dict_get_cases (str "chapterTitle") fields fallback) as [Habsent Hpresent].
      split; assumption.
Qed.

(** The section with one chapter and its metadata: the Ramayana rule reads
    "On Longevity"; the generic builder writes "Chapter 4". *)
Lemma chapter_title_by_builder_witness :
  (exists t, Ramayana.chapter_title titled_section (str "Charaka_Chapter_4.pdf") = (t, true)
             /\ In (str "chapterTitle", t)
                   [ (str "chapterTitle", JStr (str "On Longevity"));
                     (str "aiSummary", JStr (str "...")) ])
  /\ exists m,
      Caraka.generate_chapter_manifest (Some [titled_section]) (str "caraka_samhita")
        (str "Caraka") (str "2025-01-01T00:00:00") = Some m
      /\ titles_conventional m.
Proof.
  split.
  - destruct (proj2 (proj2 (proj2 (proj2 chapter_title_by_builder)
                                  titled_section (str "Charaka_Chapter_4.pdf")))
                    (nth 1 (entries titled_section) {| file_name := []; json_load := None |})
                    [ (str "chapterTitle", JStr (str "On Longevity"));
                      (str "aiSummary", JStr (str "...")) ]
                    ltac:(vm_compute; reflexivity) ltac:(reflexivity))
      as (t & Ht & Hin & _).
    exists t. split; [exact Ht|]. apply Hin. eexists. left. reflexivity.
  - eexists. split; [vm_compute; reflexivity|].
    apply (proj1 chapter_title_by_builder (Some [titled_section]) (str "caraka_samhita")
             (str "Caraka") (str "2025-01-01T00:00:00")).
    vm_compute. reflexivity.
Defined.

(** C2, as the claim states it, fails on the generic builder: the chapter
    file has its metadata beside it, with a title in it, and the entry
    carries the title by convention. *)
Lemma caraka_title_not_from_sibling :
  exists m s c,
    Caraka.generate_chapter_manifest (Some [titled_section]) (str "caraka_samhita")
      (str "Caraka") (str "2025-01-01T00:00:00") = Some m
    /\ sections m = [s] /\ chapters s = [c]
    /\ hasMetadata c = true
    /\ sibling_title titled_section (str "Charaka_Chapter_4.pdf")
       = Some (str "On Longevity")
    /\ title c = str "Chapter 4"
    /\ Some (title c) <> sibling_title titled_section (str "Charaka_Chapter_4.pdf").
Proof.
  do 3 eexists.
  split; [vm_compute; reflexivity|].
  split; [reflexivity|]. split; [reflexivity|].
  split; [reflexivity|]. split; [vm_compute; reflexivity|].
  split; [vm_compute; reflexivity|].
  vm_compute. discriminate.
Qed.

(** * Further properties *)

(** ** The segmenter: order, and the two strategies side by side *)

Lemma for_lines_sorted body start lines :
  body_ok body ->
  StronglySorted Z.lt (map line_number (for_lines body start lines)).
Proof.
  intros Hb. revert start.
  induction lines as [|raw rest IH]; intros start; simpl; [constructor|].
  destruct (strip raw) as [|c l]; [apply IH|].
  destruct (body start (c :: l)) as [v|] eqn:Hv; [|apply IH].
  simpl. constructor; [apply IH|].
  apply Forall_forall. intros n Hn.
  apply in_map_iff in Hn. destruct Hn as (r & <- & Hin).
  destruct (for_lines_in _ _ _ _ Hb Hin) as (i & _ & Hi & _).
  destruct (Hb _ _ _ Hv) as [Hv' _]. lia.
Qed.

(** X1.  The records come in the order of the lines: along the output of
    either extraction method, and of [extract_verses], the line numbers
    strictly increase. *)
Theorem segmenter_keeps_line_order :
  forall (t : lookup_table) (txt scripture_name : text),
    StronglySorted Z.lt (map line_number (_extract_standard_verses txt))
    /\ StronglySorted Z.lt (map line_number (_extract_complex_verses txt))
    /\ StronglySorted Z.lt (map line_number (extract_verses t txt scripture_name)).
Proof.
  intros t txt name.
  assert (Hs := for_lines_sorted standard_body 1 (split_lines txt) standard_body_ok).
  assert (Hc := for_lines_sorted complex_body 1 (split_lines txt) complex_body_ok).
  split; [exact Hs | split; [exact Hc |]].
  unfold extract_verses. destruct (list_eq_dec Z.eq_dec _ _); assumption.
Qed.

Lemma bare_number_matches c s :
  is_digit c = true -> re_match (Cat Bos (Plus is_digit)) (c :: s) <> None.
Proof.
  intros Hc. unfold re_match. simpl. rewrite Hc.
  destruct (rep_accept_total is_digit (Some c) s) as [m ->]. discriminate.
Qed.

Lemma digit_pattern_needs_digit r line :
  starts_with_digit line = false ->
  re_match (Cat Bos (Cat (Plus is_digit) r)) line = None
  /\ re_match (Cat Bos (Plus is_digit)) line = None.
Proof.
  unfold re_match. destruct line as [|c s]; simpl; [split; reflexivity|].
  intros ->. split; reflexivity.
Qed.

(** On a line that starts with a digit both lists are decided among their
    first four patterns, which they share. *)
Lemma first_match_digit_line line :
  starts_with_digit line = true ->
  first_match standard_patterns line = first_match complex_patterns line
  /\ first_match standard_patterns line <> None.
Proof.
  intros Hd. destruct line as [|c s]; [discriminate|]. simpl in Hd.
  pose proof (bare_number_matches c s Hd) as H4.
  unfold standard_patterns, complex_patterns. cbn [first_match seq].
  repeat match goal with
         | |- context [match re_match ?p (c :: s) with _ => _ end] =>
             let E := fresh "E" in destruct (re_match p (c :: s)) eqn:E
         end; try (split; [reflexivity | discriminate]); congruence.
Qed.

Lemma first_match_standard_no_digit line :
  starts_with_digit line = false -> first_match standard_patterns line = None.
Proof.
  intros Hd. unfold standard_patterns. cbn [first_match seq].
  repeat match goal with
         | |- context [re_match (Cat Bos (Cat (Plus is_digit) ?r)) line] =>
             rewrite (proj1 (digit_pattern_needs_digit r line Hd))
         end.
  rewrite (proj2 (digit_pattern_needs_digit Eps line Hd)). reflexivity.
Qed.

Lemma standard_body_in_complex n line :
  standard_body n line
  = if starts_with_digit line then complex_body n line else None.
Proof.
  unfold standard_body, complex_body.
  destruct (starts_with_digit line) eqn:Hd.
  - destruct (first_match_digit_line line Hd) as [Heq Hne]. rewrite <- Heq.
    destruct (first_match standard_patterns line); [reflexivity | congruence].
  - rewrite (first_match_standard_no_digit line Hd). reflexivity.
Qed.

(** X2.  The complex strategy extends the standard one: the records of
    the standard extraction are exactly the records of the complex
    extraction whose line starts with a decimal digit, in the same
    order. *)
Theorem standard_records_within_complex :
  forall txt,
    _extract_standard_verses txt
    = filter (fun r => starts_with_digit (content r)) (_extract_complex_verses txt).
Proof.
  intros txt. unfold _extract_standard_verses, _extract_complex_verses.
  generalize 1 as start. generalize (split_lines txt) as lines.
  induction lines as [|raw rest IH]; intros start; simpl; [reflexivity|].
  destruct (strip raw) as [|c l] eqn:Hs; [apply IH|].
  rewrite standard_body_in_complex.
  destruct (complex_body start (c :: l)) as [v|] eqn:Hv.
  - destruct (complex_body_ok _ _ _ Hv) as [_ Hc]. cbn [filter]. rewrite Hc.
    destruct (starts_with_digit (c :: l)); [f_equal|]; apply IH.
  - destruct (starts_with_digit (c :: l)); apply IH.
Qed.

(** ** The Devanagari patterns of the complex list *)

Lemma deva_is_digit c : deva_1_9 c = true -> is_digit c = true.
Proof.
  unfold deva_1_9, range. intros H. apply andb_prop in H. destruct H as [H1 H2].
  apply Z.leb_le in H1, H2.
  unfold is_digit, in_ranges. apply existsb_exists.
  exists (0x966, 0x96F). split.
  - unfold unicode_Nd. simpl. tauto.
  - simpl. apply andb_true_intro. split; apply Z.leb_le; lia.
Qed.

Lemma deva_run_matches r line m :
  re_match (Cat Bos (Cat (Plus deva_1_9) r)) line = Some m ->
  re_match (Cat Bos (Plus is_digit)) line <> None.
Proof.
  unfold re_match. simpl.
  destruct line as [|c s]; [discriminate|].
  destruct (deva_1_9 c) eqn:Hc; [|discriminate].
  intros _. rewrite (deva_is_digit c Hc).
  destruct (rep_accept_total is_digit (Some c) s) as [m' ->]. discriminate.
Qed.

(** A run that ends where the class ends. *)
Lemma rep_whole_run p (k : cont) ds c rest m :
  forall prev,
    all_in p ds -> p c = false ->
    (forall prev', k prev' (c :: rest) = Some m) ->
    rep p k prev (ds ++ c :: rest) = Some (ds ++ m).
Proof.
  induction ds as [|d ds IH]; intros prev Hall Hc Hk; simpl.
  - rewrite Hc. apply Hk.
  - inversion Hall; subst. rewrite H1. rewrite (IH (Some d)); auto.
Qed.

Lemma chr_plus_inv p q (k : cont) prev line m :
  run (Chr p) (run (Plus q) k) prev line = Some m ->
  exists c0 c1 ds s' m2 prev',
    line = c0 :: c1 :: ds ++ s'
    /\ p c0 = true /\ q c1 = true /\ all_in q ds /\ k prev' s' = Some m2.
Proof.
  destruct line as [|c0 [|c1 s1]]; simpl; try discriminate.
  - destruct (p c0); discriminate.
  - destruct (p c0) eqn:H0; [|discriminate].
    destruct (q c1) eqn:H1; [|discriminate].
    destruct (rep q k (Some c1) s1) as [m'|] eqn:Hr; [|discriminate].
    intros _. apply (rep_splits q) in Hr; [|auto].
    destruct Hr as (ds & m2 & s' & prev' & -> & -> & Hds & Hk).
    exists c0, c1, ds, s', m2, prev'. repeat split; auto.
Qed.

Lemma deva_not_space c : deva_1_9 c = true -> is_space c = false.
Proof.
  unfold deva_1_9, range. intros H. apply andb_prop in H. destruct H as [Ha Hb].
  apply Z.leb_le in Ha, Hb.
  destruct (is_space c) eqn:E; [|reflexivity].
  unfold is_space, in_ranges in E. apply existsb_exists in E.
  destruct E as ([lo hi] & Hin & Hr). simpl in Hr.
  apply andb_prop in Hr. destruct Hr as [H1 H2]. apply Z.leb_le in H1, H2.
  unfold unicode_whitespace in Hin. simpl in Hin.
  repeat (destruct Hin as [Hin|Hin]; [inversion Hin; subst; lia|]).
  contradiction.
Qed.

Lemma danda_number_matches line :
  re_match (nth 7 complex_patterns Eps) line <> None ->
  re_match (nth 6 complex_patterns Eps) line <> None.
Proof.
  intros H.
  destruct (re_match (nth 7 complex_patterns Eps) line) as [m|] eqn:E; [clear H|congruence].
  change (re_match (nth 7 complex_patterns Eps) line)
    with (run (Chr (lit danda2))
              (run (Plus deva_1_9) (run (Chr (lit danda2)) accept)) None line) in E.
  apply chr_plus_inv in E.
  destruct E as (c0 & c1 & ds & s' & m2 & prev' & -> & H0 & H1 & Hds & Hk).
  simpl in Hk. destruct s' as [|c2 rest]; [discriminate|].
  destruct (lit danda2 c2) eqn:H2; [|discriminate].
  apply Z.eqb_eq in H2. subst c2.
  assert (Hrun : rep is_digit
                   (run (Cat (Star is_space) (Chr (lit danda2))) accept)
                   (Some c1) (ds ++ danda2 :: rest) = Some (ds ++ [danda2])).
  { apply rep_whole_run.
    - unfold all_in in *. eapply Forall_impl; [|exact Hds].
      intros a Ha. apply deva_is_digit. exact Ha.
    - reflexivity.
    - intros prev''. reflexivity. }
  change (re_match (nth 6 complex_patterns Eps) (c0 :: c1 :: ds ++ danda2 :: rest))
    with (run (Chr (lit danda2))
              (rep is_space
                   (run (Plus is_digit)
                        (run (Cat (Star is_space) (Chr (lit danda2))) accept)))
              None (c0 :: c1 :: ds ++ danda2 :: rest)).
  remember (run (Cat (Star is_space) (Chr (lit danda2))) accept) as K.
  simpl. rewrite H0. rewrite (deva_not_space c1 H1). rewrite (deva_is_digit c1 H1).
  rewrite Hrun. discriminate.
Qed.

Lemma first_match_complex_head line m :
  first_match complex_patterns line = Some m ->
  starts_with_digit line = true \/ hd_error line = Some danda2.
Proof.
  intros H. apply first_match_inv in H.
  destruct H as (l1 & p & l2 & Hps & _ & Hm).
  assert (Hin : In p complex_patterns) by (rewrite Hps; apply in_or_app; right; left; reflexivity).
  clear Hps. unfold complex_patterns in Hin. cbn [seq] in Hin.
  unfold re_match in Hm.
  destruct line as [|c s];
    [repeat (destruct Hin as [<-|Hin]; [discriminate Hm|]); contradiction|].
  simpl in Hin.
  repeat (destruct Hin as [<-|Hin];
          [simpl in Hm;
           first [ destruct (is_digit c) eqn:Hc; [left; exact Hc | discriminate Hm]
                 | destruct (deva_1_9 c) eqn:Hc;
                   [left; apply deva_is_digit; exact Hc | discriminate Hm]
                 | destruct (lit danda2 c) eqn:Hc;
                   [right; apply Z.eqb_eq in Hc; subst; reflexivity | discriminate Hm] ]
          |]).
  contradiction.
Qed.

(** X3.  In the ordered list of the complex strategy the three patterns
    written with the Devanagari numerals 1 to 9 never decide: those
    numerals are decimal digits for [\d], so a line matched by the fifth
    or the sixth pattern is matched by the bare-number pattern before
    them, and a line matched by the eighth is matched by the seventh.
    The line of a verse record of the complex extraction starts with a
    decimal digit or with the double danda. *)
Theorem complex_devanagari_patterns_unreachable :
  (forall line,
      re_match (nth 4 complex_patterns Eps) line <> None
      \/ re_match (nth 5 complex_patterns Eps) line <> None ->
      re_match (nth 3 complex_patterns Eps) line <> None)
  /\ (forall line,
         re_match (nth 7 complex_patterns Eps) line <> None ->
         re_match (nth 6 complex_patterns Eps) line <> None)
  /\ (forall txt r,
         In r (_extract_complex_verses txt) -> type r = verse ->
         starts_with_digit (content r) = true
         \/ hd_error (content r) = Some danda2).
Proof.
  split; [|split].
  - intros line [H|H]; cbn [nth complex_patterns seq] in *;
      destruct (re_match _ line) as [m|] eqn:E in H; try congruence;
      eapply deva_run_matches; exact E.
  - exact danda_number_matches.
  - intros txt r Hin Hty. unfold _extract_complex_verses in Hin.
    destruct (for_lines_in _ _ _ _ complex_body_ok Hin) as (i & _ & _ & _ & _ & Hb).
    unfold complex_body in Hb.
    destruct (first_match complex_patterns (content r)) as [m|] eqn:Hm.
    + eapply first_match_complex_head; exact Hm.
    + destruct (_ && _); [|discriminate].
      inversion Hb as [Hr]. rewrite <- Hr in Hty. simpl in Hty. discriminate.
Qed.

(** The line of the double danda around the Devanagari numeral 1: the
    eighth pattern matches, and so does the seventh. *)
Lemma complex_devanagari_patterns_witness :
  re_match (nth 7 complex_patterns Eps) [0x965; 0x967; 0x965] = Some [0x965; 0x967; 0x965]
  /\ re_match (nth 6 complex_patterns Eps) [0x965; 0x967; 0x965] <> None.
Proof.
  split; [vm_compute; reflexivity|].
  apply (proj1 (proj2 complex_devanagari_patterns_unreachable)).
  vm_compute. discriminate.
Defined.

(** ** What a record holds *)

Lemma lstrip_head c t s : lstrip s = c :: t -> is_space c = false.
Proof.
  induction s as [|a s IH]; simpl; [discriminate|].
  destruct (is_space a) eqn:Ha; [exact IH|].
  intros H. inversion H; subst. exact Ha.
Qed.

Lemma lstrip_fixed c t : is_space c = false -> lstrip (c :: t) = c :: t.
Proof. intros H. simpl. rewrite H. reflexivity. Qed.

Lemma lstrip_idem s : lstrip (lstrip s) = lstrip s.
Proof.
  destruct (lstrip s) as [|c t] eqn:E; [reflexivity|].
  apply lstrip_fixed. eapply lstrip_head. exact E.
Qed.

Lemma last_rev (s : text) : last (rev s) 0 = hd 0 s.
Proof.
  destruct s as [|a s]; [reflexivity|]. simpl. apply last_last.
Qed.

Lemma hd_rev (s : text) : hd 0 (rev s) = last s 0.
Proof.
  rewrite <- (rev_involutive s) at 2. symmetry. apply last_rev.
Qed.

(** The stripped text starts and ends with a character that is no
    whitespace. *)
Lemma strip_ends s c t :
  strip s = c :: t -> is_space c = false /\ is_space (last (c :: t) 0) = false.
Proof.
  unfold strip, rstrip. intros H.
  remember (lstrip s) as A eqn:HeqA.
  remember (lstrip (rev A)) as B eqn:HeqB.
  destruct (lstrip_suffix (rev A)) as [p Hp]. rewrite <- HeqB in Hp.
  assert (HA : A = (c :: t) ++ rev p).
  { apply (f_equal (@rev _)) in Hp.
    rewrite rev_involutive, rev_app_distr, H in Hp. exact Hp. }
  split.
  - apply (lstrip_head c (t ++ rev p) s). rewrite <- HeqA, HA. reflexivity.
  - rewrite <- H, last_rev.
    destruct B as [|b v]; [simpl in H; discriminate|]. simpl.
    apply (lstrip_head b v (rev A)). symmetry. exact HeqB.
Qed.

Lemma strip_fixed c t :
  is_space c = false -> is_space (last (c :: t) 0) = false ->
  strip (c :: t) = c :: t.
Proof.
  intros Hc Hl. unfold strip, rstrip. rewrite (lstrip_fixed c t Hc).
  destruct (rev (c :: t)) as [|b v] eqn:E.
  { apply (f_equal (@length _)) in E. rewrite length_rev in E. discriminate. }
  assert (Hb : b = last (c :: t) 0).
  { rewrite <- hd_rev, E. reflexivity. }
  rewrite lstrip_fixed by (rewrite Hb; exact Hl).
  rewrite <- E. apply rev_involutive.
Qed.

Lemma strip_idem s : strip (strip s) = strip s.
Proof.
  destruct (strip s) as [|c t] eqn:E; [reflexivity|].
  destruct (strip_ends s c t E) as [Hc Hl]. apply strip_fixed; assumption.
Qed.

Lemma consumes_chr p : consumes (Chr p).
Proof.
  intros k prev s m. simpl. destruct s as [|c s]; [discriminate|].
  destruct (p c); [|discriminate]. destruct (k (Some c) s); [|discriminate].
  intros H; inversion H; discriminate.
Qed.

Lemma consumes_plus p : consumes (Plus p).
Proof.
  intros k prev s m. simpl. destruct s as [|c s]; [discriminate|].
  destruct (p c); [|discriminate]. destruct (rep p k (Some c) s); [|discriminate].
  intros H; inversion H; discriminate.
Qed.

Lemma consumes_cat r1 r2 : consumes r1 -> consumes (Cat r1 r2).
Proof. intros H k prev s m. simpl. apply H. Qed.

Lemma consumes_bos r : consumes r -> consumes (Cat Bos r).
Proof.
  intros H k prev s m. simpl. destruct prev; [discriminate|]. apply H.
Qed.

#[local] Hint Resolve consumes_chr consumes_plus consumes_cat consumes_bos : classes.

Lemma marker_patterns_consume p :
  In p standard_patterns \/ In p complex_patterns -> consumes p.
Proof.
  unfold standard_patterns, complex_patterns. cbn [seq]. simpl In.
  intros [H|H];
    repeat (destruct H as [<-|H]; [auto 6 with classes|]); contradiction.
Qed.

Lemma first_match_marker ps line m :
  (forall p, In p ps -> consumes p) ->
  first_match ps line = Some m ->
  m <> [] /\ exists rest, line = m ++ rest.
Proof.
  intros Hps H. apply first_match_inv in H.
  destruct H as (l1 & p & l2 & -> & _ & Hm).
  split.
  - assert (Hin : In p (l1 ++ p :: l2)) by (apply in_or_app; right; left; reflexivity).
    apply (Hps p Hin accept None line). exact Hm.
  - apply (re_match_prefix (fun _ => true)) in Hm; [apply Hm|].
    clear. induction p; simpl; auto.
Qed.

Lemma record_shape body txt r :
  body_ok body ->
  In r (for_lines body 1 (split_lines txt)) ->
  content r <> [] /\ strip (content r) = content r
  /\ body (line_number r) (content r) = Some r.
Proof.
  intros Hb Hin.
  destruct (for_lines_in _ _ _ _ Hb Hin) as (i & _ & _ & Hnb & Hc & Hbody).
  repeat split; [| |exact Hbody].
  - rewrite Hc. unfold non_blank in Hnb. destruct (strip _); [discriminate|discriminate].
  - rewrite Hc. apply strip_idem.
Qed.

(** X4.  Every record of either extraction holds a line that is not
    empty and has no whitespace at its ends, and a marker that is not
    empty and stands at the start of that line. *)
Theorem record_marker_starts_content :
  forall txt r,
    In r (_extract_standard_verses txt) \/ In r (_extract_complex_verses txt) ->
    content r <> []
    /\ strip (content r) = content r
    /\ marker r <> []
    /\ exists rest, content r = marker r ++ rest.
Proof.
  intros txt r [Hin|Hin].
  - destruct (record_shape _ _ _ standard_body_ok Hin) as (Hne & Hs & Hb).
    split; [exact Hne|]. split; [exact Hs|].
    unfold standard_body in Hb.
    destruct (first_match standard_patterns (content r)) as [m|] eqn:Hm; [|discriminate].
    injection Hb as Hr.
    assert (Hmk : marker r = m) by (rewrite <- Hr; reflexivity). rewrite Hmk.
    apply (first_match_marker standard_patterns); [|exact Hm].
    intros p Hp. apply marker_patterns_consume. left; exact Hp.
  - destruct (record_shape _ _ _ complex_body_ok Hin) as (Hne & Hs & Hb).
    split; [exact Hne|]. split; [exact Hs|].
    unfold complex_body in Hb.
    destruct (first_match complex_patterns (content r)) as [m|] eqn:Hm.
    + injection Hb as Hr.
      assert (Hmk : marker r = m) by (rewrite <- Hr; reflexivity). rewrite Hmk.
      apply (first_match_marker complex_patterns); [|exact Hm].
      intros p Hp. apply marker_patterns_consume. right; exact Hp.
    + destruct (_ && _); [|discriminate].
      injection Hb as Hr.
      assert (Hmk : marker r = content r) by (rewrite <- Hr; reflexivity). rewrite Hmk.
      split; [exact Hne | exists []; symmetry; apply app_nil_r].
Qed.

(** The second line of a text, with blanks around its marker. *)
Lemma record_marker_starts_content_witness :
  exists rest,
    str "12.3 yatha" = str "12.3" ++ rest
    /\ In (verse_of 2 (str "12.3 yatha") (str "12.3"))
          (_extract_complex_verses (str "intro" ++ [10] ++ str "   12.3 yatha  ")).
Proof.
  assert (Hin : In (verse_of 2 (str "12.3 yatha") (str "12.3"))
                   (_extract_complex_verses (str "intro" ++ [10] ++ str "   12.3 yatha  "))).
  { vm_compute. right. left. reflexivity. }
  destruct (record_marker_starts_content _ _ (or_intror Hin)) as (_ & _ & _ & rest & Hrest).
  exists rest. split; [exact Hrest | exact Hin].
Defined.

(** X5.  An irregular record comes from the complex extraction only; its
    marker is its whole line, which is shorter than 20 characters, is
    made of characters of the fallback class and does not start with a
    decimal digit: a line that starts with a digit, a bare page number
    for one, is recorded as a verse. *)
Theorem irregular_record_shape :
  forall txt r,
    In r (_extract_complex_verses txt) -> type r = irregular ->
    marker r = content r
    /\ (length (content r) < 20)%nat
    /\ all_in irregular_class (content r)
    /\ starts_with_digit (content r) = false.
Proof.
  intros txt r Hin Hty.
  destruct (record_shape _ _ _ complex_body_ok Hin) as (Hne & _ & Hb).
  unfold complex_body in Hb.
  destruct (first_match complex_patterns (content r)) as [m|] eqn:Hm.
  { injection Hb as Hr. rewrite <- Hr in Hty. simpl in Hty. discriminate. }
  destruct (Z.ltb_spec (Z.of_nat (length (content r))) 20) as [Hlt|]; [|discriminate].
  destruct (is_some (re_match irregular_pattern (content r))) eqn:Hp; [|discriminate].
  simpl in Hb. injection Hb as Hr.
  apply irregular_pattern_matches in Hp. destruct Hp as [_ Hall].
  assert (Hmk : marker r = content r) by (rewrite <- Hr; reflexivity).
  split; [exact Hmk|]. split; [lia|]. split; [exact Hall|].
  destruct (starts_with_digit (content r)) eqn:Hd; [|reflexivity].
  destruct (first_match_digit_line _ Hd) as [Heq Hnone].
  rewrite Heq in Hnone. congruence.
Qed.

(** The line of three hyphens is irregular; the page number 12 on the
    line after it is a verse. *)
Lemma irregular_record_shape_witness :
  _extract_complex_verses (str "---" ++ [10] ++ str "12")
  = [irregular_of 1 (str "---"); verse_of 2 (str "12") (str "12")]
  /\ starts_with_digit (str "---") = false.
Proof.
  split; [vm_compute; reflexivity|].
  apply (irregular_record_shape (str "---" ++ [10] ++ str "12") (irregular_of 1 (str "---"))).
  - vm_compute. left. reflexivity.
  - reflexivity.
Defined.

(** ** The isolator: where the result lies, and the two editions *)

Lemma try_patterns_some ps s r :
  try_patterns ps s = Some r ->
  exists pr start,
    ocr_selects ps s pr start /\ r = cut_tail (snd pr) (skipn start s).
Proof.
  induction ps as [|[a b] ps IH]; simpl; [discriminate|].
  destruct (re_search a s) as [[start m]|] eqn:Ha.
  - rewrite (isolation_step a b s start m Ha). intros H. injection H as <-.
    exists (a, b), start. split; [|reflexivity].
    exists [], ps. split; [reflexivity|]. split; [intros q []|].
    apply (proj1 (re_search_some a s start m Ha)).
  - intros H. destruct (IH H) as (pr & start & (l1 & l2 & -> & Hnone & Hfirst) & Hr).
    exists pr, start. split; [|exact Hr].
    exists ((a, b) :: l1), l2. split; [reflexivity|]. split; [|exact Hfirst].
    intros q [<-|Hq]; [apply re_search_none; exact Ha | apply Hnone; exact Hq].
Qed.

Lemma part_from start (s : text) b :
  (start <= length s)%nat ->
  exists pre post, s = pre ++ cut_tail b (skipn start s) ++ post /\ length pre = start.
Proof.
  intros Hs. destruct (cut_tail_prefix b (skipn start s)) as [post Hpost].
  exists (firstn start s), post. split.
  - rewrite <- Hpost. symmetry. apply firstn_skipn.
  - apply firstn_length_le. exact Hs.
Qed.

(** X6.  What either edition returns is a contiguous part of the
    document, and it begins at the leftmost place where the start label
    matches (in the OCR edition: the start label of the first pair of
    patterns that matches anywhere). *)
Theorem isolated_text_lies_in_document :
  forall (is_word : codepoint -> bool) (full_text : text) (N : Z) (r : text),
    (isolate_chapter is_word full_text N = Some r ->
     exists pre post,
       full_text = pre ++ r ++ post
       /\ first_match_at (chapter_pattern is_word N) full_text (length pre))
    /\ (isolate_chapter_ocr is_word full_text N = Some r ->
        exists pre post pr,
          full_text = pre ++ r ++ post
          /\ ocr_selects (ocr_patterns is_word N) full_text pr (length pre)).
Proof.
  intros w s N r. split.
  - unfold isolate_chapter. destruct s as [|c s]; [discriminate|].
    destruct (re_search (chapter_pattern w N) (c :: s)) as [[start m]|] eqn:Ha;
      [|discriminate].
    rewrite (isolation_step _ (chapter_pattern w (N + 1)) _ start m Ha).
    intros H. injection H as <-.
    pose proof (proj1 (re_search_some _ _ _ _ Ha)) as Hfirst.
    destruct (part_from start (c :: s) (chapter_pattern w (N + 1)) (proj1 (proj1 Hfirst)))
      as (pre & post & Hs & Hlen).
    exists pre, post. rewrite Hlen. split; assumption.
  - unfold isolate_chapter_ocr. destruct s as [|c s]; [discriminate|].
    intros H. apply try_patterns_some in H.
    destruct H as (pr & start & Hsel & ->).
    assert (Hs : (start <= length (c :: s))%nat).
    { destruct Hsel as (l1 & l2 & _ & _ & Hfirst). apply Hfirst. }
    destruct (part_from start (c :: s) (snd pr) Hs) as (pre & post & Hpart & Hlen).
    exists pre, post, pr. rewrite Hlen. split; assumption.
Qed.

(** The chapter in the middle of a document. *)
Lemma isolated_text_lies_in_document_witness :
  exists pre post,
    str "intro CHAPTER 5 foo CHAPTER 6 bar" = pre ++ str "CHAPTER 5 foo " ++ post
    /\ first_match_at (chapter_pattern ascii_word 5)
                      (str "intro CHAPTER 5 foo CHAPTER 6 bar") (length pre).
Proof.
  apply (proj1 (isolated_text_lies_in_document ascii_word
                  (str "intro CHAPTER 5 foo CHAPTER 6 bar") 5 (str "CHAPTER 5 foo "))).
  vm_compute. reflexivity.
Defined.

(** X7.  The OCR edition extends the plain one: whenever the plain
    isolator finds the chapter, the OCR isolator returns the same text. *)
Theorem ocr_edition_extends_plain :
  forall (is_word : codepoint -> bool) (full_text : text) (N : Z) (r : text),
    isolate_chapter is_word full_text N = Some r ->
    isolate_chapter_ocr is_word full_text N = Some r.
Proof.
  intros w s N r. unfold isolate_chapter, isolate_chapter_ocr.
  destruct s as [|c s]; [discriminate|].
  unfold ocr_patterns. cbn [try_patterns].
  change (seq [word_i (str "CHAPTER"); Plus is_space; word_i (decimal N); Bnd w])
    with (chapter_pattern w N).
  change (seq [word_i (str "CHAPTER"); Plus is_space; word_i (decimal (N + 1)); Bnd w])
    with (chapter_pattern w (N + 1)).
  destruct (re_search (chapter_pattern w N) (c :: s)) as [[start m]|]; [|discriminate].
  intros H. exact H.
Qed.

Lemma ocr_edition_extends_plain_witness :
  isolate_chapter_ocr ascii_word (str "intro CHAPTER 5 foo CHAPTER 6 bar") 5
  = Some (str "CHAPTER 5 foo ").
Proof.
  apply ocr_edition_extends_plain. vm_compute. reflexivity.
Defined.

(** X8.  Under IGNORECASE the pair of patterns written with the label
    "Chapter" is the pair written with "CHAPTER", which stands before it
    in the list of the OCR edition: the second pair never decides, and
    the list without it gives the same result on every document. *)
Theorem ocr_lowercase_pair_never_decides :
  forall (is_word : codepoint -> bool) (N : Z),
    nth 1 (ocr_patterns is_word N) (Eps, Eps) = nth 0 (ocr_patterns is_word N) (Eps, Eps)
    /\ forall full_text,
        try_patterns (ocr_patterns is_word N) full_text
        = try_patterns (nth 0 (ocr_patterns is_word N) (Eps, Eps)
                          :: skipn 2 (ocr_patterns is_word N)) full_text.
Proof.
  intros w N.
  assert (Heq : nth 1 (ocr_patterns w N) (Eps, Eps) = nth 0 (ocr_patterns w N) (Eps, Eps))
    by reflexivity.
  split; [exact Heq|].
  intros s.
  change (ocr_patterns w N)
    with (nth 0 (ocr_patterns w N) (Eps, Eps) :: nth 1 (ocr_patterns w N) (Eps, Eps)
            :: skipn 2 (ocr_patterns w N)) at 1.
  rewrite Heq.
  destruct (nth 0 (ocr_patterns w N) (Eps, Eps)) as [a b].
  cbn [try_patterns]. destruct (re_search a s) as [[start m]|]; reflexivity.
Qed.

(** ** clean_response_text, applied twice *)

Lemma last_app_nonempty (a b : text) : b <> [] -> last (a ++ b) 0 = last b 0.
Proof.
  intros Hb. induction a as [|x a IH]; [reflexivity|].
  simpl. destruct (a ++ b) eqn:E; [|exact IH].
  apply app_eq_nil in E. destruct E. contradiction.
Qed.

(** A substitution whose pattern matches nowhere changes nothing. *)
Lemma sub_from_no_match r repl s :
  forall prev,
    (forall k, (k < length s)%nat ->
               run r accept (prev_at prev s k) (skipn k s) = None) ->
    sub_from r repl prev 0 s = s.
Proof.
  induction s as [|c s IH]; intros prev H; simpl; [reflexivity|].
  pose proof (H 0%nat ltac:(simpl; lia)) as H0. simpl in H0. rewrite H0.
  f_equal. apply IH. intros k Hk.
  rewrite (prev_at_cons prev). apply (H (S k)). simpl. lia.
Qed.

Lemma fence_open_no_match c s :
  lit backtick c = false -> re_sub fence_open [] (c :: s) = c :: s.
Proof.
  intros Hc. unfold re_sub. apply sub_from_no_match.
  intros [|k] Hk.
  - unfold fence_open. simpl. rewrite Hc. reflexivity.
  - simpl prev_at. unfold fence_open. cbn [seq run].
    destruct (nth_error (c :: s) k) eqn:E; [reflexivity|].
    apply nth_error_None in E. lia.
Qed.

Lemma fence_close_needs_fence prev u :
  u <> [] -> last u 0 = rbrace -> run fence_close accept prev u = None.
Proof.
  intros Hne Hlast.
  destruct (run fence_close accept prev u) as [m|] eqn:E; [exfalso|reflexivity].
  change (run fence_close accept prev u)
    with (rep is_space
              (run (Cat (Chr (lit backtick))
                        (Cat (Chr (lit backtick)) (Cat (Chr (lit backtick)) Eos)))
                   accept) prev u) in E.
  apply (rep_splits is_space) in E; [|auto].
  destruct E as (m1 & m2 & s' & prev' & -> & -> & _ & Hk).
  simpl in Hk.
  destruct s' as [|b1 [|b2 [|b3 s'']]]; try discriminate;
    try (destruct (lit backtick b1); discriminate);
    try (destruct (lit backtick b1); destruct (lit backtick b2); discriminate).
  destruct (lit backtick b1) eqn:H1; [|discriminate].
  destruct (lit backtick b2) eqn:H2; [|discriminate].
  destruct (lit backtick b3) eqn:H3; [|discriminate].
  apply Z.eqb_eq in H3.
  rewrite last_app_nonempty in Hlast by discriminate.
  destruct s'' as [|x [|y s3]]; simpl in Hlast, Hk.
  - subst. discriminate.
  - destruct (x =? 10) eqn:Hx; [|discriminate]. apply Z.eqb_eq in Hx. subst. discriminate.
  - discriminate.
Qed.

Lemma last_skipn (s : text) k :
  (k < length s)%nat -> skipn k s <> [] /\ last (skipn k s) 0 = last s 0.
Proof.
  intros Hk.
  assert (Hne : skipn k s <> []).
  { intros E. apply (f_equal (@length _)) in E. rewrite length_skipn in E. simpl in E. lia. }
  split; [exact Hne|].
  rewrite <- (firstn_skipn k s) at 2. symmetry. apply last_app_nonempty. exact Hne.
Qed.

Lemma fence_close_no_match s :
  last s 0 = rbrace -> re_sub fence_close [] s = s.
Proof.
  intros Hlast. unfold re_sub. apply sub_from_no_match.
  intros k Hk. destruct (last_skipn s k Hk) as [Hne Hl].
  apply fence_close_needs_fence; [exact Hne | exact (eq_trans Hl Hlast)].
Qed.

Lemma filter_all (p : codepoint -> bool) s : all_in p s -> filter p s = s.
Proof.
  induction 1 as [|c s Hc _ IH]; simpl; [reflexivity|]. rewrite Hc, IH. reflexivity.
Qed.

Lemma rfind_from_last c w :
  forall i, 0 <= i -> rfind_from c i (w ++ [c]) = i + Z.of_nat (length w).
Proof.
  induction w as [|a w IH]; intros i Hi; simpl.
  - rewrite Z.eqb_refl. lia.
  - rewrite (IH (i + 1)) by lia.
    destruct (Z.eqb_spec (i + 1 + Z.of_nat (length w)) (-1)); lia.
Qed.

Lemma clean_braced w :
  all_in not_control (lbrace :: w ++ [rbrace]) ->
  clean_response_text (lbrace :: w ++ [rbrace]) = lbrace :: w ++ [rbrace].
Proof.
  intros Hall. set (r := lbrace :: w ++ [rbrace]).
  assert (Hlast : last r 0 = rbrace).
  { unfold r. change (lbrace :: w ++ [rbrace]) with ((lbrace :: w) ++ [rbrace]).
    apply last_last. }
  unfold clean_response_text.
  assert (H1 : re_sub (Chr is_control) [] r = r).
  { unfold re_sub. rewrite sub_control_filter. apply filter_all. exact Hall. }
  rewrite H1.
  assert (H2 : strip r = r).
  { apply strip_fixed; [reflexivity|]. fold r. rewrite Hlast. reflexivity. }
  rewrite H2.
  assert (H3 : re_sub fence_open [] r = r) by (apply fence_open_no_match; reflexivity).
  rewrite H3.
  rewrite (fence_close_no_match r Hlast).
  assert (Hf : find lbrace r = 0) by reflexivity.
  assert (Hr : rfind rbrace r = Z.of_nat (length w) + 1).
  { unfold rfind, r. change (lbrace :: w ++ [rbrace]) with ((lbrace :: w) ++ [rbrace]).
    rewrite rfind_from_last by lia. simpl length. lia. }
  rewrite Hf, Hr.
  replace (negb (0 =? -1) && negb (Z.of_nat (length w) + 1 =? -1)
           && (Z.of_nat (length w) + 1 >? 0)) with true.
  - unfold slice. simpl skipn.
    replace (Z.to_nat (Z.of_nat (length w) + 1 + 1) - Z.to_nat 0)%nat with (length r).
    + apply firstn_all.
    + unfold r. simpl length. rewrite length_app. simpl. lia.
  - symmetry. apply andb_true_intro. split; [apply andb_true_intro; split|].
    + reflexivity.
    + apply negb_true_iff. apply Z.eqb_neq. lia.
    + apply Z.gtb_lt. lia.
Qed.

(** X9.  [clean_response_text] is idempotent: cleaning a cleaned response
    changes nothing, so a response that is already a bare object passes
    through untouched. *)
Theorem clean_response_text_idempotent :
  forall txt,
    clean_response_text (clean_response_text txt) = clean_response_text txt.
Proof.
  intros txt.
  destruct (clean_response_text txt) as [|c r] eqn:E; [reflexivity|].
  destruct (clean_response_text_braces txt _ E ltac:(discriminate))
    as (pre & w & post & Hrem & Hr & _).
  rewrite Hr. apply clean_braced. rewrite <- Hr.
  pose proof (remainder_no_control txt) as Hall. rewrite Hrem in Hall.
  unfold all_in in *. apply Forall_app in Hall. destruct Hall as [_ Hall].
  apply Forall_app in Hall. apply Hall.
Qed.

(** ** [int] after [str] *)

Lemma uint_codes_step d :
  uint_codes (Decimal.D0 d) = 48 :: uint_codes d
  /\ uint_codes (Decimal.D1 d) = 49 :: uint_codes d
  /\ uint_codes (Decimal.D2 d) = 50 :: uint_codes d
  /\ uint_codes (Decimal.D3 d) = 51 :: uint_codes d
  /\ uint_codes (Decimal.D4 d) = 52 :: uint_codes d
  /\ uint_codes (Decimal.D5 d) = 53 :: uint_codes d
  /\ uint_codes (Decimal.D6 d) = 54 :: uint_codes d
  /\ uint_codes (Decimal.D7 d) = 55 :: uint_codes d
  /\ uint_codes (Decimal.D8 d) = 56 :: uint_codes d
  /\ uint_codes (Decimal.D9 d) = 57 :: uint_codes d.
Proof. repeat split; reflexivity. Qed.

Ltac step_codes d :=
  destruct (uint_codes_step d) as (E0 & E1 & E2 & E3 & E4 & E5 & E6 & E7 & E8 & E9);
  first [ rewrite E0 | rewrite E1 | rewrite E2 | rewrite E3 | rewrite E4
        | rewrite E5 | rewrite E6 | rewrite E7 | rewrite E8 | rewrite E9 ];
  clear E0 E1 E2 E3 E4 E5 E6 E7 E8 E9.

Lemma int_digits_digit acc b k rest :
  0 <= k <= 9 ->
  int_digits acc b (48 + k :: rest) = int_digits (acc * 10 + k) true rest.
Proof.
  intros Hk.
  assert (H : k = 0 \/ k = 1 \/ k = 2 \/ k = 3 \/ k = 4 \/ k = 5 \/ k = 6
              \/ k = 7 \/ k = 8 \/ k = 9) by lia.
  repeat (destruct H as [->|H]; [reflexivity|]). subst. reflexivity.
Qed.

Ltac step_digit :=
  match goal with
  | |- int_digits ?a ?b (?c :: ?rest) = _ =>
      let k := eval compute in (c - 48) in
      change (int_digits a b (c :: rest)) with (int_digits a b (48 + k :: rest));
      rewrite (int_digits_digit a b k rest) by lia
  end.

Lemma int_digits_acc d :
  forall acc,
    int_digits (Z.pos acc) true (uint_codes d) = Some (Z.pos (Pos.of_uint_acc d acc)).
Proof.
  induction d as [|d IH|d IH|d IH|d IH|d IH|d IH|d IH|d IH|d IH|d IH]; intros acc;
    [reflexivity|..];
    step_codes d; step_digit; cbn [Pos.of_uint_acc];
    match goal with
    | |- int_digits ?x true _ = Some (Z.pos (Pos.of_uint_acc d ?y)) =>
        replace x with (Z.pos y) by lia; apply IH
    end.
Qed.

Lemma int_digits_of_uint d :
  forall b, d <> Decimal.Nil ->
            int_digits 0 b (uint_codes d) = Some (Z.of_N (Pos.of_uint d)).
Proof.
  induction d as [|d IH|d IH|d IH|d IH|d IH|d IH|d IH|d IH|d IH|d IH]; intros b Hd;
    [congruence|..]; step_codes d; step_digit; cbn [Pos.of_uint].
  - destruct d; try (apply IH; discriminate). reflexivity.
  - apply (int_digits_acc d 1).
  - apply (int_digits_acc d 2).
  - apply (int_digits_acc d 3).
  - apply (int_digits_acc d 4).
  - apply (int_digits_acc d 5).
  - apply (int_digits_acc d 6).
  - apply (int_digits_acc d 7).
  - apply (int_digits_acc d 8).
  - apply (int_digits_acc d 9).
Qed.

Lemma uint_codes_digits d : Forall (fun c => 48 <= c <= 57) (uint_codes d).
Proof.
  induction d as [|d IH|d IH|d IH|d IH|d IH|d IH|d IH|d IH|d IH|d IH];
    [constructor|..]; step_codes d; constructor; (lia || exact IH).
Qed.

Lemma int_space_false c : 33 <= c <= 126 -> int_space c = false.
Proof.
  intros Hc. unfold int_space.
  destruct (is_space c) eqn:E; [|reflexivity].
  unfold is_space, in_ranges in E. apply existsb_exists in E.
  destruct E as ([lo hi] & Hin & Hr). simpl in Hr.
  apply andb_prop in Hr. destruct Hr as [H1 H2]. apply Z.leb_le in H1, H2.
  unfold unicode_whitespace in Hin. simpl in Hin.
  repeat (destruct Hin as [Hin|Hin]; [inversion Hin; subst; lia|]).
  contradiction.
Qed.

Lemma skip_int_space_fixed s :
  Forall (fun c => 33 <= c <= 126) s ->
  rev (skip_int_space (rev (skip_int_space s))) = s.
Proof.
  intros Hs.
  assert (Hskip : forall u, Forall (fun c => 33 <= c <= 126) u -> skip_int_space u = u).
  { intros u Hu. destruct Hu as [|c u Hc Hu]; [reflexivity|].
    simpl. rewrite (int_space_false c Hc). reflexivity. }
  rewrite (Hskip s Hs). rewrite Hskip by (apply Forall_rev; exact Hs).
  apply rev_involutive.
Qed.

Lemma printable_digits d : Forall (fun c => 33 <= c <= 126) (uint_codes d).
Proof.
  eapply Forall_impl; [|apply uint_codes_digits]. simpl. intros; lia.
Qed.

Lemma py_int_uint d :
  d <> Decimal.Nil -> py_int (uint_codes d) = Some (Z.of_N (Pos.of_uint d)).
Proof.
  intros Hd. unfold py_int. rewrite (skip_int_space_fixed _ (printable_digits d)).
  rewrite <- (int_digits_of_uint d false Hd).
  destruct d; [congruence|..]; reflexivity.
Qed.

Lemma py_int_neg_uint d :
  d <> Decimal.Nil -> py_int (45 :: uint_codes d) = Some (- Z.of_N (Pos.of_uint d)).
Proof.
  intros Hd. unfold py_int.
  rewrite skip_int_space_fixed by (constructor; [lia | apply printable_digits]).
  rewrite (int_digits_of_uint d false Hd). reflexivity.
Qed.

(** [int] undoes [str]: reading the decimal text of an integer gives the
    integer back. *)
Lemma int_of_str_round_trip :
  forall n : Z, py_int (decimal n) = Some n.
Proof.
  intros [|p|p].
  - reflexivity.
  - change (decimal (Z.pos p)) with (uint_codes (Pos.to_uint p)).
    rewrite py_int_uint by apply DecimalPos.Unsigned.to_uint_nonnil.
    rewrite DecimalPos.Unsigned.of_to. reflexivity.
  - change (decimal (Z.neg p)) with (45 :: uint_codes (Pos.to_uint p)).
    rewrite py_int_neg_uint by apply DecimalPos.Unsigned.to_uint_nonnil.
    rewrite DecimalPos.Unsigned.of_to. reflexivity.
Qed.

(** ** The manifest builders: order, provenance, counts *)

Lemma insert_by_sorted {A} (lt : A -> A -> bool) x l :
  (forall a b, lt a b = true -> lt b a = false) ->
  (forall a b c, lt a b = true -> lt c b = false -> lt c a = false) ->
  StronglySorted (fun a b => lt b a = false) l ->
  StronglySorted (fun a b => lt b a = false) (insert_by lt x l).
Proof.
  intros Hasym Htr. induction l as [|y l IH]; intros Hs; simpl.
  - repeat constructor.
  - inversion Hs as [|? ? Hs' Hy]; subst.
    destruct (lt x y) eqn:Hxy.
    + constructor; [exact Hs|].
      constructor; [apply Hasym; exact Hxy|].
      eapply Forall_impl; [|exact Hy]. intros z Hz. simpl in Hz.
      apply (Htr x y z Hxy Hz).
    + constructor; [apply IH; exact Hs'|].
      eapply Permutation_Forall; [symmetry; apply insert_by_perm|].
      constructor; assumption.
Qed.

Lemma sort_by_sorted {A} (lt : A -> A -> bool) l :
  (forall a b, lt a b = true -> lt b a = false) ->
  (forall a b c, lt a b = true -> lt c b = false -> lt c a = false) ->
  StronglySorted (fun a b => lt b a = false) (sort_by lt l).
Proof.
  intros Hasym Htr. unfold sort_by.
  apply (fold_left_inv (StronglySorted (fun a b => lt b a = false))).
  - intros a x Ha. apply insert_by_sorted; assumption.
  - constructor.
Qed.

Lemma ssorted_impl {A} (R R' : A -> A -> Prop) l :
  (forall a b, R a b -> R' a b) -> StronglySorted R l -> StronglySorted R' l.
Proof.
  intros H. induction 1 as [|a l Hs IH Ha]; constructor; [exact IH|].
  eapply Forall_impl; [|exact Ha]. intros b. apply H.
Qed.

Lemma sort_chapters_sorted l :
  StronglySorted (fun a b => chapterNumber a <= chapterNumber b) (sort_chapters l).
Proof.
  unfold sort_chapters.
  eapply ssorted_impl.
  2: { apply sort_by_sorted.
       - intros a b H. apply Z.ltb_lt in H. apply Z.ltb_ge. lia.
       - intros a b c H1 H2. apply Z.ltb_lt in H1. apply Z.ltb_ge in H2.
         apply Z.ltb_ge. lia. }
  intros a b H. simpl in H. apply Z.ltb_ge in H. exact H.
Qed.

Lemma map_all_forall {A B} (f : A -> option B) (P : A -> Prop) (Q : B -> Prop) l ys :
  (forall a b, P a -> f a = Some b -> Q b) ->
  map_all f l = Some ys -> Forall P l -> Forall Q ys.
Proof.
  intros HPQ. revert ys. induction l as [|x l IH]; intros ys Hm Hl; simpl in Hm.
  - injection Hm as <-. constructor.
  - destruct (f x) as [y|] eqn:Hx; [|discriminate].
    destruct (map_all f l) as [ys'|]; [|discriminate].
    injection Hm as <-. inversion Hl; subst.
    constructor; [eapply HPQ; eassumption | apply IH; auto].
Qed.

Lemma sort_sections_sorted l keys :
  map_all section_key (sort_sections l) = Some keys -> StronglySorted Z.le keys.
Proof.
  unfold sort_sections. fold section_key.
  change (fun x => py_int (sectionId x)) with section_key.
  destruct (map_all section_key l) as [ks|] eqn:E; [|congruence].
  set (lt := fun a b : section_entry =>
               match py_int (sectionId a), py_int (sectionId b) with
               | Some ka, Some kb => ka <? kb
               | _, _ => false
               end).
  assert (Hs : StronglySorted (fun a b => lt b a = false) (sort_by lt l)).
  { apply sort_by_sorted; unfold lt.
    - intros a b. destruct (py_int (sectionId a)), (py_int (sectionId b));
        try discriminate. intros H. apply Z.ltb_lt in H. apply Z.ltb_ge. lia.
    - intros a b c.
      destruct (py_int (sectionId a)), (py_int (sectionId b)), (py_int (sectionId c));
        try discriminate; try reflexivity.
      intros H1 H2. apply Z.ltb_lt in H1. apply Z.ltb_ge in H2. apply Z.ltb_ge. lia. }
  revert keys. induction Hs as [|a L Hs IH Ha]; intros keys Hm; simpl in Hm.
  - injection Hm as <-. constructor.
  - destruct (section_key a) as [ka|] eqn:Hka; [|discriminate].
    destruct (map_all section_key L) as [ks'|] eqn:HL; [|discriminate].
    injection Hm as <-. constructor; [apply IH; reflexivity|].
    eapply (map_all_forall section_key _ (Z.le ka)); [|exact HL|exact Ha].
    intros b kb Hb Hkb. unfold lt in Hb. unfold section_key in Hka, Hkb.
    rewrite Hka, Hkb in Hb. apply Z.ltb_ge in Hb. exact Hb.
Qed.

Lemma fold_left_trace {A B} (I : list B -> A -> Prop) (f : A -> B -> A) l a0 :
  (forall done a x, I done a -> I (done ++ [x]) (f a x)) ->
  I [] a0 -> I l (fold_left f l a0).
Proof.
  intros Hstep H0.
  assert (H : forall done a, I done a -> I (done ++ l) (fold_left f l a)).
  { induction l as [|x l IH]; intros done a Ha; simpl.
    - rewrite app_nil_r. exact Ha.
    - replace (done ++ x :: l) with ((done ++ [x]) ++ l)
        by (rewrite <- app_assoc; reflexivity).
      apply IH. apply Hstep. exact Ha. }
  apply (H [] a0 H0).
Qed.

Lemma filter_length_app {A} (p : A -> bool) l x :
  length (filter p (l ++ [x])) = (length (filter p l) + (if p x then 1 else 0))%nat.
Proof.
  rewrite filter_app, length_app. simpl. destruct (p x); reflexivity.
Qed.

Lemma chapters_trace_skip fld total0 done st pdf :
  names_chapter pdf = false ->
  chapters_trace fld total0 done st -> chapters_trace fld total0 (done ++ [pdf]) st.
Proof.
  intros Hn [Hsnd Hall]. split.
  - rewrite filter_length_app, Hn, Hsnd. lia.
  - eapply Forall_impl; [|exact Hall]. intros c (p & Hin & H).
    exists p. split; [apply in_or_app; left; exact Hin | exact H].
Qed.

Lemma chapters_trace_add fld total0 done st pdf c :
  names_chapter pdf = true ->
  chapter_number_of (stem (file_name pdf)) = Some (chapterNumber c) ->
  chapterId c = decimal (chapterNumber c) ->
  hasMetadata c = exists_in fld (with_suffix_json (file_name pdf)) ->
  chapters_trace fld total0 done st ->
  chapters_trace fld total0 (done ++ [pdf]) (fst st ++ [c], snd st + 1).
Proof.
  intros Hn Hnum Hid Hmeta [Hsnd Hall]. split; simpl.
  - rewrite filter_length_app, Hn, Hsnd. lia.
  - apply Forall_app. split.
    + eapply Forall_impl; [|exact Hall]. intros c' (p & Hin & H).
      exists p. split; [apply in_or_app; left; exact Hin | exact H].
    + repeat constructor. exists pdf.
      split; [apply in_or_app; right; left; reflexivity|]. auto.
Qed.

Lemma caraka_chapter_trace id fld total0 done st pdf :
  chapters_trace fld total0 done st ->
  chapters_trace fld total0 (done ++ [pdf]) (Caraka.chapter_step id fld st pdf).
Proof.
  intros Hst. unfold Caraka.chapter_step.
  destruct (contains (str "Chapter_") (stem (file_name pdf))) eqn:Hc.
  - destruct (chapter_number_of (stem (file_name pdf))) as [n|] eqn:Hn.
    + apply chapters_trace_add; auto.
      unfold names_chapter. rewrite Hc, Hn. reflexivity.
    + apply chapters_trace_skip; [|exact Hst].
      unfold names_chapter. rewrite Hc, Hn. reflexivity.
  - apply chapters_trace_skip; [|exact Hst].
    unfold names_chapter. rewrite Hc. reflexivity.
Qed.

Lemma sushruta_chapter_trace fld total0 done st pdf :
  chapters_trace fld total0 done st ->
  chapters_trace fld total0 (done ++ [pdf]) (Sushruta.chapter_step fld st pdf).
Proof.
  intros Hst. unfold Sushruta.chapter_step.
  destruct (contains (str "Chapter_") (stem (file_name pdf))) eqn:Hc; simpl.
  - destruct (chapter_number_of (stem (file_name pdf))) as [n|] eqn:Hn.
    + apply chapters_trace_add; auto.
      unfold names_chapter. rewrite Hc, Hn. reflexivity.
    + apply chapters_trace_skip; [|exact Hst].
      unfold names_chapter. rewrite Hc, Hn. reflexivity.
  - apply chapters_trace_skip; [|exact Hst].
    unfold names_chapter. rewrite Hc. reflexivity.
Qed.

Lemma filter_perm_length {A} (p : A -> bool) l l' :
  Permutation l l' -> length (filter p l) = length (filter p l').
Proof.
  induction 1; simpl; try lia.
  - destruct (p x); simpl; lia.
  - destruct (p x), (p y); simpl; lia.
Qed.

Lemma filter_filter {A} (p q : A -> bool) l :
  filter q (filter p l) = filter (fun x => p x && q x) l.
Proof.
  induction l as [|x l IH]; simpl; [reflexivity|].
  destruct (p x); simpl; [destruct (q x); simpl; rewrite IH; reflexivity | exact IH].
Qed.

Lemma glob_pdf_perm fld :
  Permutation (glob_pdf fld)
              (filter (fun e => ends_with (str ".pdf") (file_name e)) (entries fld)).
Proof. unfold glob_pdf. apply sort_by_perm. Qed.

Lemma glob_pdf_in fld pdf :
  In pdf (glob_pdf fld) ->
  In pdf (entries fld) /\ ends_with (str ".pdf") (file_name pdf) = true.
Proof.
  intros H. apply (Permutation_in _ (glob_pdf_perm fld)) in H.
  apply filter_In in H. exact H.
Qed.

Lemma glob_pdf_chapter_files fld :
  length (filter names_chapter (glob_pdf fld)) = length (chapter_files fld).
Proof.
  rewrite (filter_perm_length names_chapter _ _ (glob_pdf_perm fld)).
  rewrite filter_filter. unfold chapter_files. f_equal.
  apply filter_ext. intros e. unfold is_chapter_file, names_chapter.
  apply andb_assoc.
Qed.

Lemma glob_pdf_empty fld : glob_pdf fld = [] <-> has_pdf fld = false.
Proof.
  unfold has_pdf. split.
  - intros H. pose proof (glob_pdf_perm fld) as Hp. rewrite H in Hp.
    apply Permutation_nil in Hp.
    destruct (existsb _ (entries fld)) eqn:E; [|reflexivity].
    apply existsb_exists in E. destruct E as (e & Hin & He).
    assert (Hf : In e (filter (fun e => ends_with (str ".pdf") (file_name e)) (entries fld)))
      by (apply filter_In; split; assumption).
    rewrite Hp in Hf. contradiction.
  - intros H. destruct (glob_pdf fld) as [|pdf l] eqn:E; [reflexivity|].
    assert (Hin : In pdf (glob_pdf fld)) by (rewrite E; left; reflexivity).
    apply glob_pdf_in in Hin. destruct Hin as [Hin He].
    assert (Hex : existsb (fun e => ends_with (str ".pdf") (file_name e)) (entries fld) = true)
      by (apply existsb_exists; exists pdf; split; assumption).
    congruence.
Qed.

Lemma total_chapter_files_app done fld :
  total_chapter_files (done ++ [fld])
  = total_chapter_files done + Z.of_nat (length (chapter_files fld)).
Proof.
  unfold total_chapter_files. induction done as [|x done IH]; simpl; lia.
Qed.

Lemma total_chapter_files_perm l l' :
  Permutation l l' -> total_chapter_files l = total_chapter_files l'.
Proof.
  unfold total_chapter_files. induction 1; simpl; lia.
Qed.

Lemma sections_of_tree_grow done fld m :
  sections_of_tree done m -> sections_of_tree (done ++ [fld]) m.
Proof.
  unfold sections_of_tree. intros H. eapply Forall_impl; [|exact H].
  intros s (f & Hin & Hs). exists f. split; [apply in_or_app; left; exact Hin | exact Hs].
Qed.

(** Closing a section, with the trace of its inner loop. *)
Lemma manifest_trace_section kept done m fld st sid sname senglish :
  kept fld = true ->
  manifest_trace kept done m ->
  chapters_trace fld (totalChapters m) (glob_pdf fld) st ->
  manifest_trace kept (done ++ [fld])
    {| scriptureId := scriptureId m;
       scriptureName := scriptureName m;
       totalChapters := snd st;
       lastUpdated := lastUpdated m;
       sections :=
         sections m ++
         [ {| sectionId := sid;
              sectionName := sname;
              sectionNameEnglish := senglish;
              chapterCount := Z.of_nat (length (sort_chapters (fst st)));
              chapters := sort_chapters (fst st) |} ] |}.
Proof.
  intros Hk (Htot & Htree & Hord & Hlen) [Hsnd Hall].
  assert (Hperm : Permutation (sort_chapters (fst st)) (fst st)) by apply sort_by_perm.
  unfold manifest_trace. simpl. split; [|split; [|split]].
  - rewrite total_chapter_files_app, Hsnd, Htot, glob_pdf_chapter_files. reflexivity.
  - unfold sections_of_tree. simpl. apply Forall_app. split.
    + apply (sections_of_tree_grow done fld m Htree).
    + constructor; [|constructor]. exists fld.
      split; [apply in_or_app; right; left; reflexivity|].
      unfold section_of_folder. simpl.
      eapply Permutation_Forall; [symmetry; exact Hperm|].
      eapply Forall_impl; [|exact Hall].
      intros c (pdf & Hin & Hn & Hnum & Hid & Hmeta).
      exists pdf. destruct (glob_pdf_in fld pdf Hin) as [Hin' Hpdf].
      unfold chapter_of_file, is_chapter_file. unfold names_chapter in Hn.
      rewrite Hpdf. simpl.
      split; [exact Hin'|]. split; [exact Hn|]. split; [exact Hnum|].
      split; [exact Hid | exact Hmeta].
  - apply Forall_app. split; [exact Hord|]. constructor; [|constructor].
    unfold chapters_in_order. simpl. apply sort_chapters_sorted.
  - rewrite length_app, filter_length_app, Hk, Hlen. reflexivity.
Qed.

Lemma manifest_trace_skip kept done m fld :
  kept fld = false -> has_pdf fld = false ->
  manifest_trace kept done m -> manifest_trace kept (done ++ [fld]) m.
Proof.
  intros Hk Hp (Htot & Htree & Hord & Hlen).
  assert (Hnone : length (chapter_files fld) = 0%nat).
  { rewrite <- glob_pdf_chapter_files. apply glob_pdf_empty in Hp. rewrite Hp. reflexivity. }
  unfold manifest_trace. split; [|split; [|split]].
  - rewrite total_chapter_files_app, Hnone, Htot. simpl. lia.
  - apply sections_of_tree_grow. exact Htree.
  - exact Hord.
  - rewrite filter_length_app, Hk, Hlen. lia.
Qed.

(** The last step of a builder: the sections sorted, the folders as they
    were given. *)
Lemma manifest_trace_sorted kept dirs dirs' m :
  Permutation dirs' dirs ->
  manifest_trace kept dirs' m ->
  manifest_trace kept dirs
    {| scriptureId := scriptureId m;
       scriptureName := scriptureName m;
       totalChapters := totalChapters m;
       lastUpdated := lastUpdated m;
       sections := sort_sections (sections m) |}.
Proof.
  intros Hd (Htot & Htree & Hord & Hlen).
  pose proof (sort_sections_perm (sections m)) as Hs.
  unfold manifest_trace. simpl. split; [|split; [|split]].
  - rewrite Htot. apply total_chapter_files_perm. exact Hd.
  - unfold sections_of_tree. simpl.
    eapply Permutation_Forall; [symmetry; exact Hs|].
    eapply Forall_impl; [|exact Htree].
    intros s (f & Hin & Hf). exists f.
    split; [eapply Permutation_in; eassumption | exact Hf].
  - eapply Permutation_Forall; [symmetry; exact Hs | exact Hord].
  - rewrite (Permutation_length Hs), Hlen. apply filter_perm_length. exact Hd.
Qed.

Lemma manifest_trace_start kept id name now :
  manifest_trace kept []
    {| scriptureId := id; scriptureName := name; totalChapters := 0;
       lastUpdated := now; sections := [] |}.
Proof.
  unfold manifest_trace, sections_of_tree. simpl.
  split; [reflexivity|]. split; [constructor|]. split; [constructor | reflexivity].
Qed.

Lemma caraka_section_trace id done m fld :
  manifest_trace has_pdf done m ->
  manifest_trace has_pdf (done ++ [fld]) (Caraka.section_step id m fld).
Proof.
  intros Hm. unfold Caraka.section_step.
  destruct (Caraka.section_info (folder_name fld)) as [sid sname].
  destruct (glob_pdf fld) as [|pdf pdfs] eqn:Hglob.
  - assert (Hp : has_pdf fld = false) by (apply glob_pdf_empty; exact Hglob).
    apply manifest_trace_skip; assumption.
  - assert (Hp : has_pdf fld = true).
    { destruct (has_pdf fld) eqn:E; [reflexivity|].
      apply glob_pdf_empty in E. congruence. }
    apply manifest_trace_section; [exact Hp | exact Hm |].
    rewrite <- Hglob.
    apply (fold_left_trace (chapters_trace fld (totalChapters m))).
    + intros d a x. apply caraka_chapter_trace.
    + split; simpl; [lia | constructor].
Qed.

Lemma sushruta_section_trace done m fld :
  manifest_trace (fun _ => true) done m ->
  manifest_trace (fun _ => true) (done ++ [fld]) (Sushruta.section_step m fld).
Proof.
  intros Hm. unfold Sushruta.section_step.
  destruct (Sushruta.extract_section_info (folder_name fld)) as [[sid sname] senglish].
  apply manifest_trace_section; [reflexivity | exact Hm |].
  apply (fold_left_trace (chapters_trace fld (totalChapters m))).
  - intros d a x. apply sushruta_chapter_trace.
  - split; simpl; [lia | constructor].
Qed.

Lemma caraka_manifest_trace dirs id name now m :
  Caraka.generate_chapter_manifest (Some dirs) id name now = Some m ->
  manifest_trace has_pdf dirs m.
Proof.
  unfold Caraka.generate_chapter_manifest.
  set (sorted := sort_by (fun a b => text_ltb (folder_name a) (folder_name b)) dirs).
  assert (Hperm : Permutation sorted dirs) by apply sort_by_perm.
  assert (Htrace : forall m0,
             manifest_trace has_pdf [] m0 ->
             manifest_trace has_pdf sorted (fold_left (Caraka.section_step id) sorted m0)).
  { intros m0 H0. apply (fold_left_trace (manifest_trace has_pdf)); [|exact H0].
    intros d a x. apply caraka_section_trace. }
  clearbody sorted.
  destruct sorted as [|d ds]; [discriminate|].
  intros H. injection H as <-.
  apply (manifest_trace_sorted has_pdf dirs (d :: ds) _ Hperm).
  apply Htrace. apply manifest_trace_start.
Qed.

Lemma sushruta_manifest_trace dirs now m :
  Sushruta.main (Some dirs) now = Some m ->
  manifest_trace (fun _ => true) dirs m.
Proof.
  unfold Sushruta.main.
  set (sorted := sort_by (fun a b => text_ltb (folder_name a) (folder_name b)) dirs).
  assert (Hperm : Permutation sorted dirs) by apply sort_by_perm.
  intros H. injection H as <-.
  apply (manifest_trace_sorted (fun _ => true) dirs sorted _ Hperm).
  apply (fold_left_trace (manifest_trace (fun _ => true))).
  - intros d a x. apply sushruta_section_trace.
  - apply manifest_trace_start.
Qed.

(** ** The manifest against the tree *)


Lemma manifest_trace_from_tree kept dirs m :
  manifest_trace kept dirs m -> from_tree dirs m.
Proof.
  intros (_ & Htree & _ & _) s Hs.
  unfold sections_of_tree in Htree. rewrite Forall_forall in Htree.
  destruct (Htree s Hs) as (fld & Hfld & Hsec).
  exists fld. split; [exact Hfld|]. intros c Hc.
  unfold section_of_folder in Hsec. rewrite Forall_forall in Hsec.
  destruct (Hsec c Hc) as (pdf & Hin & Hfile & Hnum & Hid & Hmeta).
  exists pdf. unfold is_chapter_file in Hfile.
  apply andb_true_iff in Hfile. destruct Hfile as [Hfile Hsome].
  apply andb_true_iff in Hfile. destruct Hfile as [Hpdf Hch].
  split; [exact Hin|]. split; [exact Hpdf|]. split; [exact Hch|].
  split; [exact Hnum|]. split; [|exact Hmeta].
  rewrite Hid. apply int_of_str_round_trip.
Qed.

(** X10.  Every chapter entry of the manifest of either builder describes
    a file of the tree, and the entries of one section files of one
    folder: the file is named [*.pdf], its stem holds "Chapter_" and
    gives the entry's chapter number, the entry's id read as an integer
    is that number, and [hasMetadata] tells whether the JSON file beside
    the PDF exists. *)
Theorem manifest_chapters_come_from_files :
  (forall dirs scripture_id scripture_name now m,
      Caraka.generate_chapter_manifest (Some dirs) scripture_id scripture_name now
      = Some m -> from_tree dirs m)
  /\ (forall dirs now m, Sushruta.main (Some dirs) now = Some m -> from_tree dirs m).
Proof.
  split.
  - intros dirs id name now m H.
    exact (manifest_trace_from_tree _ _ _ (caraka_manifest_trace _ _ _ _ _ H)).
  - intros dirs now m H.
    exact (manifest_trace_from_tree _ _ _ (sushruta_manifest_trace _ _ _ H)).
Qed.

Lemma manifest_chapters_come_from_files_witness :
  exists m,
    Caraka.generate_chapter_manifest (Some sample_tree) (str "caraka_samhita")
      (str "Caraka") (str "2025-01-01T00:00:00") = Some m
    /\ map (fun s => map chapterId (chapters s)) (sections m)
       = [[str "4"]; [str "2"; str "10"]]
    /\ from_tree sample_tree m.
Proof.
  eexists. split; [vm_compute; reflexivity|]. split; [vm_compute; reflexivity|].
  apply (proj1 manifest_chapters_come_from_files sample_tree (str "caraka_samhita")
           (str "Caraka") (str "2025-01-01T00:00:00")).
  vm_compute. reflexivity.
Defined.

Lemma sorted_sections_in_order kept dirs m0 m :
  manifest_trace kept dirs m ->
  sections m = sort_sections (sections m0) ->
  manifest_in_order m.
Proof.
  intros (_ & _ & Hord & _) Hs. split; [exact Hord|].
  intros keys Hk. rewrite Hs in Hk. exact (sort_sections_sorted _ _ Hk).
Qed.

(** X11.  In the manifest of either builder the chapters of every
    section stand in the order of their numbers, and, where the id of
    every section is an integer, the sections stand in the order of
    those integers. *)
Theorem manifest_sections_and_chapters_in_order :
  (forall root scripture_id scripture_name now m,
      Caraka.generate_chapter_manifest root scripture_id scripture_name now = Some m ->
      manifest_in_order m)
  /\ (forall root now m, Sushruta.main root now = Some m -> manifest_in_order m).
Proof.
  split.
  - intros [dirs|] id name now m H; [|discriminate].
    pose proof (caraka_manifest_trace _ _ _ _ _ H) as Ht.
    unfold Caraka.generate_chapter_manifest in H.
    destruct (sort_by _ dirs) as [|d ds]; [discriminate|].
    injection H as Hm.
    eapply sorted_sections_in_order; [exact Ht|]. rewrite <- Hm. reflexivity.
  - intros [dirs|] now m H; [|discriminate].
    pose proof (sushruta_manifest_trace _ _ _ H) as Ht.
    unfold Sushruta.main in H. injection H as Hm.
    eapply sorted_sections_in_order; [exact Ht|]. rewrite <- Hm. reflexivity.
Qed.

Lemma manifest_sections_and_chapters_in_order_witness :
  exists m,
    Caraka.generate_chapter_manifest (Some sample_tree) (str "caraka_samhita")
      (str "Caraka") (str "2025-01-01T00:00:00") = Some m
    /\ map sectionId (sections m) = [str "1"; str "2"]
    /\ map (fun s => map chapterNumber (chapters s)) (sections m) = [[4]; [2; 10]]
    /\ manifest_in_order m.
Proof.
  eexists. split; [vm_compute; reflexivity|]. split; [vm_compute; reflexivity|].
  split; [vm_compute; reflexivity|].
  apply (proj1 manifest_sections_and_chapters_in_order (Some sample_tree)
           (str "caraka_samhita") (str "Caraka") (str "2025-01-01T00:00:00")).
  vm_compute. reflexivity.
Defined.

Lemma sum_counts_length l :
  Forall section_count_ok l ->
  sum_counts l = Z.of_nat (length (concat (map chapters l))).
Proof.
  induction 1 as [|s l Hs Hl IH]; simpl; [reflexivity|].
  rewrite length_app, IH, Hs. lia.
Qed.

Lemma manifest_trace_all_chapters kept dirs m :
  manifest_trace kept dirs m -> manifest_counts m ->
  totalChapters m = total_chapter_files dirs
  /\ Z.of_nat (length (all_chapters m)) = total_chapter_files dirs.
Proof.
  intros (Htot & _) [Hsum Hall]. split; [exact Htot|].
  unfold all_chapters. rewrite <- sum_counts_length by exact Hall.
  rewrite <- Hsum. exact Htot.
Qed.

(** X12.  No chapter file is dropped or counted twice: in the manifest
    of either builder [totalChapters], and the number of chapter entries
    over all sections, is the number of files of the tree named [*.pdf]
    whose stem holds "Chapter_" followed by a chapter number. *)
Theorem manifest_counts_every_chapter_file :
  (forall dirs scripture_id scripture_name now m,
      Caraka.generate_chapter_manifest (Some dirs) scripture_id scripture_name now
      = Some m ->
      totalChapters m = total_chapter_files dirs
      /\ Z.of_nat (length (all_chapters m)) = total_chapter_files dirs)
  /\ (forall dirs now m,
         Sushruta.main (Some dirs) now = Some m ->
         totalChapters m = total_chapter_files dirs
         /\ Z.of_nat (length (all_chapters m)) = total_chapter_files dirs).
Proof.
  split.
  - intros dirs id name now m H.
    apply (manifest_trace_all_chapters has_pdf).
    + exact (caraka_manifest_trace _ _ _ _ _ H).
    + exact (proj1 (caraka_manifest_ok _ _ _ _ _ H)).
  - intros dirs now m H.
    apply (manifest_trace_all_chapters (fun _ => true)).
    + exact (sushruta_manifest_trace _ _ _ H).
    + exact (proj1 (sushruta_manifest_ok _ _ _ H)).
Qed.

Lemma manifest_counts_every_chapter_file_witness :
  exists m,
    Sushruta.main (Some sample_tree) (str "2025-01-01T00:00:00") = Some m
    /\ total_chapter_files sample_tree = 3
    /\ totalChapters m = total_chapter_files sample_tree
    /\ Z.of_nat (length (all_chapters m)) = total_chapter_files sample_tree.
Proof.
  eexists. split; [vm_compute; reflexivity|]. split; [vm_compute; reflexivity|].
  apply (proj2 manifest_counts_every_chapter_file sample_tree
           (str "2025-01-01T00:00:00")).
  vm_compute. reflexivity.
Defined.

Lemma existsb_filter_length {A} (p : A -> bool) l :
  existsb p l = negb (length (filter p l) =? 0)%nat.
Proof.
  induction l as [|x l IH]; simpl; [reflexivity|].
  destruct (p x); simpl; [reflexivity | exact IH].
Qed.

Lemma filter_always {A} (l : list A) : filter (fun _ => true) l = l.
Proof. induction l as [|x l IH]; simpl; [reflexivity | rewrite IH; reflexivity]. Qed.

Lemma caraka_manifest_some dirs id name now :
  dirs <> [] ->
  exists m, Caraka.generate_chapter_manifest (Some dirs) id name now = Some m.
Proof.
  intros Hne. unfold Caraka.generate_chapter_manifest.
  pose proof (sort_by_perm (fun a b => text_ltb (folder_name a) (folder_name b)) dirs) as Hp.
  destruct (sort_by _ dirs) as [|d ds].
  - apply Permutation_nil in Hp. contradiction.
  - eexists. reflexivity.
Qed.

(** X13.  The generic builder gives one section for every folder that
    holds a [*.pdf] file, the Sushruta builder one for every folder.  So
    [validate_manifest] accepts what [generate_chapter_manifest] returns
    exactly when the root exists and one of its folders holds a [*.pdf]
    file, be it a chapter or not. *)
Theorem validated_manifest_needs_one_pdf :
  (forall root scripture_id scripture_name now,
      validate_manifest
        (Caraka.generate_chapter_manifest root scripture_id scripture_name now)
      = match root with
        | Some dirs => existsb has_pdf dirs
        | None => false
        end)
  /\ (forall dirs scripture_id scripture_name now m,
         Caraka.generate_chapter_manifest (Some dirs) scripture_id scripture_name now
         = Some m ->
         length (sections m) = length (filter has_pdf dirs))
  /\ (forall dirs now m,
         Sushruta.main (Some dirs) now = Some m ->
         length (sections m) = length dirs).
Proof.
  split; [|split].
  - intros [dirs|] id name now; [|reflexivity].
    destruct dirs as [|d dirs].
    + reflexivity.
    + destruct (caraka_manifest_some (d :: dirs) id name now ltac:(discriminate))
        as [m Hm].
      rewrite Hm.
      destruct (caraka_manifest_trace _ _ _ _ _ Hm) as (_ & _ & _ & Hlen).
      unfold validate_manifest. rewrite Hlen, existsb_filter_length.
      destruct (length (filter has_pdf (d :: dirs)) =? 0)%nat; reflexivity.
  - intros dirs id name now m H.
    exact (proj2 (proj2 (proj2 (caraka_manifest_trace _ _ _ _ _ H)))).
  - intros dirs now m H.
    destruct (sushruta_manifest_trace _ _ _ H) as (_ & _ & _ & Hlen).
    rewrite Hlen, filter_always. reflexivity.
Qed.

Lemma validated_manifest_needs_one_pdf_witness :
  exists m,
    Caraka.generate_chapter_manifest (Some notes_only) (str "caraka_samhita")
      (str "Caraka") (str "2025-01-01T00:00:00") = Some m
    /\ totalChapters m = 0
    /\ validate_manifest (Some m) = true
    /\ length (sections m) = length (filter has_pdf notes_only).
Proof.
  eexists. split; [vm_compute; reflexivity|]. split; [vm_compute; reflexivity|].
  split; [vm_compute; reflexivity|].
  apply (proj1 (proj2 validated_manifest_needs_one_pdf) notes_only
           (str "caraka_samhita") (str "Caraka") (str "2025-01-01T00:00:00")).
  vm_compute. reflexivity.
Defined.

(** ** The fallback title of the Ramayana builder *)


(** [re.sub(r"\s+", " ", s)] *)
Lemma plus_prev_free p (k : cont) prev prev' s :
  run (Plus p) k prev s = run (Plus p) k prev' s.
Proof. destruct s; reflexivity. Qed.

Lemma sub_from_plus_prev p repl s :
  forall prev prev' skip,
    sub_from (Plus p) repl prev skip s = sub_from (Plus p) repl prev' skip s.
Proof.
  induction s as [|c s IH]; intros prev prev' skip; [reflexivity|].
  destruct skip as [|n]; [|apply IH].
  change (sub_from (Plus p) repl prev 0 (c :: s))
    with (match run (Plus p) accept prev (c :: s) with
          | Some (_ :: m') => repl ++ sub_from (Plus p) repl (Some c) (length m') s
          | _ => c :: sub_from (Plus p) repl (Some c) 0 s
          end).
  rewrite (plus_prev_free p accept prev prev'). reflexivity.
Qed.

Lemma sub_from_skip p repl m s :
  forall prev,
    sub_from (Plus p) repl prev (length m) (m ++ s) = sub_from (Plus p) repl None 0 s.
Proof.
  induction m as [|a m IH]; intros prev; simpl length.
  - apply sub_from_plus_prev.
  - apply IH.
Qed.

Lemma lstrip_split s : exists p, s = p ++ lstrip s /\ all_in is_space p.
Proof.
  induction s as [|c s (p & IH & Hp)]; simpl.
  - exists []. split; [reflexivity | constructor].
  - destruct (is_space c) eqn:Hc.
    + exists (c :: p). split; [simpl; rewrite <- IH; reflexivity|].
      constructor; assumption.
    + exists []. split; [reflexivity | constructor].
Qed.

Lemma rep_space_run m t :
  forall prev,
    all_in is_space m -> lstrip t = t ->
    rep is_space accept prev (m ++ t) = Some m.
Proof.
  induction m as [|a m IH]; intros prev Hm Ht.
  - destruct t as [|d t']; [reflexivity|].
    simpl. rewrite (lstrip_head d t' (d :: t') Ht). reflexivity.
  - inversion Hm; subst. simpl. rewrite H1, (IH (Some a)); auto.
Qed.

Lemma collapse_space c s prev :
  is_space c = true ->
  sub_from (Plus is_space) [32] prev 0 (c :: s)
  = 32 :: sub_from (Plus is_space) [32] None 0 (lstrip s).
Proof.
  intros Hc. destruct (lstrip_split s) as (m & Hs & Hm).
  assert (Ht : lstrip (lstrip s) = lstrip s) by apply lstrip_idem.
  remember (lstrip s) as t eqn:Et. clear Et. subst s.
  simpl. rewrite Hc, (rep_space_run m t (Some c) Hm Ht). simpl.
  f_equal. apply sub_from_skip.
Qed.

Lemma collapse_other c s prev :
  is_space c = false ->
  sub_from (Plus is_space) [32] prev 0 (c :: s)
  = c :: sub_from (Plus is_space) [32] None 0 s.
Proof.
  intros Hc. simpl. rewrite Hc. f_equal. apply sub_from_plus_prev.
Qed.

Lemma single_spaced_other c s :
  is_space c = false -> single_spaced s = true -> single_spaced (c :: s) = true.
Proof.
  intros Hc Hs. cbn [single_spaced]. rewrite Hc, Hs.
  destruct s; reflexivity.
Qed.

Lemma lstrip_length s : (length (lstrip s) <= length s)%nat.
Proof.
  destruct (lstrip_split s) as (p & Hs & _).
  rewrite Hs at 2. rewrite length_app. lia.
Qed.

Lemma collapse_single_spaced s :
  single_spaced (re_sub (Plus is_space) [32] s) = true.
Proof.
  unfold re_sub.
  assert (H : forall n s, (length s <= n)%nat ->
                          single_spaced (sub_from (Plus is_space) [32] None 0 s) = true).
  { clear s. induction n as [|n IH]; intros s Hn.
    - destruct s; [reflexivity | simpl in Hn; lia].
    - destruct s as [|c s]; [reflexivity|]. simpl in Hn.
      destruct (is_space c) eqn:Hc.
      + rewrite (collapse_space c s None Hc).
        pose proof (lstrip_length s) as Hl.
        destruct (lstrip s) as [|d t] eqn:Et; [reflexivity|].
        pose proof (lstrip_head d t s Et) as Hd.
        rewrite (collapse_other d t None Hd).
        assert (Ht : single_spaced (sub_from (Plus is_space) [32] None 0 t) = true)
          by (apply IH; simpl in Hl; lia).
        cbn [single_spaced]. rewrite Hd, Ht.
        destruct (sub_from (Plus is_space) [32] None 0 t); reflexivity.
      + rewrite (collapse_other c s None Hc).
        apply single_spaced_other; [exact Hc | apply IH; lia]. }
  apply (H (length s)). lia.
Qed.

Lemma single_spaced_tail a s : single_spaced (a :: s) = true -> single_spaced s = true.
Proof.
  cbn [single_spaced]. intros H. apply andb_true_iff in H. apply H.
Qed.

Lemma single_spaced_suffix p s : single_spaced (p ++ s) = true -> single_spaced s = true.
Proof.
  induction p as [|a p IH]; simpl app; [auto|].
  intros H. apply IH. exact (single_spaced_tail _ _ H).
Qed.

Lemma single_spaced_prefix s q : single_spaced (s ++ q) = true -> single_spaced s = true.
Proof.
  induction s as [|a s IH]; [reflexivity|].
  change ((a :: s) ++ q) with (a :: (s ++ q)). cbn [single_spaced].
  intros H. apply andb_true_iff in H. destruct H as [H Hs].
  apply andb_true_iff in H. destruct H as [Ha Hab].
  rewrite Ha, (IH Hs). destruct s as [|b s]; [reflexivity|].
  simpl in Hab. rewrite Hab. reflexivity.
Qed.

Lemma strip_part s : exists p q, s = p ++ strip s ++ q.
Proof.
  unfold strip, rstrip.
  destruct (lstrip_suffix s) as [p Hp].
  destruct (lstrip_suffix (rev (lstrip s))) as [q Hq].
  exists p, (rev q).
  apply (f_equal (@rev _)) in Hq. rewrite rev_involutive, rev_app_distr in Hq.
  rewrite <- Hq. exact Hp.
Qed.

Lemma strip_single_spaced s : single_spaced s = true -> single_spaced (strip s) = true.
Proof.
  intros H. destruct (strip_part s) as (p & q & Hs). rewrite Hs in H.
  apply single_spaced_suffix in H. apply single_spaced_prefix in H. exact H.
Qed.

(** [s.replace(c, d)] for single characters. *)
Lemma replace_char c d s :
  replace [c] [d] s = map (fun x => if x =? c then d else x) s.
Proof.
  unfold replace, re_sub, word. simpl map. cbn [seq].
  generalize (@None codepoint).
  induction s as [|a s IH]; intros prev; [reflexivity|].
  simpl. unfold lit. destruct (a =? c); simpl; rewrite IH; reflexivity.
Qed.

Lemma sub_from_chars q r repl s :
  all_in q repl -> all_in q s ->
  forall prev skip, all_in q (sub_from r repl prev skip s).
Proof.
  intros Hr. induction 1 as [|c s Hc Hs IH]; intros prev skip; simpl; [constructor|].
  destruct skip as [|n]; [|apply IH].
  destruct (run r accept prev (c :: s)) as [[|c' m']|].
  - constructor; [exact Hc | apply IH].
  - apply Forall_app. split; [exact Hr | apply IH].
  - constructor; [exact Hc | apply IH].
Qed.

Lemma replaced_no_separator s :
  all_in no_separator (replace (str "-") (str " ") (replace (str "_") (str " ") s)).
Proof.
  change (str "-") with [45]. change (str "_") with [95]. change (str " ") with [32].
  rewrite !replace_char. unfold all_in. rewrite Forall_forall. intros x Hx.
  apply in_map_iff in Hx. destruct Hx as (y & <- & Hy).
  apply in_map_iff in Hy. destruct Hy as (z & <- & _).
  unfold no_separator, hyphen.
  destruct (Z.eqb_spec z 95) as [->|Hz]; [reflexivity|].
  destruct (Z.eqb_spec z 45) as [->|Hz']; [reflexivity|].
  destruct (Z.eqb_spec z 95); [contradiction|].
  destruct (Z.eqb_spec z 45); [contradiction|]. reflexivity.
Qed.

(** X14.  The fallback title made from a file name is never empty, has
    no whitespace at its ends, holds neither an underscore nor a hyphen,
    and its only whitespace is single spaces: every whitespace character
    of it is a space, no two of them side by side. *)
Theorem fallback_title_shape :
  forall filename,
    Ramayana.derive_fallback_title filename <> []
    /\ strip (Ramayana.derive_fallback_title filename)
       = Ramayana.derive_fallback_title filename
    /\ single_spaced (Ramayana.derive_fallback_title filename) = true
    /\ ~ In 95 (Ramayana.derive_fallback_title filename)
    /\ ~ In hyphen (Ramayana.derive_fallback_title filename).
Proof.
  intros filename. unfold Ramayana.derive_fallback_title.
  set (v := re_sub _ [] (re_sub _ [] (stem filename))).
  set (w := replace (str "-") (str " ") (replace (str "_") (str " ") v)).
  assert (Hw : all_in no_separator (strip (re_sub (Plus is_space) (str " ") w))).
  { eapply subseq_all_in; [apply strip_subseq|].
    apply sub_from_chars; [repeat constructor | apply replaced_no_separator]. }
  assert (Hs : single_spaced (strip (re_sub (Plus is_space) (str " ") w)) = true).
  { apply strip_single_spaced. apply collapse_single_spaced. }
  assert (Hi : strip (strip (re_sub (Plus is_space) (str " ") w))
               = strip (re_sub (Plus is_space) (str " ") w)) by apply strip_idem.
  destruct (strip (re_sub (Plus is_space) (str " ") w)) as [|c t] eqn:E.
  - split; [discriminate|]. split; [vm_compute; reflexivity|].
    split; [vm_compute; reflexivity|].
    split; intros H; vm_compute in H; repeat (destruct H as [H|H]; [discriminate H|]);
      exact H.
  - split; [discriminate|]. split; [exact Hi|]. split; [exact Hs|].
    unfold all_in in Hw. rewrite Forall_forall in Hw.
    split; intros H; apply Hw in H; vm_compute in H; discriminate H.
Qed.
